(** * Product catalog cache of the LinkBy6 Stripe server

    A shallow embedding of [ProductCatalogService] (server.js) and of the
    [GET /products] handler, followed by the properties of the catalog
    organizer and of the read-through cache.

    Modelling conventions.
    - JavaScript objects used as dictionaries are [gmap string _], the map
      of their own properties.  The lookup [organizedPrices] is a
      [JSObject.t]: its keys are plan identifiers, so an assignment can
      reach the setter of [__proto__], and [validatePriceId] reads it and
      its values with caller-supplied keys, so a read can reach the
      properties inherited from [Object.prototype].  The metadata of a
      product is read at fixed keys that [Object.prototype] does not have,
      and [priceVariations] is written at three fixed keys.
    - JavaScript numbers that hold integers ([Date.now()], [unit_amount],
      the result of [parseInt]) are [Z]; [NaN] is [None].  The model is exact
      for integers of magnitude below 2^53.
    - Strings are byte strings; the character classes of [parseInt],
      [toLowerCase] and [\s] are modelled on their ASCII part.
    - An exception is the [Throw] branch of [Result]; [await] on a rejected
      promise is [Throw] as well.  Calls are sequential: no two calls of the
      service are interleaved.
    - The Stripe client, [JSON.parse] and the built-in functions of the
      engine are not part of the repository; the replies of the first are
      inputs of the model, the others are the parameters [JSONParser] and
      [Builtins]. *)

From Stdlib Require Import ZArith String Ascii List Sorted Permutation Lia.
From Stdlib Require Import DecimalString.
From stdpp Require Import base option list strings gmap fin_maps.

Local Open Scope string_scope.
Local Open Scope list_scope.
Local Open Scope Z_scope.

(** ** Exceptions *)

Inductive Error : Type :=
  | GatewayError (message : string)
  | SyntaxError (message : string)
  | TypeError (message : string).

Definition error_message (e : Error) : string :=
  match e with
  | GatewayError m => m
  | SyntaxError m => m
  | TypeError m => m
  end.

Inductive Result (A : Type) : Type :=
  | Ok (a : A)
  | Throw (e : Error).
Arguments Ok {A} a.
Arguments Throw {A} e.

#[global] Instance Result_ret : MRet Result := fun A a => Ok a.
#[global] Instance Result_bind : MBind Result := fun A B f m =>
  match m with
  | Ok a => f a
  | Throw e => Throw e
  end.

(** [JSON.parse]: a value, or the message of the [SyntaxError] it throws. *)
Class JSONParser : Type := {
  JSONValue : Type;
  JSON_parse : string -> string + JSONValue;
  JSON_empty_array : JSONValue
}.

(** ** JavaScript string primitives *)
Module JS.

(** White space of [StrWhiteSpaceChar] and of the regexp class [\s]. *)
Definition is_space (c : ascii) : bool :=
  let n := nat_of_ascii c in
  ((9 <=? n)%nat && (n <=? 13)%nat) || (n =? 32)%nat.

Fixpoint trim_start (s : string) : string :=
  match s with
  | String c s' => if is_space c then trim_start s' else s
  | EmptyString => EmptyString
  end.

(** Value of a character as a digit, in any radix up to 36. *)
Definition digit_value (c : ascii) : option Z :=
  let n := Z.of_nat (nat_of_ascii c) in
  if (48 <=? n) && (n <=? 57) then Some (n - 48)
  else if (97 <=? n) && (n <=? 122) then Some (n - 87)
  else if (65 <=? n) && (n <=? 90) then Some (n - 55)
  else None.

Definition digit_in_radix (R : Z) (c : ascii) : option Z :=
  match digit_value c with
  | Some d => if d <? R then Some d else None
  | None => None
  end.

(** The longest prefix of radix-[R] digits; [acc] is [None] until a first
    digit has been read. *)
Fixpoint parse_digits (R : Z) (s : string) (acc : option Z) : option Z :=
  match s with
  | String c s' =>
      match digit_in_radix R c with
      | Some d => parse_digits R s' (Some (default 0 acc * R + d))
      | None => acc
      end
  | EmptyString => acc
  end.

Definition strip_sign (s : string) : Z * string :=
  match s with
  | String "-" r => (-1, r)
  | String "+" r => (1, r)
  | _ => (1, s)
  end.

Definition strip_radix_prefix (s : string) : Z * string :=
  match s with
  | String "0" (String "x" r) => (16, r)
  | String "0" (String "X" r) => (16, r)
  | _ => (10, s)
  end.

(** [parseInt(string)] with no radix argument; [None] is [NaN]. *)
Definition parseInt_string (s : string) : option Z :=
  let '(sign, s1) := strip_sign (trim_start s) in
  let '(R, s2) := strip_radix_prefix s1 in
  (fun n => sign * n) <$> parse_digits R s2 None.

(** [parseInt(v)] for [v] a string or [undefined]; [undefined] is first
    converted to the string ["undefined"]. *)
Definition parseInt (v : option string) : option Z :=
  parseInt_string (default "undefined" v).

(** [n || d] for a number [n]: [NaN] and [0] are falsy. *)
Definition number_or (n : option Z) (d : Z) : Z :=
  match n with
  | Some v => if v =? 0 then d else v
  | None => d
  end.

(** [s || d] for [s] a string or [undefined]: [""] is falsy. *)
Definition string_or (s : option string) (d : string) : string :=
  match s with
  | Some (String c r) => String c r
  | _ => d
  end.

Definition truthy_string (s : option string) : option string :=
  match s with
  | Some (String c r) => Some (String c r)
  | _ => None
  end.

Definition lower_char (c : ascii) : ascii :=
  let n := nat_of_ascii c in
  if ((65 <=? n)%nat && (n <=? 90)%nat) then ascii_of_nat (n + 32) else c.

Fixpoint toLowerCase (s : string) : string :=
  match s with
  | String c s' => String (lower_char c) (toLowerCase s')
  | EmptyString => EmptyString
  end.

(** [s.replace(/\s+/g, '-')]; [in_run] tells that the previous character
    was white space already replaced. *)
Fixpoint replace_spaces_from (in_run : bool) (s : string) : string :=
  match s with
  | String c s' =>
      if is_space c
      then (if in_run then replace_spaces_from true s'
            else String "-" (replace_spaces_from true s'))
      else String c (replace_spaces_from false s')
  | EmptyString => EmptyString
  end.

Definition replace_spaces (s : string) : string := replace_spaces_from false s.

(** [Array.prototype.sort(cmp)]: the engine's sort is stable, and a stable
    sort has one possible result for a comparator that is a difference of
    keys; insertion from the right is one such sort. *)
Section Sort.
Context {A : Type} (cmp : A -> A -> Z).

Fixpoint sort_insert (x : A) (l : list A) : list A :=
  match l with
  | [] => [x]
  | y :: l' => if cmp x y <=? 0 then x :: y :: l' else y :: sort_insert x l'
  end.

Fixpoint sort (l : list A) : list A :=
  match l with
  | [] => []
  | x :: l' => sort_insert x (sort l')
  end.
End Sort.

End JS.

(** ** Primitive values

    The values of the rows of the database and of their fields, and the
    primitive values met by the reads of the catalog. *)
Inductive Value : Type :=
  | VUndefined
  | VNull
  | VBool (b : bool)
  | VNumber (n : Z)
  | VString (s : string).

#[global] Instance Value_eq_dec : EqDecision Value.
Proof. solve_decision. Defined.

Module JSValue.

Definition truthy (v : Value) : bool :=
  match v with
  | VUndefined | VNull => false
  | VBool b => b
  | VNumber n => negb (n =? 0)
  | VString s => negb (bool_decide (s = ""))
  end.

(** [v || d] *)
Definition or (v d : Value) : Value := if truthy v then v else d.

(** [a && b] *)
Definition and (a b : Value) : Value := if truthy a then b else a.

(** [row?.key]: [undefined] when the row is [null] or has no such key. *)
Definition field (row : option (gmap string Value)) (key : string) : Value :=
  match row with
  | Some r => default VUndefined (r !! key)
  | None => VUndefined
  end.

(** The conversion to a string made by a template literal. *)
Definition to_string (v : Value) : string :=
  match v with
  | VUndefined => "undefined"
  | VNull => "null"
  | VBool true => "true"
  | VBool false => "false"
  | VNumber n => NilZero.string_of_int (Z.to_int n)
  | VString s => s
  end.

(** [s || d] for an optional string. *)
Definition string_or_null (s : option string) : Value :=
  match s with
  | Some (String c r) => VString (String c r)
  | _ => VNull
  end.

(** [hay.includes(needle)] *)
Fixpoint includes (hay needle : string) : bool :=
  if String.prefix needle hay then true
  else match hay with
       | String _ rest => includes rest needle
       | EmptyString => false
       end.

End JSValue.

(** ** Plain objects

    An object created by the literal [{}] and filled by assignments
    [o[k] = v] of objects [v].  Its prototype is [Object.prototype] until
    an assignment to the key ["__proto__"] runs the setter that every
    object inherits from [Object.prototype]: the setter makes [v] the
    prototype of [o] and creates no own property.  Every other assignment
    creates or overwrites an own property.  [Object.keys] and
    [JSON.stringify] see the own properties only. *)
Module JSObject.

Record t (V : Type) : Type := {
  own : gmap string V;
  prototype : option V
}.
Arguments own {V} _.
Arguments prototype {V} _.

(** [{}]; the prototype [None] is [Object.prototype]. *)
Definition empty {V : Type} : t V := {| own := ∅; prototype := None |}.

(** [o[k] = v], for an object [o] built from [{}] by such assignments. *)
Definition set {V : Type} (o : t V) (k : string) (v : V) : t V :=
  if bool_decide (k = "__proto__")
  then {| own := own o; prototype := Some v |}
  else {| own := <[k := v]> (own o); prototype := prototype o |}.

(** The properties of [Object.prototype] besides the accessor [__proto__],
    as ECMAScript defines them; each of them is a function. *)
Definition methods : list string :=
  ["constructor"; "hasOwnProperty"; "isPrototypeOf"; "propertyIsEnumerable";
   "toLocaleString"; "toString"; "valueOf";
   "__defineGetter__"; "__defineSetter__"; "__lookupGetter__"; "__lookupSetter__"].

(** What a read [o[k]] finds when [o] has no own property [k] and its
    prototype is [Object.prototype]. *)
Inductive Inherited : Type :=
  | ProtoGetter
  | Method (name : string)
  | Absent.

Definition inherited (k : string) : Inherited :=
  if bool_decide (k = "__proto__") then ProtoGetter
  else if bool_decide (k ∈ methods) then Method k
  else Absent.

End JSObject.

(** [Object.prototype[f][k]] for a method [f] of [Object.prototype]: a
    primitive value, an object of the engine ([None]), or the message of the
    [TypeError] thrown by the accessors [caller] and [arguments].  No object
    of the engine has a property [priceId]. *)
Class Builtins : Type := {
  function_get : string -> string -> string + option Value
}.

(** ** Data model *)

(** A product of [stripe.products.list]. *)
Record RawProduct : Type := {
  product_id : string;
  product_name : string;
  product_description : option string;
  product_active : bool;
  product_metadata : gmap string string
}.

(** [price.product]: the identifier, or the expanded product object. *)
Inductive ProductRef : Type :=
  | RefId (id : string)
  | RefObject (object_id : string).

Record Recurring : Type := {
  interval : string;
  interval_count : Z
}.

(** A price of [stripe.prices.list]. *)
Record RawPrice : Type := {
  price_id : string;
  price_product : ProductRef;
  price_active : bool;
  unit_amount : Z;
  currency : string;
  recurring : option Recurring
}.

(** A value of [priceVariations]; the one-time variant has neither
    [interval] nor [intervalCount]. *)
Record PriceVariant : Type := {
  priceId : string;
  unitAmount : Z;
  variant_currency : string;
  variant_interval : option string;
  intervalCount : option Z
}.

(** [organizedProduct]. *)
Record Plan `{JSONParser} : Type := {
  plan_product : string;
  plan_name : string;
  plan_description : option string;
  planId : string;
  planType : string;
  displayOrder : Z;
  features : JSONValue;
  plan_metadata : gmap string string;
  plan_prices : gmap string PriceVariant;
  plan_active : bool
}.

(** [organizedPrices]: the lookup from plan identifiers to price
    variations. *)
Definition PriceLookup : Type := JSObject.t (gmap string PriceVariant).

(** [productCatalogCache], and the value returned by the reads. *)
Record Cache `{JSONParser} : Type := {
  products : list Plan;
  prices : PriceLookup;
  lastUpdated : option Z;
  cacheExpiry : Z
}.

(** The result of [organizeProductCatalog]. *)
Record Catalog `{JSONParser} : Type := {
  catalog_products : list Plan;
  catalog_prices : PriceLookup
}.

(** ** The organizer *)
Section Organizer.
Context `{JSONParser}.

(** [price.product === product.id] *)
Definition price_matches (product : RawProduct) (price : RawPrice) : bool :=
  match price_product price with
  | RefId s => bool_decide (s = product_id product)
  | RefObject _ => false
  end.

(** [interval === 'month' ? 'monthly' : 'yearly'] *)
Definition intervalKey (i : string) : string :=
  if bool_decide (i = "month") then "monthly" else "yearly".

Definition price_key (price : RawPrice) : string :=
  match recurring price with
  | Some r => intervalKey (interval r)
  | None => "one_time"
  end.

Definition price_variant (price : RawPrice) : PriceVariant :=
  match recurring price with
  | Some r =>
      {| priceId := price_id price;
         unitAmount := unit_amount price;
         variant_currency := currency price;
         variant_interval := Some (interval r);
         intervalCount := Some (interval_count r) |}
  | None =>
      {| priceId := price_id price;
         unitAmount := unit_amount price;
         variant_currency := currency price;
         variant_interval := None;
         intervalCount := None |}
  end.

(** The body of [productPrices.forEach]. *)
Definition add_price (priceVariations : gmap string PriceVariant)
    (price : RawPrice) : gmap string PriceVariant :=
  <[price_key price := price_variant price]> priceVariations.

Definition productPrices (product : RawProduct) (prices : list RawPrice)
    : list RawPrice :=
  List.filter (price_matches product) prices.

Definition priceVariations_of (product : RawProduct) (prices : list RawPrice)
    : gmap string PriceVariant :=
  fold_left add_price (productPrices product prices) ∅.

Definition planId_of (product : RawProduct) : string :=
  JS.string_or (product_metadata product !! "plan_id")
    (JS.replace_spaces (JS.toLowerCase (product_name product))).

Definition planType_of (product : RawProduct) : string :=
  JS.string_or (product_metadata product !! "plan_type") "subscription".

Definition displayOrder_of (product : RawProduct) : Z :=
  JS.number_or (JS.parseInt (product_metadata product !! "display_order")) 999.

(** [metadata.features ? JSON.parse(metadata.features) : []] *)
Definition features_of (product : RawProduct) : Result JSONValue :=
  match JS.truthy_string (product_metadata product !! "features") with
  | Some s =>
      match JSON_parse s with
      | inr v => Ok v
      | inl m => Throw (SyntaxError m)
      end
  | None => Ok JSON_empty_array
  end.

(** The object literal [organizedProduct]. *)
Definition organizeProduct (prices : list RawPrice) (product : RawProduct)
    : Result Plan :=
  fs ← features_of product;
  Ok {| plan_product := product_id product;
        plan_name := product_name product;
        plan_description := product_description product;
        planId := planId_of product;
        planType := planType_of product;
        displayOrder := displayOrder_of product;
        features := fs;
        plan_metadata := product_metadata product;
        plan_prices := priceVariations_of product prices;
        plan_active := product_active product |}.

(** One turn of [products.forEach]: push the plan, then assign its prices
    to [organizedPrices[planId]]. *)
Definition organize_step (prices : list RawPrice)
    (acc : list Plan * PriceLookup) (product : RawProduct)
    : Result (list Plan * PriceLookup) :=
  plan ← organizeProduct prices product;
  Ok (acc.1 ++ [plan], JSObject.set acc.2 (planId plan) (plan_prices plan)).

(** [products.forEach]; an exception ends the loop. *)
Fixpoint organize_loop (prices : list RawPrice) (products : list RawProduct)
    (acc : list Plan * PriceLookup) : Result (list Plan * PriceLookup) :=
  match products with
  | [] => Ok acc
  | product :: rest =>
      acc' ← organize_step prices acc product;
      organize_loop prices rest acc'
  end.

(** [(a, b) => a.displayOrder - b.displayOrder] *)
Definition by_displayOrder (a b : Plan) : Z := displayOrder a - displayOrder b.

Definition organizeProductCatalog (products : list RawProduct)
    (prices : list RawPrice) : Result Catalog :=
  acc ← organize_loop prices products ([], JSObject.empty);
  Ok {| catalog_products := JS.sort by_displayOrder acc.1;
        catalog_prices := acc.2 |}.

End Organizer.

(** ** The catalog cache and its reads *)

(** The two calls of the Stripe client made by a refresh. *)
Inductive GatewayCall : Type :=
  | ProductsList
  | PricesList.

#[global] Instance GatewayCall_eq_dec : EqDecision GatewayCall.
Proof. solve_decision. Defined.

(** What the gateway answers to one refresh: the [data] of each list call,
    or the error it rejects with. *)
Record Gateway : Type := {
  products_list : Result (list RawProduct);
  prices_list : Result (list RawPrice)
}.

(** The inputs of one call of the service: [Date.now()] when the call
    starts, the gateway's answers, and [Date.now()] when the refreshed
    cache is stored. *)
Record Env : Type := {
  now : Z;
  gateway : Gateway;
  refreshed_at : Z
}.

(** The module-level state, and the log of the gateway calls made so far. *)
Record World `{JSONParser} : Type := {
  productCatalogCache : Cache;
  gateway_calls : list GatewayCall
}.

Section Service.
Context `{JSONParser} `{Builtins}.

Definition initial_cache : Cache :=
  {| products := [];
     prices := JSObject.empty;
     lastUpdated := None;
     cacheExpiry := 5 * 60 * 1000 |}.

Definition initial_world : World :=
  {| productCatalogCache := initial_cache; gateway_calls := [] |}.

Definition call (c : GatewayCall) (w : World) : World :=
  {| productCatalogCache := productCatalogCache w;
     gateway_calls := gateway_calls w ++ [c] |}.

(** One refresh is one [stripe.products.list] call. *)
Definition fetches (w : World) : nat :=
  length (List.filter (fun c => bool_decide (c = ProductsList)) (gateway_calls w)).

Definition fetchProducts (env : Env) (w : World) : Result Cache * World :=
  let w1 := call ProductsList w in
  match products_list (gateway env) with
  | Throw error => (Throw error, w1)
  | Ok products_data =>
      let w2 := call PricesList w1 in
      match prices_list (gateway env) with
      | Throw error => (Throw error, w2)
      | Ok prices_data =>
          match organizeProductCatalog products_data prices_data with
          | Throw error => (Throw error, w2)
          | Ok organizedCatalog =>
              let cache :=
                {| products := catalog_products organizedCatalog;
                   prices := catalog_prices organizedCatalog;
                   lastUpdated := Some (refreshed_at env);
                   cacheExpiry := 5 * 60 * 1000 |} in
              (Ok cache,
               {| productCatalogCache := cache;
                  gateway_calls := gateway_calls w2 |})
          end
      end
  end.

(** [!lastUpdated || (now - lastUpdated) > cacheExpiry]; [null] and [0]
    are falsy. *)
Definition cacheExpired (now : Z) (cache : Cache) : bool :=
  match lastUpdated cache with
  | None => true
  | Some t => (t =? 0) || (cacheExpiry cache <? now - t)
  end.

(** The condition of the [if] of [getProductCatalog]. *)
Definition must_refresh (forceRefresh : bool) (now : Z) (cache : Cache) : bool :=
  forceRefresh || cacheExpired now cache || (length (products cache) =? 0)%nat.

Definition getProductCatalog (forceRefresh : bool) (env : Env) (w : World)
    : Result Cache * World :=
  if must_refresh forceRefresh (now env) (productCatalogCache w)
  then fetchProducts env w
  else (Ok (productCatalogCache w), w).

(** The value of [catalog.prices[planId]]: a price-variations object, one
    of its entries, [Object.prototype], one of its methods, or
    [undefined]. *)
Inductive PlanPrices : Type :=
  | Variations (priceVariations : gmap string PriceVariant)
  | Variant (variant : PriceVariant)
  | ObjectPrototype
  | Method (name : string)
  | NoPlanPrices.

(** The value of [planPrices[billingCycle]]: an entry, a primitive value,
    or an object of the engine. *)
Inductive CyclePrice : Type :=
  | Entry (variant : PriceVariant)
  | Primitive (v : Value)
  | Builtin.

(** [catalog.prices[planId]]: an own property of the lookup; else a
    property of its prototype, which is [Object.prototype] or the
    price-variations object that an assignment to ["__proto__"] put in its
    place, followed by [Object.prototype].  The getter of [__proto__] gives
    the prototype of the lookup. *)
Definition prices_get (lookup : PriceLookup) (planId : string) : PlanPrices :=
  match JSObject.own lookup !! planId with
  | Some priceVariations => Variations priceVariations
  | None =>
      match JSObject.prototype lookup with
      | Some priceVariations =>
          match priceVariations !! planId with
          | Some variant => Variant variant
          | None =>
              match JSObject.inherited planId with
              | JSObject.ProtoGetter => Variations priceVariations
              | JSObject.Method name => Method name
              | JSObject.Absent => NoPlanPrices
              end
          end
      | None =>
          match JSObject.inherited planId with
          | JSObject.ProtoGetter => ObjectPrototype
          | JSObject.Method name => Method name
          | JSObject.Absent => NoPlanPrices
          end
      end
  end.

(** [o[k]] when [o] has no own property [k] and has the prototype
    [Object.prototype]. *)
Definition inherited_get (k : string) : CyclePrice :=
  match JSObject.inherited k with
  | JSObject.ProtoGetter | JSObject.Method _ => Builtin
  | JSObject.Absent => Primitive VUndefined
  end.

(** [variant[k]]; the one-time variant has no own property [interval] and
    no own property [intervalCount]. *)
Definition variant_get (variant : PriceVariant) (k : string) : CyclePrice :=
  if bool_decide (k = "priceId") then Primitive (VString (priceId variant))
  else if bool_decide (k = "unitAmount") then Primitive (VNumber (unitAmount variant))
  else if bool_decide (k = "currency")
  then Primitive (VString (variant_currency variant))
  else if bool_decide (k = "interval")
  then match variant_interval variant with
       | Some i => Primitive (VString i)
       | None => inherited_get k
       end
  else if bool_decide (k = "intervalCount")
  then match intervalCount variant with
       | Some n => Primitive (VNumber n)
       | None => inherited_get k
       end
  else inherited_get k.

(** [planPrices[billingCycle]]; the getter of [__proto__] gives [null] on
    [Object.prototype] itself. *)
Definition planPrices_get (planPrices : PlanPrices) (billingCycle : string)
    : Result CyclePrice :=
  match planPrices with
  | Variations priceVariations =>
      Ok (match priceVariations !! billingCycle with
          | Some variant => Entry variant
          | None => inherited_get billingCycle
          end)
  | Variant variant => Ok (variant_get variant billingCycle)
  | ObjectPrototype =>
      Ok (match JSObject.inherited billingCycle with
          | JSObject.ProtoGetter => Primitive VNull
          | JSObject.Method _ => Builtin
          | JSObject.Absent => Primitive VUndefined
          end)
  | Method name =>
      match function_get name billingCycle with
      | inr (Some v) => Ok (Primitive v)
      | inr None => Ok Builtin
      | inl message => Throw (TypeError message)
      end
  | NoPlanPrices =>
      Throw (TypeError ("Cannot read properties of undefined (reading '"
                        +:+ billingCycle +:+ "')"))
  end.

(** [!v] *)
Definition falsy (v : CyclePrice) : bool :=
  match v with
  | Primitive p => negb (JSValue.truthy p)
  | Entry _ | Builtin => false
  end.

(** [v.priceId] *)
Definition get_priceId (v : CyclePrice) : Result Value :=
  match v with
  | Entry variant => Ok (VString (priceId variant))
  | Builtin => Ok VUndefined
  | Primitive VUndefined =>
      Throw (TypeError "Cannot read properties of undefined (reading 'priceId')")
  | Primitive VNull =>
      Throw (TypeError "Cannot read properties of null (reading 'priceId')")
  | Primitive _ => Ok VUndefined
  end.

Definition validatePriceId (planId billingCycle : string) (env : Env)
    (w : World) : Result Value * World :=
  match getProductCatalog false env w with
  | (Throw error, w') => (Throw error, w')
  | (Ok catalog, w') =>
      match prices_get (prices catalog) planId with
      | NoPlanPrices => (Ok VNull, w')
      | planPrices =>
          match planPrices_get planPrices billingCycle with
          | Throw error => (Throw error, w')
          | Ok price =>
              if falsy price then (Ok VNull, w')
              else (get_priceId price, w')
          end
      end
  end.

(** [undefined] is [None]. *)
Definition getProductByPlanId (plan : string) (env : Env) (w : World)
    : Result (option Plan) * World :=
  match getProductCatalog false env w with
  | (Throw error, w') => (Throw error, w')
  | (Ok catalog, w') =>
      (Ok (List.find (fun product => bool_decide (planId product = plan))
             (products catalog)), w')
  end.

(** The responses of [GET /products]. *)
Inductive Response : Type :=
  | CatalogJson (products : list Plan) (lastUpdated : option Z) (cacheExpiry : Z)
  | ErrorJson (status : Z) (error : string) (message : string).

(** [app.get('/products', ...)]; [refresh] is [req.query.refresh]. *)
Definition get_products (refresh : option string) (env : Env) (w : World)
    : Response * World :=
  let forceRefresh := bool_decide (refresh = Some "true") in
  match getProductCatalog forceRefresh env w with
  | (Ok catalog, w') =>
      (CatalogJson (products catalog) (lastUpdated catalog) (cacheExpiry catalog), w')
  | (Throw error, w') =>
      (ErrorJson 500 "Failed to fetch product catalog" (error_message error), w')
  end.

End Service.

(** ** Vocabulary of the statements *)
Section Vocabulary.
Context `{JSONParser}.

(** The lookup built by the loop from the plans it pushed. *)
Definition store_prices (plans : list Plan) (lookup : PriceLookup) : PriceLookup :=
  fold_left (fun o plan => JSObject.set o (planId plan) (plan_prices plan))
    plans lookup.

(** The value last assigned to [o[k]], if any: the prototype for
    ["__proto__"], an own property for the other keys. *)
Definition assigned {V : Type} (o : JSObject.t V) (k : string) : option V :=
  if bool_decide (k = "__proto__") then JSObject.prototype o
  else JSObject.own o !! k.

(** [f] applied to the values assigned to [o]. *)
Definition map_assigned {V W : Type} (f : V -> W) (o : JSObject.t V)
    : JSObject.t W :=
  {| JSObject.own := f <$> JSObject.own o;
     JSObject.prototype := f <$> JSObject.prototype o |}.

(** The names of the methods that every object inherits. *)
Definition method_name (k : string) : bool := bool_decide (k ∈ JSObject.methods).

(** The names for which a read of an empty object finds a property. *)
Definition inherited_name (k : string) : bool :=
  bool_decide (k = "__proto__") || method_name k.

(** The names of the properties of a price entry. *)
Definition variant_field (k : string) : bool :=
  bool_decide (k ∈ ["priceId"; "unitAmount"; "currency"; "interval";
                    "intervalCount"]).

(** [plans] are the plans of [products], in order. *)
Definition plans_of (prices : list RawPrice) (products : list RawProduct)
    (plans : list Plan) : Prop :=
  Forall2 (fun product plan => organizeProduct prices product = Ok plan)
    products plans.

(** The identifier a reference designates, whatever its shape. *)
Definition ref_id (ref : ProductRef) : string :=
  match ref with
  | RefId s => s
  | RefObject s => s
  end.

(** The intervals of the recurring prices are those of the data model. *)
Definition month_or_year (prices : list RawPrice) : Prop :=
  forall price r, price ∈ prices -> recurring price = Some r ->
    interval r = "month" \/ interval r = "year".

(** The variant stored for a plan and a billing cycle, if any: the entry
    for the billing cycle in the price variations that the lookup holds for
    the plan. *)
Definition price_at (catalog : Cache) (plan billingCycle : string)
    : option PriceVariant :=
  match prices_get (prices catalog) plan with
  | Variations planPrices => planPrices !! billingCycle
  | _ => None
  end.

End Vocabulary.

(** ** Sample data

    A stand-in for [JSON.parse] that accepts the empty array only, the
    built-in functions as ECMAScript 2020 has them, and the products and
    prices of the scenarios. *)
Module Sample.

#[local] Instance parser : JSONParser := {|
  JSONValue := list string;
  JSON_parse := fun s =>
    if bool_decide (s = "[]") then inr [] else inl "Unexpected token";
  JSON_empty_array := []
|}.

(** The number of parameters of a method of [Object.prototype]. *)
Definition function_length (f : string) : Z :=
  if bool_decide (f ∈ ["toLocaleString"; "toString"; "valueOf"]) then 0
  else if bool_decide (f ∈ ["__defineGetter__"; "__defineSetter__"]) then 2
  else 1.

(** The properties of the constructor [Object] that are objects. *)
Definition Object_statics : list string :=
  ["prototype"; "assign"; "create"; "defineProperties"; "defineProperty";
   "entries"; "freeze"; "fromEntries"; "getOwnPropertyDescriptor";
   "getOwnPropertyDescriptors"; "getOwnPropertyNames"; "getOwnPropertySymbols";
   "getPrototypeOf"; "is"; "isExtensible"; "isFrozen"; "isSealed"; "keys";
   "preventExtensions"; "seal"; "setPrototypeOf"; "values"].

(** The properties that a function inherits from [Function.prototype]
    and that are objects. *)
Definition Function_prototype : list string :=
  ["apply"; "bind"; "call"; "constructor"; "toString"].

#[local] Instance engine : Builtins := {|
  function_get := fun f k =>
    if bool_decide (k ∈ ["caller"; "arguments"])
    then inl "'caller', 'callee', and 'arguments' properties may not be accessed on strict mode functions or the arguments objects for calls to them"
    else if bool_decide (k = "name")
    then inr (Some (VString (if bool_decide (f = "constructor") then "Object" else f)))
    else if bool_decide (k = "length")
    then inr (Some (VNumber (function_length f)))
    else if bool_decide (k ∈ Function_prototype) || inherited_name k
    then inr None
    else if bool_decide (f = "constructor") && bool_decide (k ∈ Object_statics)
    then inr None
    else inr (Some VUndefined)
|}.

Definition product (id name : string) (metadata : list (string * string))
    : RawProduct :=
  {| product_id := id;
     product_name := name;
     product_description := None;
     product_active := true;
     product_metadata := list_to_map metadata |}.

Definition monthly_price (id : string) (ref : ProductRef) (amount : Z) : RawPrice :=
  {| price_id := id;
     price_product := ref;
     price_active := true;
     unit_amount := amount;
     currency := "usd";
     recurring := Some {| interval := "month"; interval_count := 1 |} |}.

Definition object_price : RawPrice :=
  monthly_price "price_1" (RefObject "prod_123") 4900.

Definition string_price : RawPrice :=
  monthly_price "price_1" (RefId "prod_123") 4900.

Definition essential : RawProduct :=
  product "prod_123" "Essential Plan" [("plan_id", "essential"); ("display_order", "1")].

Definition growth : RawProduct :=
  product "prod_456" "Growth Plan" [("plan_id", "growth"); ("display_order", "0")].

Definition broken : RawProduct :=
  product "prod_789" "Broken Plan" [("plan_id", "broken"); ("features", "not-json")].

Definition gateway_down : Gateway :=
  {| products_list := Throw (GatewayError "connection refused");
     prices_list := Throw (GatewayError "connection refused") |}.

Definition gateway_empty : Gateway :=
  {| products_list := Ok []; prices_list := Ok [] |}.

Definition gateway_essential : Gateway :=
  {| products_list := Ok [essential];
     prices_list := Ok [string_price] |}.

Definition gateway_broken : Gateway :=
  {| products_list := Ok [essential; broken];
     prices_list := Ok [string_price] |}.

(** A first call at some time of day, and a call one minute later. *)
Definition first_call (g : Gateway) : Env :=
  {| now := 1700000000000; gateway := g; refreshed_at := 1700000000250 |}.

Definition next_call (g : Gateway) : Env :=
  {| now := 1700000060000; gateway := g; refreshed_at := 1700000060250 |}.

(** The plan of [essential], given its price variations. *)
Definition essential_plan (variations : gmap string PriceVariant) : Plan :=
  {| plan_product := "prod_123";
     plan_name := "Essential Plan";
     plan_description := None;
     planId := "essential";
     planType := "subscription";
     displayOrder := 1;
     features := [];
     plan_metadata := product_metadata essential;
     plan_prices := variations;
     plan_active := true |}.

Definition catalog_of_essential (variations : gmap string PriceVariant) : Catalog :=
  {| catalog_products := [essential_plan variations];
     catalog_prices :=
       {| JSObject.own := {[ "essential" := variations ]};
          JSObject.prototype := None |} |}.

Definition monthly_4900 : PriceVariant :=
  {| priceId := "price_1";
     unitAmount := 4900;
     variant_currency := "usd";
     variant_interval := Some "month";
     intervalCount := Some 1 |}.

(** The cache after a refresh at [first_call] that listed [essential] and
    its monthly price, and the state it is stored in. *)
Definition essential_cache : Cache :=
  {| products := [essential_plan {[ "monthly" := monthly_4900 ]}];
     prices :=
       {| JSObject.own := {[ "essential" := {[ "monthly" := monthly_4900 ]} ]};
          JSObject.prototype := None |};
     lastUpdated := Some 1700000000250;
     cacheExpiry := 300000 |}.

Definition essential_world : World :=
  {| productCatalogCache := essential_cache;
     gateway_calls := [ProductsList; PricesList] |}.

(** A call made after the TTL of [essential_cache] has run out. *)
Definition late_call (g : Gateway) : Env :=
  {| now := 1700000400000; gateway := g; refreshed_at := 1700000400250 |}.

Definition raised_price : RawPrice :=
  monthly_price "price_2" (RefId "prod_123") 5900.

Definition weekly_price : RawPrice :=
  {| price_id := "price_3";
     price_product := RefId "prod_123";
     price_active := true;
     unit_amount := 1500;
     currency := "usd";
     recurring := Some {| interval := "week"; interval_count := 1 |} |}.

Definition setup_fee : RawPrice :=
  {| price_id := "price_4";
     price_product := RefId "prod_123";
     price_active := true;
     unit_amount := 9900;
     currency := "usd";
     recurring := None |}.

(** The cache after a refresh for which the gateway listed nothing. *)
Definition empty_cache_at (t : Z) : Cache :=
  {| products := [];
     prices := JSObject.empty;
     lastUpdated := Some t;
     cacheExpiry := 300000 |}.

Definition empty_world_1 : World :=
  {| productCatalogCache := empty_cache_at 1700000000250;
     gateway_calls := [ProductsList; PricesList] |}.

Definition empty_world_2 : World :=
  {| productCatalogCache := empty_cache_at 1700000060250;
     gateway_calls := [ProductsList; PricesList; ProductsList; PricesList] |}.

End Sample.

(** ** The other endpoints of the catalog *)
Section CatalogEndpoints.
Context `{JSONParser} `{Builtins}.

(** The responses of [GET /products/:planId]. *)
Inductive PlanResponse : Type :=
  | PlanJson (product : Plan)
  | PlanNotFoundJson (status : Z) (error : string) (planId : string)
  | PlanFailedJson (status : Z) (error : string) (message : string).

(** [app.get('/products/:planId', ...)] *)
Definition get_product (plan : string) (env : Env) (w : World)
    : PlanResponse * World :=
  match getProductByPlanId plan env w with
  | (Ok (Some product), w') => (PlanJson product, w')
  | (Ok None, w') => (PlanNotFoundJson 404 "Product not found" plan, w')
  | (Throw error, w') =>
      (PlanFailedJson 500 "Failed to fetch product details" (error_message error), w')
  end.

(** The responses of [POST /refresh-catalog]. *)
Inductive RefreshResponse : Type :=
  | RefreshedJson (message : string) (productsCount pricesCount : nat)
      (lastUpdated : option Z)
  | RefreshFailedJson (status : Z) (error : string) (message : string).

(** [app.post('/refresh-catalog', ...)]; [Object.keys(catalog.prices).length]
    is the number of own properties of the lookup. *)
Definition refresh_catalog (env : Env) (w : World) : RefreshResponse * World :=
  match getProductCatalog true env w with
  | (Ok catalog, w') =>
      (RefreshedJson "Product catalog refreshed successfully"
         (length (products catalog)) (size (JSObject.own (prices catalog)))
         (lastUpdated catalog), w')
  | (Throw error, w') =>
      (RefreshFailedJson 500 "Failed to refresh product catalog"
         (error_message error), w')
  end.

(** [initializeProductCatalog]: the error of the refresh is logged and
    dropped. *)
Definition initializeProductCatalog (env : Env) (w : World) : Result unit * World :=
  match getProductCatalog true env w with
  | (Ok _, w') => (Ok tt, w')
  | (Throw _, w') => (Ok tt, w')
  end.

End CatalogEndpoints.

(** ** The organizer of the debug script and of [GET /debug-catalog] *)
Section DebugCatalog.

(** The body of [productPrices.forEach] in the debug code: a price that is
    not recurring is reported and not stored. *)
Definition debug_add_price (priceVariations : gmap string PriceVariant)
    (price : RawPrice) : gmap string PriceVariant :=
  match recurring price with
  | Some r =>
      <[intervalKey (interval r) :=
          {| priceId := price_id price;
             unitAmount := unit_amount price;
             variant_currency := currency price;
             variant_interval := Some (interval r);
             intervalCount := Some (interval_count r) |}]> priceVariations
  | None => priceVariations
  end.

Definition debug_priceVariations (product : RawProduct) (prices : list RawPrice)
    : gmap string PriceVariant :=
  fold_left debug_add_price (productPrices product prices) ∅.

(** One turn of [products.data.forEach]. *)
Definition debug_step (prices : list RawPrice) (organizedPrices : PriceLookup)
    (product : RawProduct) : PriceLookup :=
  JSObject.set organizedPrices (planId_of product)
    (debug_priceVariations product prices).

(** [organizedPrices], the [finalResult] of the endpoint. *)
Definition debug_organizedPrices (products : list RawProduct)
    (prices : list RawPrice) : PriceLookup :=
  fold_left (debug_step prices) products JSObject.empty.

End DebugCatalog.

(** ** Vocabulary of the further statements *)
Section MoreVocabulary.
Context `{JSONParser} `{Builtins}.

(** The requests that read or refresh the catalog. *)
Inductive Request : Type :=
  | GetProducts (refresh : option string)
  | GetProduct (planId : string)
  | RefreshCatalog
  | ValidatePrice (planId billingCycle : string)
  | Startup.

(** The state after a request is served. *)
Definition serve (request : Request) (env : Env) (w : World) : World :=
  match request with
  | GetProducts refresh => (get_products refresh env w).2
  | GetProduct plan => (get_product plan env w).2
  | RefreshCatalog => (refresh_catalog env w).2
  | ValidatePrice plan billingCycle => (validatePriceId plan billingCycle env w).2
  | Startup => (initializeProductCatalog env w).2
  end.

(** The state after a sequence of requests, each with its inputs. *)
Fixpoint run (requests : list (Request * Env)) (w : World) : World :=
  match requests with
  | [] => w
  | (request, env) :: rest => run rest (serve request env w)
  end.

(** What every stored cache satisfies: the read [prices[planId]] gives
    price variations for the identifier of every stored plan, the price
    variations it gives are those of a stored plan of that identifier, and
    [Object.keys(prices)] has at most as many elements as there are plans. *)
Definition cache_ok (cache : Cache) : Prop :=
  cacheExpiry cache = 300000
  /\ StronglySorted (fun a b => displayOrder a <= displayOrder b) (products cache)
  /\ (forall plan, plan ∈ products cache ->
        exists m, prices_get (prices cache) (planId plan) = Variations m)
  /\ (forall pid m, prices_get (prices cache) pid = Variations m ->
        exists plan, plan ∈ products cache /\ planId plan = pid
          /\ plan_prices plan = m)
  /\ (size (JSObject.own (prices cache)) <= length (products cache))%nat
  /\ (lastUpdated cache = None ->
        products cache = [] /\ prices cache = JSObject.empty).

(** Every character of [s] satisfies [p]. *)
Fixpoint string_forall (p : ascii -> bool) (s : string) : bool :=
  match s with
  | String c s' => p c && string_forall p s'
  | EmptyString => true
  end.

Definition is_upper (c : ascii) : bool :=
  let n := nat_of_ascii c in (65 <=? n)%nat && (n <=? 90)%nat.

End MoreVocabulary.

(** ** The request handlers outside the catalog

    The calls to the Stripe client and to the Supabase client are logged
    with their arguments; what each call answers is an input of the model,
    one input per call site.  Constant options of a call ([limit],
    [expand], [payment_behavior]) are not part of the log. *)

(** An error object: its [type] property, if any, and its [message]. *)
Record Exn : Type := {
  exn_type : option string;
  exn_message : string
}.

(** [new Error(message)] *)
Definition new_Error (message : string) : Exn :=
  {| exn_type := None; exn_message := message |}.

Inductive Outcome (A : Type) : Type :=
  | Return (a : A)
  | Raise (e : Exn).
Arguments Return {A} a.
Arguments Raise {A} e.

(** [Date.prototype.toISOString], for the time values it accepts. *)
Class DateFormat : Type := {
  toISOString : Z -> string
}.

(** A row, and the answer [{ data, error }] of a query. *)
Record PgError : Type := {
  pg_code : option string;
  pg_message : string
}.

Record QueryReply : Type := {
  reply_data : option (gmap string Value);
  reply_error : option PgError
}.

Record RowsReply : Type := {
  reply_rows : option (list (gmap string Value));
  rows_error : option PgError
}.

Record Customer : Type := {
  customer_id : string
}.

Record Subscription : Type := {
  subscription_id : string;
  subscription_customer : string;
  subscription_status : string;
  subscription_metadata : gmap string string;
  current_period_start : option Z;
  current_period_end : option Z;
  client_secret : option string;
  cancel_at_period_end : bool
}.

Record Invoice : Type := {
  invoice_id : string;
  invoice_subscription : option string
}.

Record PaymentIntent : Type := {
  payment_intent_id : string;
  payment_intent_client_secret : option string
}.

(** The external calls, with the arguments that vary. *)
Inductive Call : Type :=
  | CustomersList (email : string)
  | CustomersCreate (email : string) (metadata : list (string * string))
  | PaymentMethodsAttach (paymentMethodId customer : string)
  | CustomersUpdate (customer default_payment_method : string)
  | SubscriptionsCreate (customer price : string) (metadata : list (string * string))
  | SubscriptionsRetrieve (id : string)
  | SubscriptionsCancelAtPeriodEnd (id : string)
  | PaymentIntentsCreate (amount : Z) (currency customer : string)
      (metadata : list (string * string))
  | SelectBusinessId (user_id : string)
  | SelectPlanId (name : string)
  | SelectSubscriptionId (stripe_subscription_id : string)
  | UpdateSubscription (stripe_subscription_id : string) (record : list (string * Value))
  | InsertSubscription (record : list (string * Value))
  | UpsertProfile (record : list (string * Value))
  | UpdateProfile (user_id : string) (record : list (string * Value))
  | SelectProfileStatus (user_id : string)
  | SelectLatestSubscription (user_id : string).

(** The configuration read from the environment: whether the Supabase
    client exists, and [STRIPE_WEBHOOK_SECRET]. *)
Record Config : Type := {
  supabase : bool;
  endpointSecret : option string
}.

(** The state of the server and the log of its external calls. *)
Record Sys `{JSONParser} : Type := {
  sys_world : World;
  sys_calls : list Call
}.

Section Handlers.
Context `{JSONParser} `{DateFormat}.

(** Computations that read and change the state and may throw. *)
Definition M (A : Type) : Type := Sys -> Outcome A * Sys.

#[global] Instance M_ret : MRet M := fun A a s => (Return a, s).
#[global] Instance M_bind : MBind M := fun A B k m s =>
  match m s with
  | (Return a, s') => k a s'
  | (Raise e, s') => (Raise e, s')
  end.

Definition raise {A} (e : Exn) : M A := fun s => (Raise e, s).

(** [try { m } catch (error) { handler error }] *)
Definition try_catch {A} (m : M A) (handler : Exn -> M A) : M A := fun s =>
  match m s with
  | (Return a, s') => (Return a, s')
  | (Raise e, s') => handler e s'
  end.

(** An awaited call: it is logged, and answers what the input says. *)
Definition await {A} (c : Call) (answer : Outcome A) : M A := fun s =>
  (answer, {| sys_world := sys_world s; sys_calls := sys_calls s ++ [c] |}).

Definition lift {A} (o : Outcome A) : M A := fun s => (o, s).

(** The inputs of one read of the catalog: those of the catalog model, and
    the [type] property of the error of the gateway, if it rejects. *)
Record CatalogInput : Type := {
  catalog_env : Env;
  rejected_type : option string
}.

Definition exn_of_error (type : option string) (e : Error) : Exn :=
  match e with
  | GatewayError m => {| exn_type := type; exn_message := m |}
  | SyntaxError m => {| exn_type := None; exn_message := m |}
  | TypeError m => {| exn_type := None; exn_message := m |}
  end.

(** A method of [ProductCatalogService] run on the state of the server. *)
Definition catalog {A} (input : CatalogInput)
    (method : Env -> World -> Result A * World) : M A := fun s =>
  match method (catalog_env input) (sys_world s) with
  | (Ok a, w') => (Return a, {| sys_world := w'; sys_calls := sys_calls s |})
  | (Throw e, w') =>
      (Raise (exn_of_error (rejected_type input) e),
       {| sys_world := w'; sys_calls := sys_calls s |})
  end.

(** [new Date(seconds * 1000).toISOString()]; the time value is [NaN] when
    the field is [undefined], and a [RangeError] is thrown for [NaN] and
    beyond 8.64e15 ms. *)
Definition iso_of_seconds (seconds : option Z) : Outcome string :=
  match seconds with
  | Some t =>
      if Z.abs (t * 1000) <=? 8640000000000000
      then Return (toISOString (t * 1000))
      else Raise (new_Error "Invalid time value")
  | None => Raise (new_Error "Invalid time value")
  end.

(** *** Customers *)

Record CustomerEnv : Type := {
  customers_list : Outcome (list Customer);
  customers_create : Outcome Customer
}.

Definition createOrRetrieveCustomer (env : CustomerEnv) (email : string)
    (userId : option string) : M Customer :=
  try_catch
    (existingCustomers ← await (CustomersList email) (customers_list env);
     match existingCustomers with
     | customer :: _ => mret customer
     | [] =>
         let metadata :=
           match JS.truthy_string userId with
           | Some u => [("userId", u)]
           | None => []
           end in
         await (CustomersCreate email metadata) (customers_create env)
     end)
    (fun error =>
       raise (new_Error ("Failed to create or retrieve customer: "
                         +:+ exn_message error))).

(** *** The Supabase helpers *)

Record UpsertEnv : Type := {
  upsert_reply : Outcome (option PgError);
  upsert_stamp : string
}.

Definition updateSupabaseProfile (config : Config) (env : UpsertEnv)
    (userId : string) (updates : list (string * Value)) : M unit :=
  if negb (supabase config) then mret tt
  else
    error ← await
      (UpsertProfile (("user_id", VString userId) :: updates
                      ++ [("updated_at", VString (upsert_stamp env))]))
      (upsert_reply env);
    match error with
    | Some e => raise (new_Error ("Supabase update failed: " +:+ pg_message e))
    | None => mret tt
    end.

(** [subscriptionData] *)
Record SubscriptionData : Type := {
  data_subscriptionId : string;
  data_customerId : string;
  data_status : string;
  data_planName : string;
  data_billingCycle : string;
  data_currentPeriodStart : option string;
  data_currentPeriodEnd : option string;
  data_nextBillingDate : option string
}.

Record SubscriptionWriteEnv : Type := {
  profile_reply : Outcome QueryReply;
  plan_reply : Outcome QueryReply;
  existing_reply : Outcome QueryReply;
  write_reply : Outcome RowsReply;
  start_stamp : string;
  period_stamp : string;
  updated_stamp : string
}.

(** [error && error.code !== 'PGRST116'] *)
Definition is_failure (error : option PgError) : option PgError :=
  match error with
  | Some e => if bool_decide (pg_code e = Some "PGRST116") then None else Some e
  | None => None
  end.

Definition subscriptionRecord (env : SubscriptionWriteEnv) (userId : string)
    (data : SubscriptionData) (businessProfile plan : option (gmap string Value))
    : list (string * Value) :=
  [("business_id", JSValue.or (JSValue.field businessProfile "business_id") VNull);
   ("plan_id", JSValue.or (JSValue.field plan "plan_id") VNull);
   ("user_id", VString userId);
   ("status", VString (data_status data));
   ("billing_cycle", VString (data_billingCycle data));
   ("stripe_subscription_id", VString (data_subscriptionId data));
   ("stripe_customer_id", VString (data_customerId data));
   ("start_date", VString (start_stamp env));
   ("next_billing_date", JSValue.string_or_null (data_nextBillingDate data));
   ("current_period_start",
    VString (JS.string_or (data_currentPeriodStart data) (period_stamp env)));
   ("current_period_end", JSValue.string_or_null (data_currentPeriodEnd data));
   ("updated_at", VString (updated_stamp env))].

(** [undefined] is [None]. *)
Definition createOrUpdateBusinessSubscription (config : Config)
    (env : SubscriptionWriteEnv) (userId : string) (data : SubscriptionData)
    : M (option (gmap string Value)) :=
  if negb (supabase config) then mret None
  else
    try_catch
      (profile ← await (SelectBusinessId userId) (profile_reply env);
       match is_failure (reply_error profile) with
       | Some e =>
           raise (new_Error ("Failed to get business profile: " +:+ pg_message e))
       | None =>
           plan ← await (SelectPlanId (data_planName data)) (plan_reply env);
           let record :=
             subscriptionRecord env userId data (reply_data profile)
               (reply_data plan) in
           existing ← await (SelectSubscriptionId (data_subscriptionId data))
                        (existing_reply env);
           match is_failure (reply_error existing) with
           | Some e =>
               raise (new_Error ("Failed to check existing subscription: "
                                 +:+ pg_message e))
           | None =>
               result ← await
                 (match reply_data existing with
                  | Some _ => UpdateSubscription (data_subscriptionId data) record
                  | None => InsertSubscription record
                  end)
                 (write_reply env);
               match rows_error result with
               | Some e =>
                   raise (new_Error ("Failed to create/update subscription: "
                                     +:+ pg_message e))
               | None =>
                   match reply_rows result with
                   | Some rows => mret (head rows)
                   | None =>
                       raise (new_Error
                                "Cannot read properties of null (reading '0')")
                   end
               end
           end
       end)
      (fun error => raise error).

Record ActivateEnv : Type := {
  activate_reply : Outcome RowsReply;
  activate_stamp : string
}.

(** [null] and [undefined] are [None]. *)
Definition activateBusinessProfile (config : Config) (env : ActivateEnv)
    (userId customerId : string) : M (option (gmap string Value)) :=
  if negb (supabase config) then mret None
  else
    try_catch
      (result ← await
         (UpdateProfile userId
            [("business_status", VString "Active");
             ("is_active", VBool true);
             ("stripe_customer_id", VString customerId);
             ("updated_at", VString (activate_stamp env))])
         (activate_reply env);
       match rows_error result with
       | Some e =>
           raise (new_Error ("Failed to activate business profile: "
                             +:+ pg_message e))
       | None =>
           match reply_rows result with
           | Some (row :: _) => mret (Some row)
           | _ => mret None
           end
       end)
      (fun error => raise error).

End Handlers.

Section Endpoints.
Context `{JSONParser} `{DateFormat} `{Builtins}.

(** *** [POST /create-subscription] *)

(** The fields of [req.body] that the handler reads. *)
Record SubscriptionRequest : Type := {
  req_email : string;
  req_paymentMethodId : string;
  req_priceId : string;
  req_userId : option string;
  req_planId : string;
  req_planName : string;
  req_billingCycle : string
}.

(** The inputs of one request: the errors found by the validators, and the
    answer at each call site. *)
Record CreateSubscriptionEnv : Type := {
  cs_validation : list string;
  cs_catalog : CatalogInput;
  cs_catalog_again : CatalogInput;
  cs_customer : CustomerEnv;
  cs_attach : Outcome unit;
  cs_update : Outcome unit;
  cs_subscription : Outcome Subscription;
  cs_profile : UpsertEnv
}.

(** The key set stands for [Object.keys], whose order is not modelled. *)
Inductive SubscriptionResponse : Type :=
  | InvalidInputJson (status : Z) (error : string) (details : list string)
  | InvalidPriceJson (status : Z) (error : string) (availablePlans : gset string)
  | SubscriptionJson (subscriptionId customerId status : string)
      (clientSecret : option string) (planId planName billingCycle : string)
      (requiresAction : bool)
  | SubscriptionFailedJson (status : Z) (error : string) (type : string).

(** The message chosen in the [catch] block. *)
Definition subscription_error_message (error : Exn) : string :=
  if bool_decide (exn_type error = Some "StripeCardError") then exn_message error
  else if bool_decide (exn_type error = Some "StripeInvalidRequestError")
  then "Invalid payment information provided"
  else if JSValue.includes (exn_message error) "customer"
  then "Failed to process customer information"
  else "Failed to create subscription".

(** [!validPriceId || validPriceId !== priceId] *)
Definition price_rejected (validPriceId : Value) (priceId : string) : bool :=
  negb (JSValue.truthy validPriceId)
  || negb (bool_decide (validPriceId = VString priceId)).

Definition subscription_metadata_of (request : SubscriptionRequest) (source : string)
    : list (string * string) :=
  [("userId", JS.string_or (req_userId request) "");
   ("planId", req_planId request);
   ("planName", req_planName request);
   ("billingCycle", req_billingCycle request);
   ("source", source)].

Definition create_subscription (config : Config) (env : CreateSubscriptionEnv)
    (request : SubscriptionRequest) : M SubscriptionResponse :=
  try_catch
    (match cs_validation env with
     | _ :: _ => mret (InvalidInputJson 400 "Invalid input data" (cs_validation env))
     | [] =>
         validPriceId ← catalog (cs_catalog env)
           (validatePriceId (req_planId request) (req_billingCycle request));
         if price_rejected validPriceId (req_priceId request)
         then
           snapshot ← catalog (cs_catalog_again env) (getProductCatalog false);
           mret (InvalidPriceJson 400 "Invalid price ID for the selected plan"
                   (dom (JSObject.own (prices snapshot))))
         else
           customer ← createOrRetrieveCustomer (cs_customer env)
             (req_email request) (req_userId request);
           _ ← await (PaymentMethodsAttach (req_paymentMethodId request)
                        (customer_id customer)) (cs_attach env);
           _ ← await (CustomersUpdate (customer_id customer)
                        (req_paymentMethodId request)) (cs_update env);
           subscription ← await
             (SubscriptionsCreate (customer_id customer) (req_priceId request)
                (subscription_metadata_of request "mobile_app"))
             (cs_subscription env);
           _ ← match JS.truthy_string (req_userId request) with
               | Some userId =>
                   if supabase config
                   then try_catch
                          (updateSupabaseProfile config (cs_profile env) userId
                             [("stripe_customer_id", VString (customer_id customer));
                              ("subscription_id",
                               VString (subscription_id subscription));
                              ("subscription_status",
                               VString (subscription_status subscription));
                              ("plan_id", VString (req_planId request));
                              ("plan_name", VString (req_planName request));
                              ("billing_cycle", VString (req_billingCycle request))])
                          (fun _ => mret tt)
                   else mret tt
               | None => mret tt
               end;
           mret (SubscriptionJson (subscription_id subscription)
                   (customer_id customer) (subscription_status subscription)
                   (client_secret subscription) (req_planId request)
                   (req_planName request) (req_billingCycle request)
                   (bool_decide (subscription_status subscription = "incomplete")))
     end)
    (fun error =>
       mret (SubscriptionFailedJson 500 (subscription_error_message error)
               (JS.string_or (exn_type error) "server_error"))).

(** *** [POST /create-payment-intent] *)

Record PaymentIntentRequest : Type := {
  pi_amount : Z;
  pi_currency : string;
  pi_email : string;
  pi_userId : option string;
  pi_planId : string;
  pi_planName : string;
  pi_billingCycle : string
}.

Record PaymentIntentEnv : Type := {
  pi_validation : list string;
  pi_customer : CustomerEnv;
  pi_intent : Outcome PaymentIntent
}.

Inductive PaymentIntentResponse : Type :=
  | IntentInvalidInputJson (status : Z) (error : string) (details : list string)
  | IntentJson (clientSecret : option string) (customerId paymentIntentId : string)
  | IntentFailedJson (status : Z) (error : string) (type : string).

Definition create_payment_intent (env : PaymentIntentEnv)
    (request : PaymentIntentRequest) : M PaymentIntentResponse :=
  try_catch
    (match pi_validation env with
     | _ :: _ =>
         mret (IntentInvalidInputJson 400 "Invalid input data" (pi_validation env))
     | [] =>
         customer ← createOrRetrieveCustomer (pi_customer env)
           (pi_email request) (pi_userId request);
         paymentIntent ← await
           (PaymentIntentsCreate (pi_amount request) (pi_currency request)
              (customer_id customer)
              [("userId", JS.string_or (pi_userId request) "");
               ("planId", pi_planId request);
               ("planName", pi_planName request);
               ("billingCycle", pi_billingCycle request);
               ("source", "mobile_app_platform_pay")])
           (pi_intent env);
         mret (IntentJson (payment_intent_client_secret paymentIntent)
                 (customer_id customer) (payment_intent_id paymentIntent))
     end)
    (fun error =>
       mret (IntentFailedJson 500 "Failed to create payment intent"
               (JS.string_or (exn_type error) "server_error"))).

(** *** [POST /cancel-subscription] *)

Record CancelEnv : Type := {
  cancel_validation : list string;
  cancel_update : Outcome Subscription;
  cancel_profile : UpsertEnv
}.

Inductive CancelResponse : Type :=
  | CancelInvalidInputJson (status : Z) (error : string) (details : list string)
  | CancelJson (subscriptionId status : string) (cancelAtPeriodEnd : bool)
      (currentPeriodEnd : option Z)
  | CancelFailedJson (status : Z) (error : string) (type : string).

Definition cancel_subscription (config : Config) (env : CancelEnv)
    (subscriptionId : string) (userId : option string) : M CancelResponse :=
  try_catch
    (match cancel_validation env with
     | _ :: _ =>
         mret (CancelInvalidInputJson 400 "Invalid input data" (cancel_validation env))
     | [] =>
         subscription ← await (SubscriptionsCancelAtPeriodEnd subscriptionId)
                          (cancel_update env);
         _ ← match JS.truthy_string userId with
             | Some user =>
                 if supabase config
                 then try_catch
                        (updateSupabaseProfile config (cancel_profile env) user
                           [("subscription_status", VString "canceled")])
                        (fun _ => mret tt)
                 else mret tt
             | None => mret tt
             end;
         mret (CancelJson (subscription_id subscription)
                 (subscription_status subscription)
                 (cancel_at_period_end subscription)
                 (current_period_end subscription))
     end)
    (fun error =>
       mret (CancelFailedJson 500 "Failed to cancel subscription"
               (JS.string_or (exn_type error) "server_error"))).

(** *** The webhook *)

(** The inputs of the handling of one event. *)
Record WebhookEnv : Type := {
  wh_retrieve : Outcome Subscription;
  wh_write : SubscriptionWriteEnv;
  wh_upsert : UpsertEnv;
  wh_activate : ActivateEnv;
  wh_catalog : CatalogInput
}.

(** [subscriptionData] of the handlers, with the three dates or without. *)
Definition subscription_data (subscription : Subscription) (status : string)
    (dates : option (string * string * string)) : SubscriptionData :=
  {| data_subscriptionId := subscription_id subscription;
     data_customerId := subscription_customer subscription;
     data_status := status;
     data_planName :=
       JS.string_or (subscription_metadata subscription !! "planName") "Unknown Plan";
     data_billingCycle :=
       JS.string_or (subscription_metadata subscription !! "billingCycle") "monthly";
     data_currentPeriodStart := (fun d => d.1.1) <$> dates;
     data_currentPeriodEnd := (fun d => d.1.2) <$> dates;
     data_nextBillingDate := (fun d => d.2) <$> dates |}.

(** The three dates of [subscriptionData], in the order of evaluation. *)
Definition period_dates (subscription : Subscription) : M (string * string * string) :=
  currentPeriodStart ← lift (iso_of_seconds (current_period_start subscription));
  currentPeriodEnd ← lift (iso_of_seconds (current_period_end subscription));
  nextBillingDate ← lift (iso_of_seconds (current_period_end subscription));
  mret (currentPeriodStart, currentPeriodEnd, nextBillingDate).

(** [supabase && v], for [v] a string or [undefined]. *)
Definition configured_and (config : Config) (v : option string) : option string :=
  if supabase config then JS.truthy_string v else None.

Definition handleSubscriptionCreated (config : Config) (env : WebhookEnv)
    (subscription : Subscription) : M unit :=
  match configured_and config (subscription_metadata subscription !! "userId") with
  | Some userId =>
      try_catch
        (dates ← period_dates subscription;
         _ ← createOrUpdateBusinessSubscription config (wh_write env) userId
               (subscription_data subscription (subscription_status subscription)
                  (Some dates));
         updateSupabaseProfile config (wh_upsert env) userId
           [("subscription_status", VString (subscription_status subscription));
            ("subscription_id", VString (subscription_id subscription));
            ("stripe_customer_id", VString (subscription_customer subscription))])
        (fun _ => mret tt)
  | None => mret tt
  end.

Definition handleSubscriptionUpdated (config : Config) (env : WebhookEnv)
    (subscription : Subscription) : M unit :=
  match configured_and config (subscription_metadata subscription !! "userId") with
  | Some userId =>
      try_catch
        (dates ← period_dates subscription;
         _ ← createOrUpdateBusinessSubscription config (wh_write env) userId
               (subscription_data subscription (subscription_status subscription)
                  (Some dates));
         updateSupabaseProfile config (wh_upsert env) userId
           [("subscription_status", VString (subscription_status subscription))])
        (fun _ => mret tt)
  | None => mret tt
  end.

Definition handleSubscriptionDeleted (config : Config) (env : WebhookEnv)
    (subscription : Subscription) : M unit :=
  match configured_and config (subscription_metadata subscription !! "userId") with
  | Some userId =>
      try_catch
        (_ ← createOrUpdateBusinessSubscription config (wh_write env) userId
               (subscription_data subscription "canceled" None);
         updateSupabaseProfile config (wh_upsert env) userId
           [("subscription_status", VString "canceled");
            ("subscription_id", VNull);
            ("business_status", VString "Not Active");
            ("is_active", VBool false)])
        (fun _ => mret tt)
  | None => mret tt
  end.

Definition handlePaymentSucceeded (config : Config) (env : WebhookEnv)
    (invoice : Invoice) : M unit :=
  match configured_and config (invoice_subscription invoice) with
  | Some id =>
      try_catch
        (subscription ← await (SubscriptionsRetrieve id) (wh_retrieve env);
         match JS.truthy_string (subscription_metadata subscription !! "userId") with
         | Some userId =>
             dates ← period_dates subscription;
             _ ← createOrUpdateBusinessSubscription config (wh_write env) userId
                   (subscription_data subscription "active" (Some dates));
             _ ← activateBusinessProfile config (wh_activate env) userId
                   (subscription_customer subscription);
             mret tt
         | None => mret tt
         end)
        (fun _ => mret tt)
  | None => mret tt
  end.

Definition handlePaymentFailed (config : Config) (env : WebhookEnv)
    (invoice : Invoice) : M unit :=
  match configured_and config (invoice_subscription invoice) with
  | Some id =>
      try_catch
        (subscription ← await (SubscriptionsRetrieve id) (wh_retrieve env);
         match JS.truthy_string (subscription_metadata subscription !! "userId") with
         | Some userId =>
             _ ← createOrUpdateBusinessSubscription config (wh_write env) userId
                   (subscription_data subscription "past_due" None);
             updateSupabaseProfile config (wh_upsert env) userId
               [("subscription_status", VString "past_due");
                ("business_status", VString "Not Active");
                ("is_active", VBool false)]
         | None => mret tt
         end)
        (fun _ => mret tt)
  | None => mret tt
  end.

(** An event that Stripe signs: the object of an event of one of the five
    handled types is the subscription or the invoice of that type;
    [OtherEvent] stands for the events of every other type. *)
Inductive Event : Type :=
  | CustomerSubscriptionCreated (subscription : Subscription)
  | CustomerSubscriptionUpdated (subscription : Subscription)
  | CustomerSubscriptionDeleted (subscription : Subscription)
  | InvoicePaymentSucceeded (invoice : Invoice)
  | InvoicePaymentFailed (invoice : Invoice)
  | OtherEvent (type : string).

Definition event_type (event : Event) : string :=
  match event with
  | CustomerSubscriptionCreated _ => "customer.subscription.created"
  | CustomerSubscriptionUpdated _ => "customer.subscription.updated"
  | CustomerSubscriptionDeleted _ => "customer.subscription.deleted"
  | InvoicePaymentSucceeded _ => "invoice.payment_succeeded"
  | InvoicePaymentFailed _ => "invoice.payment_failed"
  | OtherEvent type => type
  end.

(** The [case] labels of the catalog branch. *)
Definition catalog_event (type : string) : bool :=
  bool_decide (type ∈ ["product.created"; "product.updated"; "product.deleted";
                       "price.created"; "price.updated"; "price.deleted"]).

Definition handleWebhookEvent (config : Config) (env : WebhookEnv) (event : Event)
    : M unit :=
  match event with
  | CustomerSubscriptionCreated subscription =>
      handleSubscriptionCreated config env subscription
  | CustomerSubscriptionUpdated subscription =>
      handleSubscriptionUpdated config env subscription
  | CustomerSubscriptionDeleted subscription =>
      handleSubscriptionDeleted config env subscription
  | InvoicePaymentSucceeded invoice => handlePaymentSucceeded config env invoice
  | InvoicePaymentFailed invoice => handlePaymentFailed config env invoice
  | OtherEvent type =>
      if catalog_event type
      then try_catch
             (_ ← catalog (wh_catalog env) (getProductCatalog true); mret tt)
             (fun _ => mret tt)
      else mret tt
  end.

Inductive WebhookResponse : Type :=
  | WebhookText (status : Z) (text : string)
  | WebhookReceivedJson
  | WebhookFailedJson (status : Z) (error : string).

(** [app.post('/webhook', ...)]; [constructed] is what
    [stripe.webhooks.constructEvent] returns or throws for the body and the
    signature of the request. *)
Definition webhook (config : Config) (env : WebhookEnv) (constructed : Outcome Event)
    : M WebhookResponse :=
  match JS.truthy_string (endpointSecret config) with
  | None => mret (WebhookText 400 "Webhook endpoint secret not configured")
  | Some _ =>
      match constructed with
      | Raise err => mret (WebhookText 400 ("Webhook Error: " +:+ exn_message err))
      | Return event =>
          try_catch
            (_ ← handleWebhookEvent config env event; mret WebhookReceivedJson)
            (fun _ => mret (WebhookFailedJson 500 "Webhook handler failed"))
      end
  end.

(** *** [GET /payment-status/:userId] *)

Record StatusEnv : Type := {
  status_profile : Outcome QueryReply;
  status_subscription : Outcome QueryReply
}.

Record ProfileSummary : Type := {
  businessStatus : Value;
  summary_isActive : Value;
  hasStripeCustomer : bool
}.

Record SubscriptionSummary : Type := {
  summary_status : Value;
  stripeSubscriptionId : Value;
  summary_planId : Value;
  summary_billingCycle : Value;
  startDate : Value
}.

Inductive StatusResponse : Type :=
  | StatusJson (status message : string) (isActive : Value)
      (businessProfile : option ProfileSummary)
      (subscription : option SubscriptionSummary)
  | StatusErrorJson (code : Z) (error message : string)
  | StatusFailedJson (code : Z) (status message error : string).

(** The block "Determine overall status": [status], [message], [isActive]. *)
Definition overall_status (subscription businessProfile : option (gmap string Value))
    : string * string * Value :=
  match subscription, businessProfile with
  | Some sub, Some profile =>
      let isActive :=
        JSValue.and (JSValue.field (Some profile) "is_active")
          (VBool (bool_decide
                    (JSValue.field (Some profile) "business_status" = VString "Active"))) in
      let status := JSValue.field (Some sub) "status" in
      if bool_decide (status = VString "active") && JSValue.truthy isActive
      then ("success",
            "🎉 Payment successful! Your business profile has been activated and is ready to use.",
            isActive)
      else if bool_decide (status = VString "incomplete")
      then ("pending",
            "⏳ Payment is being processed. Please wait for confirmation.",
            isActive)
      else if bool_decide (status = VString "past_due")
      then ("error",
            "❌ Payment failed. Your business profile has been deactivated. Please update your payment method.",
            isActive)
      else if bool_decide (status = VString "canceled")
      then ("canceled",
            "⚠️ Subscription has been canceled. Your business profile is inactive.",
            isActive)
      else ("error",
            "❌ Subscription status: " +:+ JSValue.to_string status
            +:+ ". Business profile status: "
            +:+ JSValue.to_string (JSValue.field (Some profile) "business_status"),
            isActive)
  | _, None =>
      ("no_profile",
       "⚠️ No business profile found. Please create a business profile first.",
       VBool false)
  | None, Some _ => ("no_subscription", "No subscription found", VBool false)
  end.

Definition payment_status (config : Config) (env : StatusEnv) (userId : string)
    : M StatusResponse :=
  try_catch
    (if negb (supabase config)
     then mret (StatusErrorJson 500 "Database not configured"
                  "Supabase integration is not available")
     else
       profile ← await (SelectProfileStatus userId) (status_profile env);
       match is_failure (reply_error profile) with
       | Some e =>
           mret (StatusErrorJson 500 "Failed to get business profile" (pg_message e))
       | None =>
           subscription ← await (SelectLatestSubscription userId)
                            (status_subscription env);
           match is_failure (reply_error subscription) with
           | Some e =>
               mret (StatusErrorJson 500 "Failed to get subscription" (pg_message e))
           | None =>
               let '(status, message, isActive) :=
                 overall_status (reply_data subscription) (reply_data profile) in
               mret (StatusJson status message isActive
                       ((fun row =>
                           {| businessStatus := JSValue.field (Some row) "business_status";
                              summary_isActive := JSValue.field (Some row) "is_active";
                              hasStripeCustomer :=
                                JSValue.truthy
                                  (JSValue.field (Some row) "stripe_customer_id") |})
                          <$> reply_data profile)
                       ((fun row =>
                           {| summary_status := JSValue.field (Some row) "status";
                              stripeSubscriptionId :=
                                JSValue.field (Some row) "stripe_subscription_id";
                              summary_planId := JSValue.field (Some row) "plan_id";
                              summary_billingCycle :=
                                JSValue.field (Some row) "billing_cycle";
                              startDate := JSValue.field (Some row) "start_date" |})
                          <$> reply_data subscription))
           end
       end)
    (fun error =>
       mret (StatusFailedJson 500 "error"
               "❌ Failed to check payment status. Please try again."
               (exn_message error))).

End Endpoints.

(** ** Vocabulary of the statements on the handlers *)
Section HandlerVocabulary.
Context `{JSONParser} `{Builtins}.

(** The calls that [m] adds to the log all satisfy [P]. *)
Definition logs_only {A} (P : Call -> Prop) (m : M A) : Prop :=
  forall s, exists new,
    sys_calls (m s).2 = sys_calls s ++ new /\ Forall P new.

(** [m] leaves the catalog and its gateway log as they are. *)
Definition keeps_world {A} (m : M A) : Prop :=
  forall s, sys_world (m s).2 = sys_world s.

(** [m] returns and does not throw. *)
Definition never_raises {A} (m : M A) : Prop :=
  forall s, exists a, (m s).1 = Return a.

(** The calls that write to the database. *)
Definition is_subscription_call (c : Call) : Prop :=
  match c with
  | SelectBusinessId _ | SelectPlanId _ | SelectSubscriptionId _
  | UpdateSubscription _ _ | InsertSubscription _ => True
  | _ => False
  end.

Definition is_subscription_write (c : Call) : Prop :=
  match c with
  | UpdateSubscription _ _ | InsertSubscription _ => True
  | _ => False
  end.

Definition is_profile_update (c : Call) : Prop :=
  match c with
  | UpdateProfile _ _ => True
  | _ => False
  end.

Definition is_profile_upsert (c : Call) : Prop :=
  match c with
  | UpsertProfile _ => True
  | _ => False
  end.

(** A call that does not write [is_active: false] to a profile. *)
Definition keeps_active (c : Call) : Prop :=
  match c with
  | UpsertProfile record => ("is_active", VBool false) ∉ record
  | _ => True
  end.

Definition is_subscription_create (c : Call) : Prop :=
  match c with
  | SubscriptionsCreate _ _ _ => True
  | _ => False
  end.

Definition is_customer_create (c : Call) : Prop :=
  match c with
  | CustomersCreate _ _ => True
  | _ => False
  end.

(** [env] with another answer of the database to the profile write. *)
Definition with_cs_profile (env : CreateSubscriptionEnv) (profile : UpsertEnv)
    : CreateSubscriptionEnv :=
  {| cs_validation := cs_validation env;
     cs_catalog := cs_catalog env;
     cs_catalog_again := cs_catalog_again env;
     cs_customer := cs_customer env;
     cs_attach := cs_attach env;
     cs_update := cs_update env;
     cs_subscription := cs_subscription env;
     cs_profile := profile |}.

Definition with_cancel_profile (env : CancelEnv) (profile : UpsertEnv) : CancelEnv :=
  {| cancel_validation := cancel_validation env;
     cancel_update := cancel_update env;
     cancel_profile := profile |}.

(** The state of the server before any request. *)
Definition initial_sys : Sys :=
  {| sys_world := initial_world; sys_calls := [] |}.

End HandlerVocabulary.

(** ** Sample data for the handlers

    A stand-in for [toISOString] that prints the time value, and the
    answers of Stripe and of the database in a few scenarios. *)
Module HandlerSample.

#[local] Existing Instance Sample.parser.
#[local] Existing Instance Sample.engine.

#[local] Instance dates : DateFormat := {|
  toISOString := fun ms => "T" +:+ NilZero.string_of_int (Z.to_int ms)
|}.

Definition config_on : Config :=
  {| supabase := true; endpointSecret := Some "whsec_test" |}.

Definition config_off : Config :=
  {| supabase := false; endpointSecret := None |}.

(** The server after the refresh of [Sample.essential_world]. *)
Definition essential_sys : Sys :=
  {| sys_world := Sample.essential_world; sys_calls := [] |}.

(** A read one minute after that refresh, with the gateway down. *)
Definition read_input : CatalogInput :=
  {| catalog_env := Sample.next_call Sample.gateway_down;
     rejected_type := Some "StripeConnectionError" |}.

(** A read after the TTL, answered by the gateway. *)
Definition late_input : CatalogInput :=
  {| catalog_env := Sample.late_call Sample.gateway_essential;
     rejected_type := None |}.

Definition twin : RawProduct :=
  Sample.product "prod_999" "Essential Twin" [("plan_id", "essential")].

Definition plain : RawProduct :=
  Sample.product "prod_321" "Pro  Enterprise Plan" [].

(** A product whose plan identifier is the name of the accessor. *)
Definition hidden : RawProduct :=
  Sample.product "prod_666" "Hidden Plan" [("plan_id", "__proto__")].

Definition card_declined : Exn :=
  {| exn_type := Some "StripeCardError"; exn_message := "Your card was declined." |}.

Definition customer_found : CustomerEnv :=
  {| customers_list := Return [{| customer_id := "cus_1" |}];
     customers_create := Raise card_declined |}.

Definition customer_new : CustomerEnv :=
  {| customers_list := Return [];
     customers_create := Return {| customer_id := "cus_2" |} |}.

Definition customer_failing : CustomerEnv :=
  {| customers_list := Raise card_declined;
     customers_create := Raise card_declined |}.

Definition subscription_1 : Subscription :=
  {| subscription_id := "sub_1";
     subscription_customer := "cus_1";
     subscription_status := "incomplete";
     subscription_metadata :=
       list_to_map [("userId", "user_1"); ("planName", "Essential Plan");
                    ("billingCycle", "monthly")];
     current_period_start := Some 1700000000;
     current_period_end := Some 1702592000;
     client_secret := Some "pi_1_secret";
     cancel_at_period_end := false |}.

Definition invoice_1 : Invoice :=
  {| invoice_id := "in_1"; invoice_subscription := Some "sub_1" |}.

Definition no_rows : PgError :=
  {| pg_code := Some "PGRST116"; pg_message := "no rows returned" |}.

Definition timeout : PgError :=
  {| pg_code := Some "57014"; pg_message := "statement timeout" |}.

Definition upsert_ok : UpsertEnv :=
  {| upsert_reply := Return None; upsert_stamp := "T1700000000500" |}.

Definition upsert_failing : UpsertEnv :=
  {| upsert_reply := Return (Some timeout); upsert_stamp := "T1700000000500" |}.

Definition request_essential : SubscriptionRequest :=
  {| req_email := "owner@example.com";
     req_paymentMethodId := "pm_1";
     req_priceId := "price_1";
     req_userId := Some "user_1";
     req_planId := "essential";
     req_planName := "Essential Plan";
     req_billingCycle := "monthly" |}.

Definition request_wrong_price : SubscriptionRequest :=
  {| req_email := "owner@example.com";
     req_paymentMethodId := "pm_1";
     req_priceId := "price_cheap";
     req_userId := Some "user_1";
     req_planId := "essential";
     req_planName := "Essential Plan";
     req_billingCycle := "monthly" |}.

Definition subscription_env (customer : CustomerEnv) (profile : UpsertEnv)
    : CreateSubscriptionEnv :=
  {| cs_validation := [];
     cs_catalog := read_input;
     cs_catalog_again := read_input;
     cs_customer := customer;
     cs_attach := Return tt;
     cs_update := Return tt;
     cs_subscription := Return subscription_1;
     cs_profile := profile |}.

(** The database holds the profile of the user, no plan of that name and
    no row for the subscription. *)
Definition write_new : SubscriptionWriteEnv :=
  {| profile_reply :=
       Return {| reply_data := Some {[ "business_id" := VString "biz_1" ]};
                 reply_error := None |};
     plan_reply := Return {| reply_data := None; reply_error := Some no_rows |};
     existing_reply := Return {| reply_data := None; reply_error := Some no_rows |};
     write_reply :=
       Return {| reply_rows := Some [{[ "subscription_id" := VNumber 7 ]}];
                 rows_error := None |};
     start_stamp := "T1700000000501";
     period_stamp := "T1700000000502";
     updated_stamp := "T1700000000503" |}.

Definition activate_ok : ActivateEnv :=
  {| activate_reply :=
       Return {| reply_rows := Some [{[ "user_id" := VString "user_1" ]}];
                 rows_error := None |};
     activate_stamp := "T1700000000504" |}.

Definition webhook_env : WebhookEnv :=
  {| wh_retrieve := Return subscription_1;
     wh_write := write_new;
     wh_upsert := upsert_ok;
     wh_activate := activate_ok;
     wh_catalog := late_input |}.

Definition activation_record : list (string * Value) :=
  [("business_status", VString "Active");
   ("is_active", VBool true);
   ("stripe_customer_id", VString "cus_1");
   ("updated_at", VString "T1700000000504")].

Definition active_subscription_row : gmap string Value :=
  list_to_map [("status", VString "active");
               ("stripe_subscription_id", VString "sub_1")].

Definition active_profile_row : gmap string Value :=
  list_to_map [("business_status", VString "Active"); ("is_active", VBool true)].

Definition inactive_profile_row : gmap string Value :=
  list_to_map [("business_status", VString "Not Active"); ("is_active", VBool false)].

Definition status_env (profile : option (gmap string Value)) : StatusEnv :=
  {| status_profile :=
       Return {| reply_data := profile;
                 reply_error := match profile with
                                | Some _ => None
                                | None => Some no_rows
                                end |};
     status_subscription :=
       Return {| reply_data := Some active_subscription_row; reply_error := None |} |}.

End HandlerSample.

(** ** Facts on the sort *)
Section SortFacts.
Context {A : Type} (key : A -> Z).

Let cmp (a b : A) : Z := key a - key b.
Let le (a b : A) : Prop := key a <= key b.

Lemma sort_insert_Permutation x l : JS.sort_insert cmp x l ≡ₚ x :: l.
Proof.
  induction l as [|y l IH]; simpl; [done|].
  destruct (cmp x y <=? 0); [done|].
  rewrite IH. apply Permutation_swap.
Qed.

Lemma sort_Permutation l : JS.sort cmp l ≡ₚ l.
Proof.
  induction l as [|x l IH]; simpl; [done|].
  by rewrite sort_insert_Permutation, IH.
Qed.

Lemma sort_insert_Forall (P : A -> Prop) x l :
  P x -> Forall P l -> Forall P (JS.sort_insert cmp x l).
Proof.
  intros Hx Hl. eapply Forall_forall. intros a Ha.
  rewrite sort_insert_Permutation in Ha.
  apply elem_of_cons in Ha as [->|Ha]; [done|].
  by eapply Forall_forall in Hl.
Qed.

Lemma sort_insert_sorted x l :
  StronglySorted le l -> StronglySorted le (JS.sort_insert cmp x l).
Proof.
  induction 1 as [|y l Hl IH Hy]; simpl.
  - repeat constructor.
  - destruct (Z.leb_spec (cmp x y) 0) as [Hxy|Hxy]; unfold cmp in Hxy.
    + constructor; [by constructor|].
      constructor; [unfold le; lia|].
      eapply Forall_impl; [exact Hy|]. unfold le. intros; simpl in *; lia.
    + constructor; [exact IH|].
      apply sort_insert_Forall; [unfold le; lia | exact Hy].
Qed.

Lemma sort_sorted l : StronglySorted le (JS.sort cmp l).
Proof.
  induction l as [|x l IH]; simpl; [constructor|].
  by apply sort_insert_sorted.
Qed.

(** Stability: the elements of one key keep their order. *)
Lemma sort_insert_stable d x l :
  List.filter (fun a => key a =? d) (JS.sort_insert cmp x l)
  = List.filter (fun a => key a =? d) (x :: l).
Proof.
  induction l as [|y l IH]; [done|].
  cbn [JS.sort_insert].
  destruct (Z.leb_spec (cmp x y) 0) as [Hxy|Hxy]; [done|].
  unfold cmp in Hxy. cbn [List.filter] in *. rewrite IH.
  destruct (Z.eqb_spec (key x) d), (Z.eqb_spec (key y) d); try done; lia.
Qed.

Lemma sort_stable d l :
  List.filter (fun a => key a =? d) (JS.sort cmp l)
  = List.filter (fun a => key a =? d) l.
Proof.
  induction l as [|x l IH]; [done|].
  cbn [JS.sort]. rewrite sort_insert_stable. cbn [List.filter]. by rewrite IH.
Qed.

End SortFacts.

(** ** Facts on the organizer *)
Section OrganizerFacts.
Context `{JSONParser}.

Lemma organizeProduct_Ok prices product plan :
  organizeProduct prices product = Ok plan ->
  plan_product plan = product_id product
  /\ planId plan = planId_of product
  /\ displayOrder plan = displayOrder_of product
  /\ plan_prices plan = priceVariations_of product prices
  /\ features_of product = Ok (features plan).
Proof.
  unfold organizeProduct. destruct (features_of product) as [fs|e]; [|done].
  cbn. intros [= <-]. done.
Qed.

Lemma organizeProduct_total prices product fs :
  features_of product = Ok fs -> exists plan, organizeProduct prices product = Ok plan.
Proof. unfold organizeProduct. intros ->. cbn. eauto. Qed.

Lemma organizeProduct_Throw prices product e :
  organizeProduct prices product = Throw e <-> features_of product = Throw e.
Proof.
  unfold organizeProduct. destruct (features_of product); cbn; split; congruence.
Qed.

Lemma organize_loop_Ok prices products acc acc' :
  organize_loop prices products acc = Ok acc' <->
  exists plans, plans_of prices products plans
    /\ acc' = (acc.1 ++ plans, store_prices plans acc.2).
Proof.
  revert acc. induction products as [|product rest IH]; intros acc; cbn.
  - split.
    + intros [= <-]. exists []. split; [constructor|].
      destruct acc; cbn. by rewrite app_nil_r.
    + intros (plans & Hp & ->). apply Forall2_nil_inv_l in Hp as ->.
      destruct acc; cbn. by rewrite app_nil_r.
  - unfold organize_step.
    destruct (organizeProduct prices product) as [plan|e] eqn:Hplan; cbn.
    + rewrite IH. cbn. split.
      * intros (plans & Hp & ->). exists (plan :: plans).
        split; [by constructor|]. by rewrite <- app_assoc.
      * intros (plans & Hp & ->).
        apply Forall2_cons_inv_l in Hp as (plan' & plans' & Hplan' & Hp & ->).
        assert (plan' = plan) as -> by congruence.
        exists plans'. split; [done|]. by rewrite <- app_assoc.
    + split; [done|]. intros (plans & Hp & _).
      apply Forall2_cons_inv_l in Hp as (plan' & plans' & Hplan' & _).
      congruence.
Qed.

Lemma organize_loop_total prices products acc :
  Forall (fun product => exists fs, features_of product = Ok fs) products ->
  exists acc', organize_loop prices products acc = Ok acc'.
Proof.
  intros Hall. revert acc.
  induction Hall as [|product rest [fs Hfs] _ IH]; intros acc; cbn; [eauto|].
  unfold organize_step.
  destruct (organizeProduct_total prices product fs Hfs) as [plan ->]. cbn.
  apply IH.
Qed.

Lemma features_of_Throw product e :
  features_of product = Throw e -> exists m, e = SyntaxError m.
Proof.
  unfold features_of. destruct (JS.truthy_string _); [|done].
  destruct (JSON_parse _); [|done]. intros [= <-]. eauto.
Qed.

Lemma features_of_malformed product s m :
  product_metadata product !! "features" = Some s -> s <> "" ->
  JSON_parse s = inl m ->
  features_of product = Throw (SyntaxError m).
Proof.
  intros Hs Hne Hm. unfold features_of. rewrite Hs.
  destruct s as [|c r]; [done|]. cbn. by rewrite Hm.
Qed.

Lemma organize_loop_Throw prices products acc product m :
  product ∈ products ->
  features_of product = Throw (SyntaxError m) ->
  exists m', organize_loop prices products acc = Throw (SyntaxError m').
Proof.
  intros Hin Hbad. revert acc.
  induction products as [|p rest IH]; intros acc; [by apply elem_of_nil in Hin|].
  cbn. unfold organize_step.
  destruct (organizeProduct prices p) as [plan|e] eqn:Hplan; cbn.
  - apply elem_of_cons in Hin as [->|Hin]; [|by apply IH].
    apply organizeProduct_Ok in Hplan as (_ & _ & _ & _ & Hfs). congruence.
  - apply organizeProduct_Throw, features_of_Throw in Hplan as [m' ->]. eauto.
Qed.

Lemma organizeProductCatalog_Throw products prices product m :
  product ∈ products ->
  features_of product = Throw (SyntaxError m) ->
  exists m', organizeProductCatalog products prices = Throw (SyntaxError m').
Proof.
  intros Hin Hbad. unfold organizeProductCatalog.
  destruct (organize_loop_Throw prices products ([], JSObject.empty) product m Hin Hbad)
    as [m' ->].
  cbn. eauto.
Qed.

Lemma organizeProductCatalog_Ok products prices catalog :
  organizeProductCatalog products prices = Ok catalog <->
  exists plans, plans_of prices products plans
    /\ catalog = {| catalog_products := JS.sort by_displayOrder plans;
                    catalog_prices := store_prices plans JSObject.empty |}.
Proof.
  unfold organizeProductCatalog.
  destruct (organize_loop prices products ([], JSObject.empty)) as [acc|e] eqn:Hloop; cbn.
  - apply organize_loop_Ok in Hloop as (plans & Hp & ->). cbn. split.
    + intros [= <-]. eauto.
    + intros (plans' & Hp' & ->).
      assert (plans' = plans) as ->; [|done].
      clear -Hp Hp'. revert plans' Hp'.
      induction Hp as [|p q ps qs Hq _ IH]; intros plans' Hp'.
      * by apply Forall2_nil_inv_l in Hp'.
      * apply Forall2_cons_inv_l in Hp' as (q' & qs' & Hq' & Hp' & ->).
        f_equal; [congruence | by apply IH].
  - split; [done|]. intros (plans & Hp & _).
    assert (organize_loop prices products ([], JSObject.empty)
            = Ok ([] ++ plans, store_prices plans JSObject.empty)) as Hok
      by (apply organize_loop_Ok; eauto).
    congruence.
Qed.

Lemma plans_of_elem prices products plans plan :
  plans_of prices products plans -> plan ∈ plans ->
  exists product, product ∈ products /\ organizeProduct prices product = Ok plan.
Proof.
  induction 1 as [|p q ps qs Hq _ IH]; intros Hin; [by apply elem_of_nil in Hin|].
  apply elem_of_cons in Hin as [->|Hin].
  - exists p. split; [left | done].
  - destruct (IH Hin) as (product & ? & ?). exists product. split; [by right | done].
Qed.

End OrganizerFacts.

(** ** Facts on the price mapping *)
Section PriceFacts.

Lemma fold_add_price (l : list RawPrice) (m : gmap string PriceVariant) k :
  fold_left add_price l m !! k
  = match last (filter (fun price => price_key price = k) l) with
    | Some price => Some (price_variant price)
    | None => m !! k
    end.
Proof.
  revert m. induction l as [|p l IH]; intros m; [done|].
  cbn [fold_left]. rewrite IH, filter_cons. unfold add_price.
  case_decide as Hk.
  - rewrite last_cons. destruct (last _); [done|].
    subst k. by rewrite lookup_insert_eq.
  - destruct (last _); [done|]. by rewrite lookup_insert_ne.
Qed.

Lemma elem_of_productPrices product prices price :
  price ∈ productPrices product prices <->
  price ∈ prices /\ price_product price = RefId (product_id product).
Proof.
  unfold productPrices. rewrite !list_elem_of_In, filter_In.
  unfold price_matches. destruct (price_product price) as [s|s].
  - rewrite bool_decide_eq_true. split; intros [? ?]; split; congruence.
  - split; intros [? ?]; congruence.
Qed.

Lemma priceVariations_of_Some product prices k v :
  priceVariations_of product prices !! k = Some v ->
  exists price, price ∈ prices
    /\ price_product price = RefId (product_id product)
    /\ price_key price = k /\ v = price_variant price.
Proof.
  unfold priceVariations_of. rewrite fold_add_price, lookup_empty.
  destruct (last _) as [price|] eqn:Hlast; [|done]. intros [= <-].
  apply last_Some_elem_of, list_elem_of_filter in Hlast as [Hk Hin].
  apply elem_of_productPrices in Hin as [? ?]. eauto.
Qed.

Lemma productPrices_object_refs product prices :
  (forall price, price ∈ prices ->
     ref_id (price_product price) = product_id product ->
     price_product price = RefObject (product_id product)) ->
  productPrices product prices = [].
Proof.
  intros Hobj. destruct (productPrices product prices) as [|price l] eqn:Hpp; [done|].
  assert (price ∈ productPrices product prices) as Hin by (rewrite Hpp; left).
  apply elem_of_productPrices in Hin as [Hin Href].
  specialize (Hobj price Hin). rewrite Href in Hobj. cbn in Hobj.
  by specialize (Hobj eq_refl).
Qed.

Lemma productPrices_same_id p q prices :
  product_id p = product_id q -> productPrices p prices = productPrices q prices.
Proof.
  intros Hid. unfold productPrices. apply List.filter_ext. intros price.
  unfold price_matches. by rewrite Hid.
Qed.

Lemma price_key_cases price k :
  price_key price = k ->
  (k = "monthly" /\ exists r, recurring price = Some r /\ interval r = "month")
  \/ (k = "yearly" /\ exists r, recurring price = Some r /\ interval r <> "month")
  \/ (k = "one_time" /\ recurring price = None).
Proof.
  unfold price_key, intervalKey. destruct (recurring price) as [r|].
  - case_bool_decide; intros <-; [left | right; left]; eauto.
  - intros <-. right; right. done.
Qed.

Lemma remove_dups_NoDup (l : list string) : NoDup l -> remove_dups l = l.
Proof.
  induction 1 as [|x l Hx _ IH]; cbn; [done|].
  destruct (decide_rel elem_of x l); [done|]. by rewrite IH.
Qed.

End PriceFacts.

Section StoreFacts.
Context `{JSONParser}.

Lemma assigned_set {V : Type} (o : JSObject.t V) k v k' :
  assigned (JSObject.set o k v) k'
  = if decide (k = k') then Some v else assigned o k'.
Proof.
  unfold assigned, JSObject.set.
  destruct (decide (k = k')) as [<-|Hne].
  - case_bool_decide; cbn; [done|]. by rewrite lookup_insert_eq.
  - case_bool_decide as Hk; case_bool_decide as Hk'; cbn; try done.
    + congruence.
    + by rewrite lookup_insert_ne.
Qed.

Lemma assigned_empty {V : Type} k : assigned (@JSObject.empty V) k = None.
Proof. unfold assigned. by case_bool_decide. Qed.

Lemma assigned_own {V : Type} (o : JSObject.t V) k :
  k <> "__proto__" -> assigned o k = JSObject.own o !! k.
Proof. intros Hk. unfold assigned. by rewrite bool_decide_eq_false_2. Qed.

Lemma own_set_proto {V : Type} (o : JSObject.t V) k v :
  JSObject.own o !! "__proto__" = None ->
  JSObject.own (JSObject.set o k v) !! "__proto__" = None.
Proof.
  intros Hown. unfold JSObject.set. case_bool_decide; cbn; [done|].
  by rewrite lookup_insert_ne.
Qed.

Lemma own_set_size {V : Type} (o : JSObject.t V) k v :
  (size (JSObject.own (JSObject.set o k v)) <= S (size (JSObject.own o)))%nat.
Proof.
  unfold JSObject.set. case_bool_decide; cbn; [lia|].
  rewrite map_size_insert. destruct (JSObject.own o !! k); unfold id; lia.
Qed.

Lemma own_set_size_fresh {V : Type} (o : JSObject.t V) k v :
  JSObject.own o !! k = None ->
  size (JSObject.own (JSObject.set o k v))
  = (size (JSObject.own o) + if bool_decide (k = "__proto__") then 0 else 1)%nat.
Proof.
  intros Hk. unfold JSObject.set. case_bool_decide; cbn; [lia|].
  rewrite map_size_insert, Hk. lia.
Qed.

Lemma own_set_ne {V : Type} (o : JSObject.t V) k v k' :
  k <> k' -> JSObject.own (JSObject.set o k v) !! k' = JSObject.own o !! k'.
Proof.
  intros Hne. unfold JSObject.set. case_bool_decide; cbn; [done|].
  by rewrite lookup_insert_ne.
Qed.

Lemma store_prices_cons plan plans lookup :
  store_prices (plan :: plans) lookup
  = store_prices plans (JSObject.set lookup (planId plan) (plan_prices plan)).
Proof. reflexivity. Qed.

Lemma store_prices_Some plans lookup pid m :
  assigned (store_prices plans lookup) pid = Some m ->
  (exists plan, plan ∈ plans /\ planId plan = pid /\ plan_prices plan = m)
  \/ assigned lookup pid = Some m.
Proof.
  revert lookup. induction plans as [|plan plans IH]; intros lookup; cbn; [eauto|].
  intros Hm. apply IH in Hm as [(q & Hq & ? & ?)|Hm].
  - left. exists q. split; [by right | done].
  - rewrite assigned_set in Hm. destruct (decide (planId plan = pid)) as [Heq|Hne].
    + injection Hm as <-. left. exists plan. split; [left | done].
    + by right.
Qed.

Lemma store_prices_None plans lookup k :
  assigned (store_prices plans lookup) k = None -> assigned lookup k = None.
Proof.
  revert lookup. induction plans as [|r plans IH]; intros lookup Hm; [done|].
  rewrite store_prices_cons in Hm. apply IH in Hm. rewrite assigned_set in Hm.
  by destruct (decide (planId r = k)).
Qed.

Lemma store_prices_lookup_plan plans lookup plan :
  plan ∈ plans -> is_Some (assigned (store_prices plans lookup) (planId plan)).
Proof.
  revert lookup. induction plans as [|q plans IH]; intros lookup Hin;
    [by apply elem_of_nil in Hin|].
  rewrite store_prices_cons. apply elem_of_cons in Hin as [->|Hin]; [|by apply IH].
  destruct (assigned (store_prices plans _) (planId q)) as [m|] eqn:Hm; [eauto|].
  apply store_prices_None in Hm. rewrite assigned_set in Hm.
  by rewrite decide_True in Hm.
Qed.

Lemma store_prices_last prices products plans lookup pid :
  plans_of prices products plans ->
  assigned (store_prices plans lookup) pid
  = match last (filter (fun product => planId_of product = pid) products) with
    | Some product => Some (priceVariations_of product prices)
    | None => assigned lookup pid
    end.
Proof.
  intros Hplans. revert lookup.
  induction Hplans as [|product plan products plans Hplan _ IH]; intros lookup;
    [done|].
  apply organizeProduct_Ok in Hplan as (_ & Hid & _ & Hprices & _).
  rewrite store_prices_cons, IH, filter_cons, assigned_set, Hid, Hprices.
  destruct (decide (planId_of product = pid)) as [Hpid|Hpid].
  - rewrite last_cons. by destruct (last _).
  - by destruct (last _).
Qed.

Lemma store_prices_own_proto plans lookup :
  JSObject.own lookup !! "__proto__" = None ->
  JSObject.own (store_prices plans lookup) !! "__proto__" = None.
Proof.
  revert lookup. induction plans as [|plan plans IH]; intros lookup Hown; [done|].
  rewrite store_prices_cons. by apply IH, own_set_proto.
Qed.

Lemma store_prices_size plans lookup :
  (size (JSObject.own (store_prices plans lookup))
   <= size (JSObject.own lookup) + length plans)%nat.
Proof.
  revert lookup. induction plans as [|plan plans IH]; intros lookup;
    [unfold store_prices; cbn [fold_left length]; lia|].
  rewrite store_prices_cons. etransitivity; [apply IH|].
  pose proof (own_set_size lookup (planId plan) (plan_prices plan)).
  cbn [length]. lia.
Qed.

(** With pairwise distinct identifiers every plan but the one named
    ["__proto__"] adds an own property. *)
Lemma store_prices_size_NoDup plans lookup :
  NoDup (planId <$> plans) ->
  (forall plan, plan ∈ plans -> JSObject.own lookup !! planId plan = None) ->
  (size (JSObject.own (store_prices plans lookup))
   + (if bool_decide ("__proto__" ∈ planId <$> plans) then 1 else 0)
   = size (JSObject.own lookup) + length plans)%nat.
Proof.
  revert lookup. induction plans as [|plan plans IH]; intros lookup Hnd Hfresh.
  { unfold store_prices. cbn [fold_left length fmap list_fmap].
    rewrite bool_decide_eq_false_2; [lia|]. by intros ?%elem_of_nil. }
  rewrite store_prices_cons. cbn in Hnd. apply NoDup_cons in Hnd as [Hplan Hnd].
  specialize (IH (JSObject.set lookup (planId plan) (plan_prices plan)) Hnd).
  rewrite own_set_size_fresh in IH by (apply Hfresh; left).
  cbn [length fmap list_fmap].
  assert (forall q, q ∈ plans ->
            JSObject.own (JSObject.set lookup (planId plan) (plan_prices plan))
              !! planId q = None) as Hfresh'.
  { intros q Hq. rewrite own_set_ne; [apply Hfresh; by right|].
    intros Heq. apply Hplan. rewrite Heq. by apply list_elem_of_fmap_2. }
  specialize (IH Hfresh').
  destruct (decide (planId plan = "__proto__")) as [Heq|Hne].
  - rewrite Heq in *.
    rewrite (bool_decide_eq_true_2 ("__proto__" = "__proto__")) in IH by done.
    rewrite (bool_decide_eq_false_2 _ Hplan) in IH.
    rewrite bool_decide_eq_true_2; [lia|]. apply elem_of_cons. by left.
  - rewrite (bool_decide_eq_false_2 (planId plan = "__proto__")) in IH by done.
    assert (bool_decide ("__proto__" ∈ planId plan :: (planId <$> plans))
            = bool_decide ("__proto__" ∈ planId <$> plans)) as ->.
    { apply bool_decide_ext. rewrite elem_of_cons.
      split; [intros [?|?]; [congruence|done] | by right]. }
    lia.
Qed.

Lemma priceVariations_of_keys product prices k :
  is_Some (priceVariations_of product prices !! k) ->
  k ∈ ["monthly"; "yearly"; "one_time"].
Proof.
  intros [v Hv].
  apply priceVariations_of_Some in Hv as (price & _ & _ & Hkey & _).
  destruct (price_key_cases _ _ Hkey) as [(-> & _)|[(-> & _)|(-> & _)]].
  - left.
  - right; left.
  - right; right; left.
Qed.

(** On a lookup without own property ["__proto__"], whose prototype was not
    given such a property either, the read [lookup[k]] gives price
    variations exactly when they were assigned to [lookup[k]]. *)
Lemma prices_get_Variations (lookup : PriceLookup) k m :
  JSObject.own lookup !! "__proto__" = None ->
  (forall p, JSObject.prototype lookup = Some p -> p !! "__proto__" = None) ->
  prices_get lookup k = Variations m <-> assigned lookup k = Some m.
Proof.
  intros Hown Hproto. unfold prices_get, assigned, JSObject.inherited.
  case_bool_decide as Hk.
  - subst k. rewrite Hown.
    destruct (JSObject.prototype lookup) as [p|]; [|done].
    rewrite (Hproto p eq_refl). split; by intros [= ->].
  - destruct (JSObject.own lookup !! k) as [m'|]; [split; by intros [= ->]|].
    destruct (JSObject.prototype lookup) as [p|].
    + destruct (p !! k); [done|]. by case_bool_decide.
    + by case_bool_decide.
Qed.

Lemma organized_prices_get prices products plans k m :
  plans_of prices products plans ->
  prices_get (store_prices plans JSObject.empty) k = Variations m
  <-> assigned (store_prices plans JSObject.empty) k = Some m.
Proof.
  intros Hplans. apply prices_get_Variations.
  - by apply store_prices_own_proto.
  - intros p Hp.
    assert (assigned (store_prices plans JSObject.empty) "__proto__" = Some p) as Ha
      by (unfold assigned; by rewrite bool_decide_eq_true_2).
    rewrite (store_prices_last _ _ _ _ _ Hplans) in Ha.
    destruct (last _) as [product|]; [|done]. injection Ha as <-.
    destruct (priceVariations_of product prices !! "__proto__") eqn:Hk; [|done].
    assert ("__proto__" ∈ ["monthly"; "yearly"; "one_time"]) as Hin
      by (apply (priceVariations_of_keys product prices); eauto).
    repeat (apply elem_of_cons in Hin as [Hin|Hin]; [discriminate Hin|]).
    by apply elem_of_nil in Hin.
Qed.

Lemma sort_plans_Permutation (plans : list Plan) :
  JS.sort by_displayOrder plans ≡ₚ plans.
Proof. apply (sort_Permutation displayOrder). Qed.

Lemma plans_of_product_ids prices products plans :
  plans_of prices products plans ->
  plan_product <$> plans = product_id <$> products.
Proof.
  induction 1 as [|p q ps qs Hq _ IH]; [done|].
  cbn. apply organizeProduct_Ok in Hq as (-> & _). by rewrite IH.
Qed.

Lemma plans_of_planIds prices products plans :
  plans_of prices products plans -> planId <$> plans = planId_of <$> products.
Proof.
  induction 1 as [|p q ps qs Hq _ IH]; [done|].
  cbn. apply organizeProduct_Ok in Hq as (_ & -> & _). by rewrite IH.
Qed.

Lemma filter_none {A} (P : A -> Prop) `{!forall x, Decision (P x)} (l : list A) :
  (forall z, z ∈ l -> ~ P z) -> filter P l = [].
Proof.
  induction l as [|y l IH]; intros Hnone; [done|].
  rewrite filter_cons, decide_False by (apply Hnone; left).
  apply IH. intros z Hz. apply Hnone. by right.
Qed.

Lemma filter_same_key_NoDup {A} (f : A -> string) (l : list A) x :
  NoDup (f <$> l) -> x ∈ l -> filter (fun y => f y = f x) l = [x].
Proof.
  induction l as [|y l IH]; intros Hnd Hin; [by apply elem_of_nil in Hin|].
  cbn in Hnd. apply NoDup_cons in Hnd as [Hy Hnd]. rewrite filter_cons.
  apply elem_of_cons in Hin as [->|Hin].
  - rewrite decide_True by done. f_equal.
    apply filter_none. intros z Hz Heq.
    apply Hy. rewrite <- Heq. by apply list_elem_of_fmap_2.
  - rewrite decide_False; [by apply IH|].
    intros Heq. apply Hy. rewrite Heq. by apply list_elem_of_fmap_2.
Qed.

(** What an organize pass that succeeds leaves in the lookup. *)
Lemma organized_lookup plans prices products :
  plans_of prices products plans ->
  let lookup := store_prices plans JSObject.empty in
  (forall plan, plan ∈ plans -> exists m, prices_get lookup (planId plan) = Variations m)
  /\ (forall pid m, prices_get lookup pid = Variations m ->
        exists plan, plan ∈ plans /\ planId plan = pid /\ plan_prices plan = m)
  /\ (size (JSObject.own lookup) <= length plans)%nat.
Proof.
  intros Hplans lookup. split; [|split].
  - intros plan Hin.
    destruct (store_prices_lookup_plan plans JSObject.empty plan Hin) as [m Hm].
    exists m. by apply (organized_prices_get _ _ _ _ _ Hplans).
  - intros pid m Hm. apply (organized_prices_get _ _ _ _ _ Hplans) in Hm.
    apply store_prices_Some in Hm as [Hplan|Hm]; [done|].
    by rewrite assigned_empty in Hm.
  - pose proof (store_prices_size plans JSObject.empty) as Hsize.
    cbn in Hsize. rewrite map_size_empty in Hsize. exact Hsize.
Qed.

End StoreFacts.

(** ** The organizer: the claims *)
Section OrganizerClaims.
Context `{JSONParser}.

(** C3 (amended): when every product's features metadata parses, the
    organizer returns a catalog with one plan per entry of the product
    list: the plan list has the length of the product list and carries
    the same product identifiers; this is the number of distinct product
    identifiers whenever no identifier occurs twice in the input. *)
Theorem organize_one_plan_per_product products prices :
  Forall (fun product => exists fs, features_of product = Ok fs) products ->
  exists catalog,
    organizeProductCatalog products prices = Ok catalog
    /\ length (catalog_products catalog) = length products
    /\ plan_product <$> catalog_products catalog ≡ₚ product_id <$> products
    /\ (NoDup (product_id <$> products) ->
        length (catalog_products catalog)
        = length (remove_dups (product_id <$> products))).
Proof.
  intros Hparse.
  destruct (organize_loop_total prices products ([], JSObject.empty) Hparse) as [acc Hloop].
  apply organize_loop_Ok in Hloop as (plans & Hplans & ->).
  eexists. split.
  { apply organizeProductCatalog_Ok. eauto. }
  cbn [catalog_products].
  assert (length (JS.sort by_displayOrder plans) = length products) as Hlen.
  { rewrite (Permutation_length (sort_plans_Permutation plans)).
    symmetry. by eapply Forall2_length. }
  repeat split.
  - exact Hlen.
  - rewrite (sort_plans_Permutation plans).
    by erewrite plans_of_product_ids.
  - intros Hnd. rewrite remove_dups_NoDup by done.
    by rewrite Hlen, length_fmap.
Qed.

(** C5 (amended): in every organize output, a key of a plan's [prices]
    mapping is the key of a price of the input that references the plan's
    product, and the value stored is that price's data; the same holds for
    the price variations that the lookup gives.  So "monthly" is present
    only with a price of interval "month", "one_time" only with a price that
    is not recurring, and "yearly" only with a recurring price of another
    interval: any other interval, which is "year" when the intervals of the
    input are "month" or "year". *)
Theorem plan_prices_from_input products prices catalog :
  organizeProductCatalog products prices = Ok catalog ->
  (forall plan k v,
     plan ∈ catalog_products catalog ->
     plan_prices plan !! k = Some v ->
     exists price, price ∈ prices
       /\ price_product price = RefId (plan_product plan)
       /\ price_key price = k /\ v = price_variant price
       /\ ((k = "monthly"
            /\ exists r, recurring price = Some r /\ interval r = "month")
           \/ (k = "yearly"
            /\ exists r, recurring price = Some r /\ interval r <> "month"
                 /\ (month_or_year prices -> interval r = "year"))
           \/ (k = "one_time" /\ recurring price = None)))
  /\ (forall pid m k v,
     prices_get (catalog_prices catalog) pid = Variations m ->
     m !! k = Some v ->
     exists product price, product ∈ products
       /\ planId_of product = pid
       /\ price ∈ prices
       /\ price_product price = RefId (product_id product)
       /\ price_key price = k /\ v = price_variant price).
Proof.
  intros Horg. apply organizeProductCatalog_Ok in Horg as (plans & Hplans & ->).
  cbn [catalog_products catalog_prices]. split.
  - intros plan k v Hin Hk.
    rewrite (sort_plans_Permutation plans) in Hin.
    destruct (plans_of_elem _ _ _ _ Hplans Hin) as (product & _ & Hplan).
    apply organizeProduct_Ok in Hplan as (-> & _ & _ & Hprices & _).
    rewrite Hprices in Hk.
    apply priceVariations_of_Some in Hk as (price & Hprice & Href & Hkey & ->).
    exists price. repeat (split; [done|]).
    destruct (price_key_cases _ _ Hkey)
      as [(-> & r & Hr & Hi)|[(-> & r & Hr & Hi)|(-> & Hr)]].
    + left. eauto.
    + right; left. split; [done|]. exists r. repeat (split; [done|]).
      intros Hmy. by destruct (Hmy price r Hprice Hr).
    + right; right. done.
  - intros pid m k v Hm Hk.
    destruct (organized_lookup _ _ _ Hplans) as (_ & Hsome & _).
    destruct (Hsome pid m Hm) as (plan & Hin & <- & <-).
    destruct (plans_of_elem _ _ _ _ Hplans Hin) as (product & Hprod & Hplan).
    apply organizeProduct_Ok in Hplan as (_ & -> & _ & Hprices & _).
    rewrite Hprices in Hk.
    apply priceVariations_of_Some in Hk as (price & ? & ? & ? & ?).
    exists product, price. done.
Qed.

(** C6: when every price that designates a product carries the product
    reference as an object and not as the identifier string, the filter
    [price.product === product.id] keeps no price for that product, and
    the product's plan has an empty [prices] mapping. *)
Theorem object_reference_matches_nothing products prices catalog product :
  organizeProductCatalog products prices = Ok catalog ->
  product ∈ products ->
  (forall price, price ∈ prices ->
     ref_id (price_product price) = product_id product ->
     price_product price = RefObject (product_id product)) ->
  productPrices product prices = []
  /\ (exists plan, plan ∈ catalog_products catalog
        /\ plan_product plan = product_id product)
  /\ (forall plan, plan ∈ catalog_products catalog ->
        plan_product plan = product_id product ->
        plan_prices plan = ∅).
Proof.
  intros Horg Hprod Hobj.
  apply organizeProductCatalog_Ok in Horg as (plans & Hplans & ->).
  cbn [catalog_products].
  pose proof (productPrices_object_refs product prices Hobj) as Hnone.
  split; [exact Hnone|]. split.
  - assert (product_id product ∈ plan_product <$> plans) as Hid.
    { erewrite plans_of_product_ids by done. by apply list_elem_of_fmap_2. }
    apply list_elem_of_fmap in Hid as (plan & Hid & Hin).
    exists plan. split; [|done].
    by rewrite (sort_plans_Permutation plans).
  - intros plan Hin Hid.
    rewrite (sort_plans_Permutation plans) in Hin.
    destruct (plans_of_elem _ _ _ _ Hplans Hin) as (q & _ & Hplan).
    apply organizeProduct_Ok in Hplan as (Hq & _ & _ & -> & _).
    unfold priceVariations_of.
    rewrite (productPrices_same_id q product) by congruence.
    by rewrite Hnone.
Qed.

(** C9: in every organize output the plans are in non-decreasing
    [displayOrder], and the plans of one [displayOrder] are in the order
    of their products in the input list. *)
Theorem organize_sorted_stable products prices catalog :
  organizeProductCatalog products prices = Ok catalog ->
  exists plans,
    plans_of prices products plans
    /\ catalog_products catalog ≡ₚ plans
    /\ StronglySorted (fun a b => displayOrder a <= displayOrder b)
         (catalog_products catalog)
    /\ forall d,
         List.filter (fun plan => displayOrder plan =? d) (catalog_products catalog)
         = List.filter (fun plan => displayOrder plan =? d) plans.
Proof.
  intros Horg. apply organizeProductCatalog_Ok in Horg as (plans & Hplans & ->).
  exists plans. cbn [catalog_products]. split; [done|]. split; [|split].
  - apply sort_plans_Permutation.
  - apply (sort_sorted displayOrder).
  - intros d. apply (sort_stable displayOrder).
Qed.

(** C10: a [display_order] that parses to 0, as the string "0" does,
    gives the plan the default order 999; next to a product whose order
    is between 1 and 998 the plan comes second, not first. *)
Theorem display_order_zero_is_default :
  JS.parseInt_string "0" = Some 0
  /\ (forall product s,
        product_metadata product !! "display_order" = Some s ->
        JS.parseInt_string s = Some 0 ->
        displayOrder_of product = 999)
  /\ (forall zero other s prices catalog,
        product_metadata zero !! "display_order" = Some s ->
        JS.parseInt_string s = Some 0 ->
        0 < displayOrder_of other < 999 ->
        organizeProductCatalog [zero; other] prices = Ok catalog ->
        plan_product <$> catalog_products catalog
        = [product_id other; product_id zero]).
Proof.
  assert (forall product s,
            product_metadata product !! "display_order" = Some s ->
            JS.parseInt_string s = Some 0 ->
            displayOrder_of product = 999) as Hzero.
  { intros product s Hs Hparse. unfold displayOrder_of, JS.parseInt.
    rewrite Hs. change (default "undefined" (Some s)) with s.
    by rewrite Hparse. }
  split; [done|]. split; [exact Hzero|].
  intros zero other s prices catalog Hs Hparse Hother Horg.
  apply organizeProductCatalog_Ok in Horg as (plans & Hplans & ->).
  apply Forall2_cons_inv_l in Hplans as (pz & plans' & Hz & Hplans & ->).
  apply Forall2_cons_inv_l in Hplans as (po & plans'' & Ho & Hplans & ->).
  apply Forall2_nil_inv_l in Hplans as ->.
  apply organizeProduct_Ok in Hz as (Hzid & _ & Hzd & _).
  apply organizeProduct_Ok in Ho as (Hoid & _ & Hod & _).
  cbn. unfold by_displayOrder. rewrite Hzd, Hod, (Hzero zero s Hs Hparse).
  destruct (Z.leb_spec (999 - displayOrder_of other) 0); [lia|].
  cbn. by rewrite Hzid, Hoid.
Qed.

End OrganizerClaims.

(** ** The price keys of an organize pass *)
Section PriceKeys.
Context `{JSONParser}.

Lemma price_matches_true product price :
  price_matches product price = true
  <-> price_product price = RefId (product_id product).
Proof.
  unfold price_matches. destruct (price_product price) as [s|s].
  - rewrite bool_decide_eq_true. split; congruence.
  - split; congruence.
Qed.

Lemma fold_matched product (l : list RawPrice) (m : gmap string PriceVariant) k :
  fold_left add_price (productPrices product l) m !! k
  = match last (filter (fun q => price_matches product q = true /\ price_key q = k) l) with
    | Some later => Some (price_variant later)
    | None => m !! k
    end.
Proof.
  unfold productPrices. revert m. induction l as [|p l IH]; intros m; [done|].
  cbn [List.filter]. rewrite filter_cons.
  destruct (price_matches product p) eqn:Hp.
  - cbn [fold_left]. rewrite IH. unfold add_price.
    destruct (decide (price_key p = k)) as [Hk|Hk].
    + rewrite decide_True by done. rewrite last_cons.
      destruct (last _); [done|]. by rewrite Hk, lookup_insert_eq.
    + rewrite decide_False by tauto.
      destruct (last _); [done|]. by rewrite lookup_insert_ne.
  - rewrite decide_False; [apply IH|]. by intros [? _].
Qed.

Lemma last_filter_split {A} (P : A -> Prop) `{!forall x, Decision (P x)}
    (l : list A) x :
  last (filter P l) = Some x ->
  exists before after,
    l = before ++ x :: after /\ P x /\ Forall (fun y => ~ P y) after.
Proof.
  induction l as [|y l IH]; [done|]. rewrite filter_cons.
  destruct (decide (P y)) as [Hy|Hy].
  - rewrite last_cons. destruct (last (filter P l)) as [z|] eqn:Hlast.
    + intros [= ->]. destruct (IH eq_refl) as (before & after & -> & Hx & Hafter).
      by exists (y :: before), after.
    + intros [= ->]. exists [], l. split; [done|]. split; [done|].
      apply Forall_forall. intros z Hz HPz.
      assert (z ∈ filter P l) as Hin by (by apply list_elem_of_filter).
      destruct (filter P l) as [|u r] eqn:Hf; [by apply elem_of_nil in Hin|].
      clear -Hlast. revert u Hlast. induction r as [|u' r IHr]; intros u; [done|].
      rewrite last_cons_cons. apply IHr.
  - intros Hlast. destruct (IH Hlast) as (before & after & -> & Hx & Hafter).
    by exists (y :: before), after.
Qed.

Lemma plans_of_features prices products plans :
  plans_of prices products plans ->
  Forall (fun product => exists fs, features_of product = Ok fs) products.
Proof.
  induction 1 as [|p q ps qs Hq _ IH]; constructor; [|done].
  apply organizeProduct_Ok in Hq as (_ & _ & _ & _ & Hfs). eauto.
Qed.

Lemma plans_of_product prices products plans product :
  plans_of prices products plans -> product ∈ products ->
  exists plan, plan ∈ plans /\ organizeProduct prices product = Ok plan.
Proof.
  induction 1 as [|p q ps qs Hq _ IH]; intros Hin; [by apply elem_of_nil in Hin|].
  apply elem_of_cons in Hin as [->|Hin].
  - exists q. split; [left | done].
  - destruct (IH Hin) as (plan & ? & ?). exists plan. split; [by right | done].
Qed.

(** C4: when the features metadata of every product parses, the organize
    pass succeeds whatever the prices are, and a price that references a
    product of the list has a key in the [prices] mapping of every plan of
    that product, of which there is one at least: "monthly" when the price
    is recurring with interval "month", "yearly" when it is recurring with
    any other interval, "one_time" when it is not recurring.  The value
    under that key is the data of the last price of the price list that
    references the product and has the same key, which is this price or a
    later one: a later price overwrites an earlier one, with no error. *)
Theorem price_keys_last_wins products prices product price :
  Forall (fun product => exists fs, features_of product = Ok fs) products ->
  product ∈ products ->
  price ∈ prices ->
  price_product price = RefId (product_id product) ->
  exists catalog key later before after,
    organizeProductCatalog products prices = Ok catalog
    /\ ((key = "monthly"
         /\ exists r, recurring price = Some r /\ interval r = "month")
        \/ (key = "yearly"
         /\ exists r, recurring price = Some r /\ interval r <> "month")
        \/ (key = "one_time" /\ recurring price = None))
    /\ prices = before ++ later :: after
    /\ price_product later = RefId (product_id product)
    /\ price_key later = key
    /\ Forall (fun q => price_product q = RefId (product_id product) ->
                        price_key q <> key) after
    /\ (price = later \/ price ∈ before)
    /\ (exists plan, plan ∈ catalog_products catalog
          /\ plan_product plan = product_id product)
    /\ (forall plan,
          plan ∈ catalog_products catalog ->
          plan_product plan = product_id product ->
          plan_prices plan !! key
          = Some {| priceId := price_id later;
                    unitAmount := unit_amount later;
                    variant_currency := currency later;
                    variant_interval := interval <$> recurring later;
                    intervalCount := interval_count <$> recurring later |}).
Proof.
  intros Hparse Hproduct Hprice Href.
  destruct (organize_loop_total prices products ([], JSObject.empty) Hparse)
    as [acc Hloop].
  apply organize_loop_Ok in Hloop as (plans & Hplans & ->).
  set (key := price_key price).
  set (P := fun q => price_matches product q = true /\ price_key q = key).
  assert (P price) as HP by (split; [by apply price_matches_true | done]).
  destruct (last (filter P prices)) as [later|] eqn:Hlast.
  2: { assert (price ∈ filter P prices) as Hf by (by apply list_elem_of_filter).
       destruct (filter P prices) as [|u r] eqn:Hfilter;
         [by apply elem_of_nil in Hf|].
       exfalso. clear -Hlast. revert u Hlast.
       induction r as [|u' r IHr]; intros u; [done|].
       rewrite last_cons_cons. apply IHr. }
  pose proof Hlast as Hsplit.
  apply last_filter_split in Hsplit as (before & after & Hl & [Hm Hk] & Hafter).
  eexists _, key, later, before, after.
  split; [apply organizeProductCatalog_Ok; eauto|].
  cbn [catalog_products].
  split; [by apply price_key_cases|]. split; [exact Hl|].
  split; [by apply price_matches_true|]. split; [exact Hk|].
  split; [|split; [|split]].
  - eapply Forall_impl; [exact Hafter|]. intros q Hq Hrefq Hkq.
    apply Hq. split; [by apply price_matches_true | done].
  - rewrite Hl in Hprice. apply elem_of_app in Hprice as [Hb|Ha]; [by right|].
    apply elem_of_cons in Ha as [->|Ha]; [by left|].
    exfalso. eapply Forall_forall in Hafter; [|exact Ha]. by apply Hafter.
  - destruct (plans_of_product _ _ _ _ Hplans Hproduct) as (plan & Hin & Hplan).
    exists plan. rewrite (sort_plans_Permutation plans). split; [done|].
    by apply organizeProduct_Ok in Hplan as (? & _).
  - intros plan Hin Hid. rewrite (sort_plans_Permutation plans) in Hin.
    destruct (plans_of_elem _ _ _ _ Hplans Hin) as (q & _ & Hplan).
    apply organizeProduct_Ok in Hplan as (Hq & _ & _ & -> & _).
    unfold priceVariations_of.
    rewrite (productPrices_same_id q product) by congruence.
    rewrite fold_matched. fold P. rewrite Hlast.
    unfold price_variant. by destruct (recurring later).
Qed.

End PriceKeys.

(** ** Facts on the cache *)
Section ServiceFacts.
Context `{JSONParser} `{Builtins}.

Lemma fetches_call c w :
  fetches (call c w)
  = (fetches w + if bool_decide (c = ProductsList) then 1 else 0)%nat.
Proof.
  unfold fetches, call. cbn [gateway_calls].
  rewrite List.filter_app, length_app. cbn. by destruct (bool_decide _).
Qed.

Lemma fetchProducts_fetches env w :
  fetches (fetchProducts env w).2 = S (fetches w).
Proof.
  assert (fetches (call ProductsList w) = S (fetches w)) as H1.
  { rewrite fetches_call, bool_decide_eq_true_2 by done. lia. }
  assert (fetches (call PricesList (call ProductsList w)) = S (fetches w)) as H2.
  { rewrite fetches_call, H1, bool_decide_eq_false_2 by done. lia. }
  unfold fetchProducts.
  destruct (products_list _); [|exact H1].
  destruct (prices_list _); [|exact H2].
  destruct (organizeProductCatalog _ _); exact H2.
Qed.

Lemma fetchProducts_Throw env w e w' :
  fetchProducts env w = (Throw e, w') ->
  productCatalogCache w' = productCatalogCache w.
Proof.
  unfold fetchProducts.
  destruct (products_list _); [|by intros [= _ <-]].
  destruct (prices_list _); [|by intros [= _ <-]].
  destruct (organizeProductCatalog _ _); [done|by intros [= _ <-]].
Qed.

Lemma fetchProducts_Ok env w cache w' :
  fetchProducts env w = (Ok cache, w') ->
  productCatalogCache w' = cache.
Proof.
  unfold fetchProducts.
  destruct (products_list _); [|done].
  destruct (prices_list _); [|done].
  destruct (organizeProductCatalog _ _); [|done].
  by intros [= <- <-].
Qed.

Lemma getProductCatalog_Ok forceRefresh env w cache w' :
  getProductCatalog forceRefresh env w = (Ok cache, w') ->
  productCatalogCache w' = cache.
Proof.
  unfold getProductCatalog. destruct (must_refresh _ _ _).
  - apply fetchProducts_Ok.
  - by intros [= <- <-].
Qed.

Lemma getProductCatalog_Throw forceRefresh env w e w' :
  getProductCatalog forceRefresh env w = (Throw e, w') ->
  productCatalogCache w' = productCatalogCache w.
Proof.
  unfold getProductCatalog. destruct (must_refresh _ _ _); [|done].
  apply fetchProducts_Throw.
Qed.

Lemma must_refresh_fresh now cache t :
  products cache <> [] ->
  lastUpdated cache = Some t -> t <> 0 -> now - t <= cacheExpiry cache ->
  must_refresh false now cache = false.
Proof.
  intros Hne Ht Ht0 Hage. unfold must_refresh, cacheExpired. rewrite Ht.
  destruct (products cache); [done|]. cbn.
  destruct (Z.eqb_spec t 0); [done|].
  destruct (Z.ltb_spec (cacheExpiry cache) (now - t)); [lia|done].
Qed.

End ServiceFacts.

(** ** The cache: the claims *)
Section ServiceClaims.
Context `{JSONParser} `{Builtins}.

(** C1 (amended): when a [get(false)] has returned a snapshot that holds
    at least one plan, a [get(false)] that follows within the TTL of that
    snapshot makes no gateway call and returns the same snapshot, the
    cache being left as it was; the first call made one fetch if it found
    the cache in need of a refresh and none otherwise.  Every [get(true)]
    makes exactly one fetch. *)
Theorem reads_fetch_at_most_once :
  (forall env1 env2 w snapshot w1 t,
     getProductCatalog false env1 w = (Ok snapshot, w1) ->
     products snapshot <> [] ->
     lastUpdated snapshot = Some t -> t <> 0 ->
     now env2 - t <= cacheExpiry snapshot ->
     getProductCatalog false env2 w1 = (Ok snapshot, w1)
     /\ fetches w1
        = (fetches w
           + if must_refresh false (now env1) (productCatalogCache w)
             then 1 else 0)%nat)
  /\ (forall env w, fetches (getProductCatalog true env w).2 = S (fetches w)).
Proof.
  split.
  - intros env1 env2 w snapshot w1 t Hfirst Hne Ht Ht0 Hage.
    pose proof (getProductCatalog_Ok _ _ _ _ _ Hfirst) as Hcache. split.
    + unfold getProductCatalog. rewrite Hcache.
      by rewrite (must_refresh_fresh _ _ t).
    + unfold getProductCatalog in Hfirst.
      destruct (must_refresh _ _ _).
      * pose proof (fetchProducts_fetches env1 w) as Hn.
        rewrite Hfirst in Hn. cbn in Hn. lia.
      * injection Hfirst as _ <-. lia.
  - intros env w. unfold getProductCatalog. cbn [must_refresh orb].
    apply fetchProducts_fetches.
Qed.

(** C2: a refresh that fails leaves the stored snapshot as it was and
    hands the error to its caller.  It fails when a list call of the
    gateway is rejected, and when the features metadata of a product is
    not valid JSON; nothing of the new catalog is stored then. *)
Theorem refresh_failure_keeps_snapshot forceRefresh env w :
  (forall e w',
     getProductCatalog forceRefresh env w = (Throw e, w') ->
     productCatalogCache w' = productCatalogCache w)
  /\ (forall e w',
     must_refresh forceRefresh (now env) (productCatalogCache w) = true ->
     fetchProducts env w = (Throw e, w') ->
     getProductCatalog forceRefresh env w = (Throw e, w'))
  /\ (forall e,
     products_list (gateway env) = Throw e ->
     exists w', fetchProducts env w = (Throw e, w')
       /\ productCatalogCache w' = productCatalogCache w)
  /\ (forall e ps,
     products_list (gateway env) = Ok ps ->
     prices_list (gateway env) = Throw e ->
     exists w', fetchProducts env w = (Throw e, w')
       /\ productCatalogCache w' = productCatalogCache w)
  /\ (forall ps prs product s m,
     products_list (gateway env) = Ok ps ->
     prices_list (gateway env) = Ok prs ->
     product ∈ ps ->
     product_metadata product !! "features" = Some s -> s <> "" ->
     JSON_parse s = inl m ->
     exists m' w', fetchProducts env w = (Throw (SyntaxError m'), w')
       /\ productCatalogCache w' = productCatalogCache w).
Proof.
  split; [|split; [|split; [|split]]].
  - intros e w'. apply getProductCatalog_Throw.
  - intros e w' Hmust Hfetch. unfold getProductCatalog. by rewrite Hmust.
  - intros e He. unfold fetchProducts. rewrite He. eauto.
  - intros e ps Hps He. unfold fetchProducts. rewrite Hps, He. eauto.
  - intros ps prs product s m Hps Hprs Hin Hs Hne Hm.
    pose proof (features_of_malformed product s m Hs Hne Hm) as Hbad.
    destruct (organizeProductCatalog_Throw ps prs product m Hin Hbad) as [m' Horg].
    unfold fetchProducts. rewrite Hps, Hprs, Horg. eauto.
Qed.

(** C7 (amended): a read against a cache that was never populated always
    attempts a refresh.  It answers with the plan list of the refreshed
    snapshot when the refresh succeeds, which is the empty list when the
    gateway lists no product, and with an error when the refresh fails. *)
Theorem never_populated_read_refreshes refresh env w :
  lastUpdated (productCatalogCache w) = None ->
  getProductCatalog (bool_decide (refresh = Some "true")) env w
  = fetchProducts env w
  /\ (forall e w',
     fetchProducts env w = (Throw e, w') ->
     get_products refresh env w
     = (ErrorJson 500 "Failed to fetch product catalog" (error_message e), w'))
  /\ (forall snapshot w',
     fetchProducts env w = (Ok snapshot, w') ->
     get_products refresh env w
     = (CatalogJson (products snapshot) (lastUpdated snapshot)
          (cacheExpiry snapshot), w'))
  /\ (forall prs,
     products_list (gateway env) = Ok [] ->
     prices_list (gateway env) = Ok prs ->
     exists w',
       get_products refresh env w
       = (CatalogJson [] (Some (refreshed_at env)) (5 * 60 * 1000), w')).
Proof.
  intros Hnever.
  assert (getProductCatalog (bool_decide (refresh = Some "true")) env w
          = fetchProducts env w) as Hget.
  { unfold getProductCatalog, must_refresh, cacheExpired. rewrite Hnever.
    by rewrite orb_true_r. }
  split; [exact Hget|]. unfold get_products. rewrite Hget.
  split; [|split].
  - by intros e w' ->.
  - by intros snapshot w' ->.
  - intros prs Hps Hprs. unfold fetchProducts. rewrite Hps, Hprs. cbn. eauto.
Qed.

Lemma inherited_Absent k :
  inherited_name k = false -> JSObject.inherited k = JSObject.Absent.
Proof.
  unfold inherited_name, method_name, JSObject.inherited.
  intros [Hp Hm]%orb_false_iff. by rewrite Hp, Hm.
Qed.

Lemma variant_get_inherited variant k :
  variant_field k = false -> variant_get variant k = inherited_get k.
Proof.
  unfold variant_field. intros Hk%bool_decide_eq_false.
  unfold variant_get.
  repeat (case_bool_decide;
          [exfalso; apply Hk; subst k; repeat first [left | right]|]).
  done.
Qed.

Lemma prices_get_Method lookup k name :
  prices_get lookup k = Method name -> method_name k = true.
Proof.
  unfold prices_get, JSObject.inherited, method_name.
  destruct (JSObject.own lookup !! k); [done|].
  destruct (JSObject.prototype lookup) as [p|].
  - destruct (p !! k); [done|]. case_bool_decide; [done|]. by case_bool_decide.
  - case_bool_decide; [done|]. by case_bool_decide.
Qed.


End ServiceClaims.

(** ** The scenarios of the specification, and the claims at sample inputs *)
Section Scenarios.
#[local] Existing Instance Sample.parser.
#[local] Existing Instance Sample.engine.
Import Sample.

(** Scenario A: one product, one monthly price that names it by a string. *)
Lemma scenario_A :
  organizeProductCatalog [essential] [string_price]
  = Ok (catalog_of_essential {[ "monthly" := monthly_4900 ]}).
Proof. vm_compute. reflexivity. Qed.

(** Scenario B: the same price with the product expanded to an object. *)
Lemma scenario_B :
  organizeProductCatalog [essential] [object_price] = Ok (catalog_of_essential ∅).
Proof. vm_compute. reflexivity. Qed.

(** Scenario D: features that are not JSON. *)
Lemma scenario_D :
  organizeProductCatalog [essential; broken] [string_price]
  = Throw (SyntaxError "Unexpected token").
Proof. vm_compute. reflexivity. Qed.

Lemma reads_fetch_at_most_once_witness :
  getProductCatalog false (first_call gateway_essential) initial_world
  = (Ok essential_cache, essential_world)
  /\ products essential_cache <> []
  /\ lastUpdated essential_cache = Some 1700000000250
  /\ now (next_call gateway_down) - 1700000000250 <= cacheExpiry essential_cache
  /\ getProductCatalog false (next_call gateway_down) essential_world
     = (Ok essential_cache, essential_world)
  /\ fetches essential_world = 1%nat
  /\ fetches (getProductCatalog true (next_call gateway_down) essential_world).2
     = 2%nat.
Proof.
  destruct reads_fetch_at_most_once as [Hpair Hforce].
  assert (getProductCatalog false (first_call gateway_essential) initial_world
          = (Ok essential_cache, essential_world)) as Hfirst
    by (vm_compute; reflexivity).
  assert (products essential_cache <> []) as Hne by (vm_compute; discriminate).
  assert (lastUpdated essential_cache = Some 1700000000250) as Ht by reflexivity.
  assert (now (next_call gateway_down) - 1700000000250
          <= cacheExpiry essential_cache) as Hage by (vm_compute; discriminate).
  assert (1700000000250 <> 0) as Ht0 by lia.
  destruct (Hpair _ (next_call gateway_down) _ _ _ _ Hfirst Hne Ht Ht0 Hage)
    as [Hsecond Hcount].
  exact (conj Hfirst (conj Hne (conj Ht (conj Hage (conj Hsecond (conj Hcount
           (Hforce (next_call gateway_down) essential_world))))))).
Defined.

(** C1, as stated, fails on a catalog without products: the gateway lists
    nothing, the first [get(false)] refreshes, and the second, one minute
    later and within the TTL, fetches again and replaces the snapshot. *)
Lemma empty_catalog_fetched_again :
  getProductCatalog false (first_call gateway_empty) initial_world
  = (Ok (empty_cache_at 1700000000250), empty_world_1)
  /\ cacheExpired (now (next_call gateway_empty)) (empty_cache_at 1700000000250)
     = false
  /\ getProductCatalog false (next_call gateway_empty) empty_world_1
     = (Ok (empty_cache_at 1700000060250), empty_world_2)
  /\ empty_cache_at 1700000060250 <> empty_cache_at 1700000000250
  /\ fetches empty_world_2 = 2%nat.
Proof.
  repeat split; try (vm_compute; reflexivity).
  intros Heq. apply (f_equal lastUpdated) in Heq. discriminate Heq.
Qed.

Lemma refresh_failure_keeps_snapshot_witness :
  must_refresh false (now (late_call gateway_broken)) essential_cache = true
  /\ broken ∈ [essential; broken]
  /\ product_metadata broken !! "features" = Some "not-json"
  /\ JSON_parse "not-json" = inl "Unexpected token"
  /\ (exists m' w',
        fetchProducts (late_call gateway_broken) essential_world
        = (Throw (SyntaxError m'), w')
        /\ productCatalogCache w' = essential_cache)
  /\ (exists w',
        fetchProducts (late_call gateway_down) essential_world
        = (Throw (GatewayError "connection refused"), w')
        /\ productCatalogCache w' = essential_cache).
Proof.
  destruct (refresh_failure_keeps_snapshot false (late_call gateway_broken)
              essential_world) as (_ & _ & _ & _ & Hjson).
  destruct (refresh_failure_keeps_snapshot false (late_call gateway_down)
              essential_world) as (_ & _ & Hdown & _).
  assert (broken ∈ [essential; broken]) as Hin by (right; left).
  assert (product_metadata broken !! "features" = Some "not-json") as Hs
    by (vm_compute; reflexivity).
  assert (JSON_parse "not-json" = inl "Unexpected token") as Hm
    by (vm_compute; reflexivity).
  assert (must_refresh false (now (late_call gateway_broken)) essential_cache
          = true) as Hstale by (vm_compute; reflexivity).
  assert ("not-json" <> "") as Hne by discriminate.
  exact (conj Hstale (conj Hin (conj Hs (conj Hm (conj
           (Hjson [essential; broken] [string_price] broken "not-json"
              "Unexpected token" eq_refl eq_refl Hin Hs Hne Hm)
           (Hdown (GatewayError "connection refused") eq_refl)))))).
Defined.

Lemma organize_one_plan_per_product_witness :
  Forall (fun product => exists fs, features_of product = Ok fs) [essential; growth]
  /\ exists catalog,
       organizeProductCatalog [essential; growth] [string_price] = Ok catalog
       /\ length (catalog_products catalog) = 2%nat
       /\ plan_product <$> catalog_products catalog ≡ₚ ["prod_123"; "prod_456"]
       /\ (NoDup ["prod_123"; "prod_456"] ->
           length (catalog_products catalog)
           = length (remove_dups ["prod_123"; "prod_456"])).
Proof.
  assert (Forall (fun product => exists fs, features_of product = Ok fs)
            [essential; growth]) as Hparse.
  { repeat constructor; eexists; vm_compute; reflexivity. }
  split; [exact Hparse|].
  exact (organize_one_plan_per_product [essential; growth] [string_price] Hparse).
Defined.

(** C3, as stated, fails when an identifier occurs twice in the product
    list: two plans come out for one distinct identifier. *)
Lemma repeated_product_gives_two_plans :
  exists catalog,
    organizeProductCatalog [essential; essential] [string_price] = Ok catalog
    /\ length (catalog_products catalog) = 2%nat
    /\ length (remove_dups (product_id <$> [essential; essential])) = 1%nat.
Proof. eexists. repeat split; vm_compute; reflexivity. Qed.

Lemma price_keys_last_wins_witness :
  Forall (fun product => exists fs, features_of product = Ok fs) [essential]
  /\ exists catalog key later before after,
       organizeProductCatalog [essential] [string_price; weekly_price; raised_price]
       = Ok catalog
       /\ ((key = "monthly"
            /\ exists r, recurring string_price = Some r /\ interval r = "month")
           \/ (key = "yearly"
            /\ exists r, recurring string_price = Some r /\ interval r <> "month")
           \/ (key = "one_time" /\ recurring string_price = None))
       /\ [string_price; weekly_price; raised_price] = before ++ later :: after
       /\ price_product later = RefId "prod_123"
       /\ price_key later = key
       /\ Forall (fun q => price_product q = RefId "prod_123" ->
                           price_key q <> key) after
       /\ (string_price = later \/ string_price ∈ before)
       /\ (exists plan, plan ∈ catalog_products catalog
             /\ plan_product plan = "prod_123")
       /\ (forall plan,
             plan ∈ catalog_products catalog ->
             plan_product plan = "prod_123" ->
             plan_prices plan !! key
             = Some {| priceId := price_id later;
                       unitAmount := unit_amount later;
                       variant_currency := currency later;
                       variant_interval := interval <$> recurring later;
                       intervalCount := interval_count <$> recurring later |}).
Proof.
  assert (Forall (fun product => exists fs, features_of product = Ok fs)
            [essential]) as Hparse.
  { repeat constructor; eexists; vm_compute; reflexivity. }
  split; [exact Hparse|].
  exact (price_keys_last_wins [essential]
           [string_price; weekly_price; raised_price] essential string_price
           Hparse (list_elem_of_here _ _) (list_elem_of_here _ _) eq_refl).
Defined.

(** The last of two monthly prices of one product is the one stored. *)
Lemma raised_price_overwrites :
  organizeProductCatalog [essential] [string_price; weekly_price; raised_price]
  = Ok (catalog_of_essential
          {[ "monthly" := {| priceId := "price_2";
                             unitAmount := 5900;
                             variant_currency := "usd";
                             variant_interval := Some "month";
                             intervalCount := Some 1 |};
             "yearly" := {| priceId := "price_3";
                            unitAmount := 1500;
                            variant_currency := "usd";
                            variant_interval := Some "week";
                            intervalCount := Some 1 |} ]}).
Proof. vm_compute. reflexivity. Qed.

Lemma plan_prices_from_input_witness :
  organizeProductCatalog [essential] [string_price]
  = Ok (catalog_of_essential {[ "monthly" := monthly_4900 ]})
  /\ essential_plan {[ "monthly" := monthly_4900 ]}
     ∈ catalog_products (catalog_of_essential {[ "monthly" := monthly_4900 ]})
  /\ exists price, price ∈ [string_price]
       /\ price_product price = RefId "prod_123"
       /\ price_key price = "monthly"
       /\ monthly_4900 = price_variant price.
Proof.
  assert (organizeProductCatalog [essential] [string_price]
          = Ok (catalog_of_essential {[ "monthly" := monthly_4900 ]})) as Horg
    by (vm_compute; reflexivity).
  assert (essential_plan {[ "monthly" := monthly_4900 ]}
          ∈ catalog_products (catalog_of_essential {[ "monthly" := monthly_4900 ]}))
    as Hin by left.
  split; [exact Horg|]. split; [exact Hin|].
  destruct (proj1 (plan_prices_from_input _ _ _ Horg) _ "monthly" monthly_4900 Hin)
    as (price & Hprice & Href & Hkey & Hv & _).
  { vm_compute. reflexivity. }
  exists price. exact (conj Hprice (conj Href (conj Hkey Hv))).
Defined.

(** C5, as stated, fails for a price of interval "week": the plan has
    the key "yearly" and the input has no price of interval "year". *)
Lemma weekly_price_stored_as_yearly :
  organizeProductCatalog [essential] [weekly_price]
  = Ok (catalog_of_essential {[ "yearly" := price_variant weekly_price ]})
  /\ plan_prices (essential_plan {[ "yearly" := price_variant weekly_price ]})
       !! "yearly"
     = Some (price_variant weekly_price)
  /\ variant_interval (price_variant weekly_price) = Some "week"
  /\ forall price r,
       price ∈ [weekly_price] -> recurring price = Some r -> interval r = "week".
Proof.
  split; [vm_compute; reflexivity|]. split; [vm_compute; reflexivity|].
  split; [reflexivity|].
  intros price r Hprice%list_elem_of_singleton Hr. subst price.
  by injection Hr as <-.
Qed.

Lemma object_reference_matches_nothing_witness :
  organizeProductCatalog [essential] [object_price] = Ok (catalog_of_essential ∅)
  /\ essential ∈ [essential]
  /\ productPrices essential [object_price] = []
  /\ forall plan, plan ∈ catalog_products (catalog_of_essential ∅) ->
       plan_product plan = "prod_123" -> plan_prices plan = ∅.
Proof.
  assert (organizeProductCatalog [essential] [object_price]
          = Ok (catalog_of_essential ∅)) as Horg by (vm_compute; reflexivity).
  assert (essential ∈ [essential]) as Hin by left.
  destruct (object_reference_matches_nothing _ _ _ essential Horg Hin)
    as (Hnone & _ & Hplans).
  { intros price Hprice _. apply list_elem_of_singleton in Hprice as ->.
    reflexivity. }
  exact (conj Horg (conj Hin (conj Hnone Hplans))).
Defined.

Lemma organize_sorted_stable_witness :
  exists catalog,
    organizeProductCatalog [growth; essential] [string_price] = Ok catalog
    /\ exists plans,
         plans_of [string_price] [growth; essential] plans
         /\ catalog_products catalog ≡ₚ plans
         /\ StronglySorted (fun a b => displayOrder a <= displayOrder b)
              (catalog_products catalog)
         /\ forall d,
              List.filter (fun plan => displayOrder plan =? d)
                (catalog_products catalog)
              = List.filter (fun plan => displayOrder plan =? d) plans.
Proof.
  destruct (organizeProductCatalog [growth; essential] [string_price])
    as [catalog|e] eqn:Horg; [|vm_compute in Horg; discriminate Horg].
  exists catalog. split; [reflexivity|].
  exact (organize_sorted_stable _ _ _ Horg).
Defined.

Lemma display_order_zero_is_default_witness :
  product_metadata growth !! "display_order" = Some "0"
  /\ JS.parseInt_string "0" = Some 0
  /\ displayOrder_of growth = 999
  /\ 0 < displayOrder_of essential < 999
  /\ exists catalog,
       organizeProductCatalog [growth; essential] [] = Ok catalog
       /\ plan_product <$> catalog_products catalog = ["prod_123"; "prod_456"].
Proof.
  destruct display_order_zero_is_default as (Hparse & Hzero & Horder).
  assert (product_metadata growth !! "display_order" = Some "0") as Hs
    by (vm_compute; reflexivity).
  assert (0 < displayOrder_of essential < 999) as Hother
    by (vm_compute; split; reflexivity).
  split; [exact Hs|]. split; [exact Hparse|].
  split; [exact (Hzero growth "0" Hs Hparse)|]. split; [exact Hother|].
  destruct (organizeProductCatalog [growth; essential] [])
    as [catalog|e] eqn:Horg; [|vm_compute in Horg; discriminate Horg].
  exists catalog. split; [reflexivity|].
  exact (Horder growth essential "0" [] catalog Hs Hparse Hother Horg).
Defined.

Lemma never_populated_read_refreshes_witness :
  lastUpdated (productCatalogCache initial_world) = None
  /\ getProductCatalog false (first_call gateway_empty) initial_world
     = fetchProducts (first_call gateway_empty) initial_world
  /\ exists w',
       get_products None (first_call gateway_empty) initial_world
       = (CatalogJson [] (Some 1700000000250) 300000, w').
Proof.
  assert (lastUpdated (productCatalogCache initial_world) = None) as Hnever
    by reflexivity.
  destruct (never_populated_read_refreshes None (first_call gateway_empty)
              initial_world Hnever) as (Hget & _ & _ & Hempty).
  exact (conj Hnever (conj Hget (Hempty [] eq_refl eq_refl))).
Defined.

(** C7, as stated, fails when the gateway is down: the read against the
    never populated cache is answered with an error, not with an empty plan
    list; and when the gateway lists a product the list is not empty. *)
Lemma never_populated_read_fails :
  get_products None (first_call gateway_down) initial_world
  = (ErrorJson 500 "Failed to fetch product catalog" "connection refused",
     call ProductsList initial_world)
  /\ getProductCatalog false (first_call gateway_down) initial_world
     = (Throw (GatewayError "connection refused"), call ProductsList initial_world)
  /\ get_products None (first_call gateway_essential) initial_world
     = (CatalogJson [essential_plan {[ "monthly" := monthly_4900 ]}]
          (Some 1700000000250) 300000, essential_world).
Proof. repeat split; vm_compute; reflexivity. Qed.



(** The names that every object inherits are absent from the snapshot, and
    [validatePriceId] answers [undefined] or throws for them; the getter of
    [__proto__] gives [Object.prototype], which has no price. *)
Lemma validatePriceId_inherited_names :
  price_at essential_cache "essential" "constructor" = None
  /\ validatePriceId "essential" "constructor" (next_call gateway_down)
       essential_world
     = (Ok VUndefined, essential_world)
  /\ validatePriceId "constructor" "name" (next_call gateway_down) essential_world
     = (Ok VUndefined, essential_world)
  /\ (exists m,
        validatePriceId "constructor" "caller" (next_call gateway_down)
          essential_world
        = (Throw (TypeError m), essential_world))
  /\ validatePriceId "toString" "length" (next_call gateway_down) essential_world
     = (Ok VNull, essential_world)
  /\ validatePriceId "__proto__" "monthly" (next_call gateway_down) essential_world
     = (Ok VNull, essential_world).
Proof.
  repeat split; try (vm_compute; reflexivity).
  eexists. vm_compute. reflexivity.
Qed.

End Scenarios.

(** ** The organizer: further properties *)
Section OrganizerProperties.
Context `{JSONParser}.

(** X1: in the lookup of an organize output, the read [prices[planId]]
    gives the price variations of the last product of the input list that
    has this plan identifier; they are an own property of the lookup,
    unless the identifier is "__proto__", for which they are its
    prototype.  When no product has the identifier, the lookup has no own
    property of that name and the read gives no price variations. *)
Theorem lookup_last_product_wins products prices catalog pid :
  organizeProductCatalog products prices = Ok catalog ->
  match last (filter (fun product => planId_of product = pid) products) with
  | Some product =>
      prices_get (catalog_prices catalog) pid
      = Variations (priceVariations_of product prices)
      /\ JSObject.own (catalog_prices catalog) !! pid
         = (if bool_decide (pid = "__proto__") then None
            else Some (priceVariations_of product prices))
      /\ (pid = "__proto__" ->
          JSObject.prototype (catalog_prices catalog)
          = Some (priceVariations_of product prices))
  | None =>
      JSObject.own (catalog_prices catalog) !! pid = None
      /\ (pid = "__proto__" -> JSObject.prototype (catalog_prices catalog) = None)
      /\ forall m, prices_get (catalog_prices catalog) pid <> Variations m
  end.
Proof.
  intros Horg. apply organizeProductCatalog_Ok in Horg as (plans & Hplans & ->).
  cbn [catalog_prices].
  pose proof (store_prices_last _ _ _ JSObject.empty pid Hplans) as Hlast.
  pose proof (store_prices_own_proto plans JSObject.empty eq_refl) as Hown.
  rewrite assigned_empty in Hlast.
  destruct (last _) as [product|].
  - split; [by apply (organized_prices_get _ _ _ _ _ Hplans)|].
    unfold assigned in Hlast. case_bool_decide as Hpid.
    + subst pid. by split.
    + split; [done|]. by intros.
  - unfold assigned in Hlast. case_bool_decide as Hpid.
    + subst pid. split; [done|]. split; [done|]. intros m Hm.
      apply (organized_prices_get _ _ _ _ _ Hplans) in Hm.
      unfold assigned in Hm. rewrite bool_decide_eq_true_2 in Hm by done.
      congruence.
    + split; [done|]. split; [done|]. intros m Hm.
      apply (organized_prices_get _ _ _ _ _ Hplans) in Hm.
      rewrite assigned_own in Hm by done. congruence.
Qed.

(** X2: in an organize output the read [prices[planId]] gives price
    variations for the identifier of every plan of the list, the price
    variations that a read gives are the prices of a plan of the list with
    that identifier, and every key of [Object.keys(prices)] is the
    identifier of a plan; so there are at most as many keys as plans.  When
    the plan identifiers of the products are pairwise distinct, the read
    gives each plan its own prices, and there is one key for each plan but
    the plan named "__proto__", which gets none. *)
Theorem lookup_agrees_with_plans products prices catalog :
  organizeProductCatalog products prices = Ok catalog ->
  (forall plan, plan ∈ catalog_products catalog ->
     exists m, prices_get (catalog_prices catalog) (planId plan) = Variations m)
  /\ (forall pid m, prices_get (catalog_prices catalog) pid = Variations m ->
        exists plan, plan ∈ catalog_products catalog /\ planId plan = pid
          /\ plan_prices plan = m)
  /\ (forall pid, is_Some (JSObject.own (catalog_prices catalog) !! pid) ->
        pid <> "__proto__"
        /\ exists plan, plan ∈ catalog_products catalog /\ planId plan = pid)
  /\ (size (JSObject.own (catalog_prices catalog))
      <= length (catalog_products catalog))%nat
  /\ (NoDup (planId_of <$> products) ->
        (size (JSObject.own (catalog_prices catalog))
         + (if bool_decide ("__proto__" ∈ planId_of <$> products) then 1 else 0)
         = length (catalog_products catalog))%nat
        /\ forall plan, plan ∈ catalog_products catalog ->
             prices_get (catalog_prices catalog) (planId plan)
             = Variations (plan_prices plan)).
Proof.
  intros Horg. apply organizeProductCatalog_Ok in Horg as (plans & Hplans & ->).
  cbn [catalog_products catalog_prices].
  pose proof (Permutation_length (sort_plans_Permutation plans)) as Hlen.
  destruct (organized_lookup _ _ _ Hplans) as (Hall & Hsome & Hsize).
  pose proof (store_prices_own_proto plans JSObject.empty eq_refl) as Hown.
  split; [|split; [|split; [|split]]].
  - intros plan Hin. rewrite (sort_plans_Permutation plans) in Hin. by apply Hall.
  - intros pid m Hm. destruct (Hsome pid m Hm) as (plan & Hin & ? & ?).
    exists plan. by rewrite (sort_plans_Permutation plans).
  - intros pid [m Hm].
    assert (pid <> "__proto__") as Hpid by (intros ->; congruence).
    split; [done|].
    destruct (Hsome pid m) as (plan & Hin & ? & _).
    { apply (organized_prices_get _ _ _ _ _ Hplans). by rewrite assigned_own. }
    exists plan. by rewrite (sort_plans_Permutation plans).
  - by rewrite Hlen.
  - intros Hnd. rewrite <- (plans_of_planIds _ _ _ Hplans) in *. split.
    + rewrite Hlen. by rewrite store_prices_size_NoDup.
    + intros plan Hin. rewrite (sort_plans_Permutation plans) in Hin.
      destruct (Hall plan Hin) as [m Hm]. rewrite Hm. f_equal.
      destruct (Hsome _ _ Hm) as (q & Hq & Hid & <-).
      assert (q ∈ filter (fun y => planId y = planId plan) plans) as Hfq
        by (by apply list_elem_of_filter).
      rewrite (filter_same_key_NoDup planId plans plan Hnd Hin) in Hfq.
      by apply list_elem_of_singleton in Hfq as ->.
Qed.

(** X4: the display order of a plan is never 0; it is 999 when the product
    has no [display_order] metadata. *)
Theorem displayOrder_never_zero products prices catalog :
  organizeProductCatalog products prices = Ok catalog ->
  (forall plan, plan ∈ catalog_products catalog -> displayOrder plan <> 0)
  /\ (forall product, product ∈ products ->
        product_metadata product !! "display_order" = None ->
        exists plan, plan ∈ catalog_products catalog
          /\ plan_product plan = product_id product /\ displayOrder plan = 999).
Proof.
  intros Horg. apply organizeProductCatalog_Ok in Horg as (plans & Hplans & ->).
  cbn [catalog_products]. split.
  - intros plan Hin. rewrite (sort_plans_Permutation plans) in Hin.
    destruct (plans_of_elem _ _ _ _ Hplans Hin) as (product & _ & Hplan).
    apply organizeProduct_Ok in Hplan as (_ & _ & -> & _).
    unfold displayOrder_of, JS.number_or.
    destruct (JS.parseInt _) as [v|]; [|done].
    destruct (Z.eqb_spec v 0); [done|done].
  - intros product Hin Hnone.
    assert (exists plan, plan ∈ plans /\ organizeProduct prices product = Ok plan)
      as (plan & Hplan & Horg).
    { clear -Hplans Hin. induction Hplans as [|p q ps qs Hq _ IH];
        [by apply elem_of_nil in Hin|].
      apply elem_of_cons in Hin as [->|Hin].
      - exists q. split; [left|done].
      - destruct (IH Hin) as (plan & ? & ?). exists plan. split; [by right|done]. }
    exists plan. rewrite (sort_plans_Permutation plans). split; [done|].
    apply organizeProduct_Ok in Horg as (-> & _ & -> & _). split; [done|].
    unfold displayOrder_of. by rewrite Hnone.
Qed.

End OrganizerProperties.

Lemma is_upper_lower_char c : is_upper (JS.lower_char c) = false.
Proof. destruct c as [[] [] [] [] [] [] [] []]; vm_compute; reflexivity. Qed.

Lemma replace_spaces_from_clean in_run s :
  string_forall (fun c => negb (JS.is_space c) && negb (is_upper c))
    (JS.replace_spaces_from in_run (JS.toLowerCase s)) = true.
Proof.
  revert in_run. induction s as [|c s IH]; intros in_run; [done|].
  cbn [JS.toLowerCase JS.replace_spaces_from].
  destruct (JS.is_space (JS.lower_char c)) eqn:Hspace.
  - destruct in_run; [apply IH|]. cbn [string_forall]. by rewrite IH.
  - cbn [string_forall]. by rewrite Hspace, is_upper_lower_char, IH.
Qed.

(** X3: a product without [plan_id] metadata, or with an empty one, gets
    the slug of its name as plan identifier, which holds no white space
    and no upper-case letter; a non-empty [plan_id] is taken as it is. *)
Theorem planId_slug product :
  (product_metadata product !! "plan_id" = None
   \/ product_metadata product !! "plan_id" = Some "" ->
   planId_of product = JS.replace_spaces (JS.toLowerCase (product_name product))
   /\ string_forall (fun c => negb (JS.is_space c) && negb (is_upper c))
        (planId_of product) = true)
  /\ (forall s, product_metadata product !! "plan_id" = Some s -> s <> "" ->
        planId_of product = s).
Proof.
  split.
  - intros Hnone.
    assert (planId_of product
            = JS.replace_spaces (JS.toLowerCase (product_name product))) as ->.
    { unfold planId_of. by destruct Hnone as [-> | ->]. }
    split; [done|]. apply replace_spaces_from_clean.
  - intros s Hs Hne. unfold planId_of. rewrite Hs. by destruct s.
Qed.

(** ** The debug organizer *)
Section DebugFacts.
Context `{JSONParser}.

Lemma debug_add_price_delete m price :
  debug_add_price (delete "one_time" m) price
  = delete "one_time" (add_price m price).
Proof.
  unfold debug_add_price, add_price, price_key, price_variant.
  destruct (recurring price) as [r|].
  - rewrite delete_insert_ne; [done|].
    unfold intervalKey. by case_bool_decide.
  - by rewrite delete_insert_eq.
Qed.

Lemma debug_fold_delete l m :
  fold_left debug_add_price l (delete "one_time" m)
  = delete "one_time" (fold_left add_price l m).
Proof.
  revert m. induction l as [|price l IH]; intros m; [done|].
  cbn [fold_left]. by rewrite debug_add_price_delete, IH.
Qed.

Lemma debug_priceVariations_delete product prices :
  debug_priceVariations product prices
  = delete "one_time" (priceVariations_of product prices).
Proof.
  unfold debug_priceVariations, priceVariations_of.
  by rewrite <- debug_fold_delete, delete_empty.
Qed.

Lemma debug_fold_store prices products plans lookup :
  plans_of prices products plans ->
  fold_left (debug_step prices) products (map_assigned (delete "one_time") lookup)
  = map_assigned (delete "one_time") (store_prices plans lookup).
Proof.
  intros Hplans. revert lookup.
  induction Hplans as [|product plan products plans Hplan _ IH]; intros lookup;
    [done|].
  apply organizeProduct_Ok in Hplan as (_ & Hid & _ & Hprices & _).
  rewrite store_prices_cons. cbn [fold_left].
  rewrite <- IH. f_equal. unfold debug_step, map_assigned, JSObject.set.
  rewrite Hid, Hprices, debug_priceVariations_delete.
  case_bool_decide; cbn; [done|]. by rewrite fmap_insert.
Qed.

Lemma debug_fold_last prices products lookup pid :
  assigned (fold_left (debug_step prices) products lookup) pid
  = match last (filter (fun product => planId_of product = pid) products) with
    | Some product => Some (delete "one_time" (priceVariations_of product prices))
    | None => assigned lookup pid
    end.
Proof.
  revert lookup. induction products as [|product rest IH]; intros lookup; [done|].
  cbn [fold_left]. rewrite IH, filter_cons. unfold debug_step.
  rewrite assigned_set, debug_priceVariations_delete.
  destruct (decide (planId_of product = pid)) as [Hpid|Hpid].
  - rewrite last_cons. by destruct (last _).
  - by destruct (last _).
Qed.

Lemma debug_fold_own_proto prices products lookup :
  JSObject.own lookup !! "__proto__" = None ->
  JSObject.own (fold_left (debug_step prices) products lookup) !! "__proto__" = None.
Proof.
  revert lookup. induction products as [|product rest IH]; intros lookup Hown;
    [done|].
  cbn [fold_left]. by apply IH, own_set_proto.
Qed.

Lemma debug_prices_get prices products pid m :
  prices_get (debug_organizedPrices products prices) pid = Variations m
  <-> assigned (debug_organizedPrices products prices) pid = Some m.
Proof.
  apply prices_get_Variations.
  - by apply debug_fold_own_proto.
  - intros p Hp.
    assert (assigned (debug_organizedPrices products prices) "__proto__" = Some p)
      as Ha by (unfold assigned; by rewrite bool_decide_eq_true_2).
    unfold debug_organizedPrices in Ha. rewrite debug_fold_last in Ha.
    destruct (last _) as [product|]; [|by rewrite assigned_empty in Ha].
    injection Ha as <-. rewrite lookup_delete_ne by done.
    destruct (priceVariations_of product prices !! "__proto__") eqn:Hk; [|done].
    assert ("__proto__" ∈ ["monthly"; "yearly"; "one_time"]) as Hin
      by (apply (priceVariations_of_keys product prices); eauto).
    repeat (apply elem_of_cons in Hin as [Hin|Hin]; [discriminate Hin|]).
    by apply elem_of_nil in Hin.
Qed.

(** X10: the price mapping computed by the debug script and by
    [GET /debug-catalog] is the lookup of the organizer with the "one_time"
    keys removed from the price variations assigned to it: its own
    properties and, after an assignment to "__proto__", its prototype.  It
    is computed for every input, also when a features metadata is not
    JSON: the read [organizedPrices[planId]] gives the recurring prices of
    the last product with this plan identifier, which are an own property
    unless the identifier is "__proto__". *)
Theorem debug_prices_are_recurring_prices products prices :
  (forall product,
     debug_priceVariations product prices
     = delete "one_time" (priceVariations_of product prices))
  /\ (forall catalog,
     organizeProductCatalog products prices = Ok catalog ->
     debug_organizedPrices products prices
     = map_assigned (delete "one_time") (catalog_prices catalog))
  /\ (forall pid,
     match last (filter (fun product => planId_of product = pid) products) with
     | Some product =>
         prices_get (debug_organizedPrices products prices) pid
         = Variations (delete "one_time" (priceVariations_of product prices))
         /\ JSObject.own (debug_organizedPrices products prices) !! pid
            = (if bool_decide (pid = "__proto__") then None
               else Some (delete "one_time" (priceVariations_of product prices)))
     | None =>
         JSObject.own (debug_organizedPrices products prices) !! pid = None
         /\ forall m,
              prices_get (debug_organizedPrices products prices) pid
              <> Variations m
     end).
Proof.
  split; [intros product; apply debug_priceVariations_delete|]. split.
  - intros catalog Horg.
    apply organizeProductCatalog_Ok in Horg as (plans & Hplans & ->).
    cbn [catalog_prices]. by rewrite <- (debug_fold_store _ _ _ _ Hplans).
  - intros pid.
    pose proof (debug_fold_last prices products JSObject.empty pid) as Hlast.
    fold (debug_organizedPrices products prices) in Hlast.
    pose proof (debug_fold_own_proto prices products JSObject.empty eq_refl)
      as Hown.
    fold (debug_organizedPrices products prices) in Hown.
    rewrite assigned_empty in Hlast.
    destruct (last _) as [product|].
    + split; [by apply debug_prices_get|].
      unfold assigned in Hlast. by case_bool_decide as Hpid; [subst pid|].
    + assert (forall m, prices_get (debug_organizedPrices products prices) pid
                        <> Variations m) as Hno.
      { intros m Hm. apply debug_prices_get in Hm. congruence. }
      split; [|done]. unfold assigned in Hlast.
      by case_bool_decide as Hpid; [subst pid|].
Qed.

End DebugFacts.

(** ** Further facts on the cache *)
Section CacheFacts.
Context `{JSONParser} `{Builtins}.

(** What a refresh leaves in the state: the cache as it was, or the
    organized replies of the gateway. *)
Lemma fetchProducts_cache env w :
  productCatalogCache (fetchProducts env w).2 = productCatalogCache w
  \/ exists ps prs catalog,
       organizeProductCatalog ps prs = Ok catalog
       /\ productCatalogCache (fetchProducts env w).2
          = {| products := catalog_products catalog;
               prices := catalog_prices catalog;
               lastUpdated := Some (refreshed_at env);
               cacheExpiry := 5 * 60 * 1000 |}.
Proof.
  unfold fetchProducts.
  destruct (products_list _) as [ps|]; [|by left].
  destruct (prices_list _) as [prs|]; [|by left].
  destruct (organizeProductCatalog ps prs) as [catalog|] eqn:Horg; [|by left].
  right. by exists ps, prs, catalog.
Qed.

(** The snapshot that a refresh returns is made of an organize output. *)
Lemma fetchProducts_Ok_inv env w cache w' :
  fetchProducts env w = (Ok cache, w') ->
  exists ps prs catalog,
    organizeProductCatalog ps prs = Ok catalog
    /\ cache = {| products := catalog_products catalog;
                  prices := catalog_prices catalog;
                  lastUpdated := Some (refreshed_at env);
                  cacheExpiry := 5 * 60 * 1000 |}.
Proof.
  unfold fetchProducts.
  destruct (products_list _) as [ps|]; [|done].
  destruct (prices_list _) as [prs|]; [|done].
  destruct (organizeProductCatalog ps prs) as [catalog|] eqn:Horg; [|done].
  intros [= <- _]. by exists ps, prs, catalog.
Qed.

Lemma organized_cache_ok ps prs catalog t :
  organizeProductCatalog ps prs = Ok catalog ->
  cache_ok {| products := catalog_products catalog;
              prices := catalog_prices catalog;
              lastUpdated := Some t;
              cacheExpiry := 5 * 60 * 1000 |}.
Proof.
  intros Horg.
  apply organizeProductCatalog_Ok in Horg as (plans & Hplans & ->).
  destruct (organized_lookup _ _ _ Hplans) as (Hall & Hsome & Hsize).
  pose proof (Permutation_length (sort_plans_Permutation plans)) as Hlen.
  unfold cache_ok.
  cbn [products prices lastUpdated cacheExpiry catalog_products catalog_prices].
  split; [done|]. split; [apply (sort_sorted displayOrder)|].
  split; [|split; [|split; [|done]]].
  - intros plan Hin. rewrite (sort_plans_Permutation plans) in Hin. by apply Hall.
  - intros pid m Hm. destruct (Hsome pid m Hm) as (plan & Hin & ? & ?).
    exists plan. by rewrite (sort_plans_Permutation plans).
  - by rewrite Hlen.
Qed.

Lemma fetchProducts_cache_ok env w :
  cache_ok (productCatalogCache w) ->
  cache_ok (productCatalogCache (fetchProducts env w).2).
Proof.
  intros Hok. destruct (fetchProducts_cache env w) as [->|(ps & prs & c & Horg & ->)];
    [done|]. by eapply organized_cache_ok.
Qed.

Lemma getProductCatalog_cache_ok forceRefresh env w :
  cache_ok (productCatalogCache w) ->
  cache_ok (productCatalogCache (getProductCatalog forceRefresh env w).2).
Proof.
  intros Hok. unfold getProductCatalog. destruct (must_refresh _ _ _); [|done].
  by apply fetchProducts_cache_ok.
Qed.

Lemma validatePriceId_world plan billingCycle env w :
  (validatePriceId plan billingCycle env w).2
  = (getProductCatalog false env w).2.
Proof.
  unfold validatePriceId.
  destruct (getProductCatalog false env w) as [[catalog|e] w']; [|done].
  destruct (prices_get (prices catalog) plan) as [m|v| |name|]; try done;
    destruct (planPrices_get _ billingCycle) as [price|]; try done;
    by destruct (falsy price).
Qed.

Lemma serve_world request env w :
  exists forceRefresh, serve request env w = (getProductCatalog forceRefresh env w).2.
Proof.
  destruct request as [refresh|plan| |plan billingCycle|]; cbn.
  - exists (bool_decide (refresh = Some "true")). unfold get_products.
    by destruct (getProductCatalog _ env w) as [[?|?] ?].
  - exists false. unfold get_product, getProductByPlanId.
    destruct (getProductCatalog false env w) as [[catalog|?] ?]; [|done].
    by destruct (List.find _ _).
  - exists true. unfold refresh_catalog.
    by destruct (getProductCatalog true env w) as [[?|?] ?].
  - exists false. apply validatePriceId_world.
  - exists true. unfold initializeProductCatalog.
    by destruct (getProductCatalog true env w) as [[?|?] ?].
Qed.

Lemma getProductCatalog_fetches forceRefresh env w :
  fetches (getProductCatalog forceRefresh env w).2
  = (fetches w
     + if must_refresh forceRefresh (now env) (productCatalogCache w)
       then 1 else 0)%nat.
Proof.
  unfold getProductCatalog. destruct (must_refresh _ _ _).
  - rewrite fetchProducts_fetches. lia.
  - cbn. lia.
Qed.

Lemma find_first {A} (f : A -> bool) (l : list A) x :
  List.find f l = Some x ->
  f x = true
  /\ exists before after, l = before ++ x :: after
       /\ Forall (fun y => f y = false) before.
Proof.
  induction l as [|y l IH]; [done|]. cbn. destruct (f y) eqn:Hy.
  - intros [= ->]. split; [done|]. by exists [], l.
  - intros Hfind. destruct (IH Hfind) as (Hx & before & after & -> & Hbefore).
    split; [done|]. exists (y :: before), after. split; [done|]. by constructor.
Qed.

Lemma find_absent {A} (f : A -> bool) (l : list A) :
  List.find f l = None <-> Forall (fun y => f y = false) l.
Proof.
  induction l as [|y l IH]; cbn; [by split; [constructor|]|].
  destruct (f y) eqn:Hy.
  - split; [done|]. intros Hall. apply Forall_cons in Hall as [Hy' _]. congruence.
  - rewrite IH. split; [by constructor|]. intros Hall.
    by apply Forall_cons in Hall as [_ ?].
Qed.

End CacheFacts.

(** ** The cache: further properties *)
Section CacheProperties.
Context `{JSONParser} `{Builtins}.

(** X5: a read that returns a snapshot never returns one that is past its
    TTL: either the snapshot was stored by a refresh made during this very
    read, or the read was not forced, left the state untouched, and the
    snapshot holds a plan and is at most [cacheExpiry] old. *)
Theorem read_is_fresh forceRefresh env w snapshot w' :
  getProductCatalog forceRefresh env w = (Ok snapshot, w') ->
  (lastUpdated snapshot = Some (refreshed_at env)
   /\ fetches w' = S (fetches w))
  \/ (forceRefresh = false /\ w' = w /\ products snapshot <> []
      /\ exists t, lastUpdated snapshot = Some t /\ t <> 0
           /\ now env - t <= cacheExpiry snapshot).
Proof.
  unfold getProductCatalog.
  destruct (must_refresh _ _ _) eqn:Hmust.
  - intros Hfetch. left. split.
    + revert Hfetch. unfold fetchProducts.
      destruct (products_list _); [|done].
      destruct (prices_list _); [|done].
      destruct (organizeProductCatalog _ _); [|done].
      by intros [= <- _].
    + pose proof (fetchProducts_fetches env w) as Hn. by rewrite Hfetch in Hn.
  - intros [= <- <-]. right. unfold must_refresh, cacheExpired in Hmust.
    destruct forceRefresh; [done|]. cbn in Hmust.
    destruct (lastUpdated (productCatalogCache w)) as [t|]; [|done].
    apply orb_false_iff in Hmust as [Hexp Hlen].
    apply orb_false_iff in Hexp as [Ht0 Hage].
    repeat split; try done.
    + intros Hnil. by rewrite Hnil in Hlen.
    + exists t. repeat split; try done; lia.
Qed.

(** X6: a read makes no gateway call when no refresh is due; when one is
    due it calls [products.list], and then [prices.list] only if
    [products.list] answered.  Nothing else is added to the log. *)
Theorem read_gateway_calls forceRefresh env w :
  gateway_calls (getProductCatalog forceRefresh env w).2
  = gateway_calls w
    ++ (if must_refresh forceRefresh (now env) (productCatalogCache w)
        then match products_list (gateway env) with
             | Ok _ => [ProductsList; PricesList]
             | Throw _ => [ProductsList]
             end
        else []).
Proof.
  unfold getProductCatalog. destruct (must_refresh _ _ _).
  - unfold fetchProducts. destruct (products_list _); [|done].
    destruct (prices_list _); cbn; [|by rewrite <- app_assoc].
    destruct (organizeProductCatalog _ _); cbn; by rewrite <- app_assoc.
  - by rewrite app_nil_r.
Qed.

(** X7: after any sequence of requests served from the initial state, the
    stored cache has the TTL of 5 minutes and its plans are in
    non-decreasing display order; the read [prices[planId]] gives price
    variations for the identifier of every stored plan, and the price
    variations that a read gives are the prices of a stored plan of that
    identifier; [Object.keys(prices)] has at most as many elements as there
    are plans; a cache that was never refreshed is empty; and the gateway
    was asked for the products at most once per request. *)
Theorem cache_invariant requests :
  cache_ok (productCatalogCache (run requests initial_world))
  /\ (fetches (run requests initial_world) <= length requests)%nat.
Proof.
  assert (forall w,
    cache_ok (productCatalogCache w) ->
    cache_ok (productCatalogCache (run requests w))
    /\ (fetches (run requests w) <= fetches w + length requests)%nat) as Hrun.
  { induction requests as [|[request env] rest IH]; intros w Hok; cbn [run length].
    - split; [done|lia].
    - destruct (serve_world request env w) as [forceRefresh Hserve].
      rewrite Hserve.
      destruct (IH (getProductCatalog forceRefresh env w).2) as [Hok' Hn].
      { by apply getProductCatalog_cache_ok. }
      split; [done|]. rewrite getProductCatalog_fetches in Hn.
      destruct (must_refresh _ _ _); lia. }
  apply Hrun. unfold cache_ok, initial_world, initial_cache.
  cbn [productCatalogCache products prices lastUpdated cacheExpiry].
  split; [done|]. split; [constructor|].
  split; [intros plan Hin; by apply elem_of_nil in Hin|].
  split; [|split; [|done]].
  - intros pid m. unfold prices_get, JSObject.empty.
    cbn [JSObject.own JSObject.prototype]. rewrite lookup_empty.
    by destruct (JSObject.inherited pid).
  - unfold JSObject.empty. cbn [JSObject.own length]. by rewrite map_size_empty.
Qed.

(** X8: [GET /products/:planId] answers with the first plan, in display
    order, whose plan identifier is the one asked for; it answers 404
    exactly when the read succeeds and no plan of the snapshot has this
    identifier, and 500 exactly when the read fails. *)
Theorem get_product_answers plan env w :
  (forall product w',
     get_product plan env w = (PlanJson product, w') ->
     planId product = plan
     /\ exists before after,
          products (productCatalogCache w') = before ++ product :: after
          /\ Forall (fun q => planId q <> plan) before)
  /\ (forall status error pid w',
     get_product plan env w = (PlanNotFoundJson status error pid, w') <->
     status = 404 /\ error = "Product not found" /\ pid = plan
     /\ exists snapshot,
          getProductCatalog false env w = (Ok snapshot, w')
          /\ Forall (fun q => planId q <> plan) (products snapshot))
  /\ (forall status error message w',
     get_product plan env w = (PlanFailedJson status error message, w') <->
     status = 500 /\ error = "Failed to fetch product details"
     /\ exists e, getProductCatalog false env w = (Throw e, w')
          /\ message = error_message e).
Proof.
  unfold get_product, getProductByPlanId.
  destruct (getProductCatalog false env w) as [[snapshot|e] w0] eqn:Hget.
  - pose proof (getProductCatalog_Ok _ _ _ _ _ Hget) as Hcache.
    destruct (List.find _ (products snapshot)) as [found|] eqn:Hfind.
    + split; [|split].
      * intros product w' [= <- <-].
        apply find_first in Hfind as (Hid & before & after & Hsplit & Hbefore).
        apply bool_decide_eq_true in Hid. split; [done|].
        exists before, after. rewrite Hcache. split; [done|].
        eapply Forall_impl; [exact Hbefore|]. intros q Hq.
        by apply bool_decide_eq_false in Hq.
      * intros status error pid w'. split; [done|].
        intros (_ & _ & _ & s & [= <- <-] & Hnone).
        apply find_first in Hfind as (Hid & before & after & Hsplit & _).
        apply bool_decide_eq_true in Hid. rewrite Hsplit in Hnone.
        apply Forall_app in Hnone as [_ Hnone].
        by apply Forall_cons in Hnone as [? _].
      * intros status error message w'. split; [done|].
        by intros (_ & _ & e & [=] & _).
    + apply find_absent in Hfind. split; [|split].
      * by intros product w' [=].
      * intros status error pid w'. split.
        -- intros [= <- <- <- <-]. repeat split; try done. exists snapshot.
           split; [done|]. eapply Forall_impl; [exact Hfind|]. intros q Hq.
           by apply bool_decide_eq_false in Hq.
        -- by intros (-> & -> & -> & s & [= <- <-] & _).
      * intros status error message w'. split; [done|].
        by intros (_ & _ & e & [=] & _).
  - split; [|split].
    + by intros product w' [=].
    + intros status error pid w'. split; [done|].
      by intros (_ & _ & _ & s & [=] & _).
    + intros status error message w'. split.
      * intros [= <- <- <- <-]. repeat split; try done. by exists e.
      * by intros (-> & -> & e' & [= <- <-] & ->).
Qed.

(** X9: [POST /refresh-catalog] asks the gateway for the products exactly
    once.  When it succeeds it reports the number of stored plans and a
    number of lookup entries that is at most the number of plans, with the
    time of this refresh; when it fails it answers 500 and the cache is as
    it was. *)
Theorem refresh_catalog_reports env w :
  fetches (refresh_catalog env w).2 = S (fetches w)
  /\ (forall message productsCount pricesCount updated w',
     refresh_catalog env w
     = (RefreshedJson message productsCount pricesCount updated, w') ->
     productsCount = length (products (productCatalogCache w'))
     /\ pricesCount = size (JSObject.own (prices (productCatalogCache w')))
     /\ (pricesCount <= productsCount)%nat
     /\ updated = Some (refreshed_at env))
  /\ (forall status error message w',
     refresh_catalog env w = (RefreshFailedJson status error message, w') ->
     status = 500 /\ productCatalogCache w' = productCatalogCache w).
Proof.
  unfold refresh_catalog. split; [|split].
  - pose proof (getProductCatalog_fetches true env w) as Hn.
    unfold must_refresh in Hn. cbn [orb] in Hn.
    destruct (getProductCatalog true env w) as [[?|?] ?]; cbn [snd] in *; lia.
  - intros message productsCount pricesCount updated w'.
    destruct (getProductCatalog true env w) as [[snapshot|e] w0] eqn:Hget; [|done].
    intros [= <- <- <- <- <-].
    rewrite (getProductCatalog_Ok _ _ _ _ _ Hget).
    unfold getProductCatalog in Hget. cbn [must_refresh orb] in Hget.
    apply fetchProducts_Ok_inv in Hget as (ps & prs & catalog & Horg & ->).
    cbn [products prices lastUpdated]. repeat split; try done.
    apply organizeProductCatalog_Ok in Horg as (plans & Hplans & ->).
    destruct (organized_lookup _ _ _ Hplans) as (_ & _ & Hsize).
    cbn [catalog_products catalog_prices].
    by rewrite (Permutation_length (sort_plans_Permutation plans)).
  - intros status error message w'.
    destruct (getProductCatalog true env w) as [[snapshot|e] w0] eqn:Hget; [done|].
    intros [= <- _ _ <-]. split; [done|].
    by apply getProductCatalog_Throw in Hget.
Qed.

End CacheProperties.

(** ** Facts on the computations of the handlers *)
Section MonadFacts.
Context `{JSONParser} `{DateFormat} `{Builtins}.

Lemma run_bind {A B} (m : M A) (k : A -> M B) s :
  (m ≫= k) s
  = match m s with
    | (Return a, s') => k a s'
    | (Raise e, s') => (Raise e, s')
    end.
Proof. reflexivity. Qed.

Lemma run_try {A} (m : M A) (handler : Exn -> M A) s :
  try_catch m handler s
  = match m s with
    | (Return a, s') => (Return a, s')
    | (Raise e, s') => handler e s'
    end.
Proof. reflexivity. Qed.

Lemma logs_only_ret {A} P (a : A) : logs_only P (mret a : M A).
Proof. intros s. exists []. by rewrite app_nil_r. Qed.

Lemma logs_only_raise {A} P e : logs_only P (raise e : M A).
Proof. intros s. exists []. by rewrite app_nil_r. Qed.

Lemma logs_only_lift {A} P (o : Outcome A) : logs_only P (lift o).
Proof. intros s. exists []. by rewrite app_nil_r. Qed.

Lemma logs_only_await {A} (P : Call -> Prop) c (answer : Outcome A) :
  P c -> logs_only P (await c answer).
Proof. intros Hc s. exists [c]. split; [done|]. by constructor. Qed.

Lemma logs_only_catalog {A} P input (method : Env -> World -> Result A * World) :
  logs_only P (catalog input method).
Proof.
  intros s. exists []. rewrite app_nil_r. unfold catalog.
  by destruct (method _ _) as [[?|?] ?].
Qed.

Lemma logs_only_bind {A B} P (m : M A) (k : A -> M B) :
  logs_only P m -> (forall a, logs_only P (k a)) -> logs_only P (m ≫= k).
Proof.
  intros Hm Hk s. rewrite run_bind. destruct (Hm s) as (new & Hnew & HP).
  destruct (m s) as [[a|e] s1]; cbn [snd] in *.
  - destruct (Hk a s1) as (new' & Hnew' & HP'). exists (new ++ new').
    rewrite Hnew', Hnew, app_assoc. split; [done|]. by apply Forall_app.
  - by exists new.
Qed.

Lemma logs_only_try {A} P (m : M A) (handler : Exn -> M A) :
  logs_only P m -> (forall e, logs_only P (handler e)) ->
  logs_only P (try_catch m handler).
Proof.
  intros Hm Hh s. rewrite run_try. destruct (Hm s) as (new & Hnew & HP).
  destruct (m s) as [[a|e] s1]; cbn [snd] in *.
  - by exists new.
  - destruct (Hh e s1) as (new' & Hnew' & HP'). exists (new ++ new').
    rewrite Hnew', Hnew, app_assoc. split; [done|]. by apply Forall_app.
Qed.

Lemma logs_only_weaken {A} (P Q : Call -> Prop) (m : M A) :
  (forall c, P c -> Q c) -> logs_only P m -> logs_only Q m.
Proof.
  intros HPQ Hm s. destruct (Hm s) as (new & Hnew & HP). exists new.
  split; [done|]. by eapply Forall_impl.
Qed.

Lemma keeps_world_ret {A} (a : A) : keeps_world (mret a : M A).
Proof. by intros s. Qed.

Lemma keeps_world_raise {A} e : keeps_world (raise e : M A).
Proof. by intros s. Qed.

Lemma keeps_world_lift {A} (o : Outcome A) : keeps_world (lift o).
Proof. by intros s. Qed.

Lemma keeps_world_await {A} c (answer : Outcome A) : keeps_world (await c answer).
Proof. by intros s. Qed.

Lemma keeps_world_bind {A B} (m : M A) (k : A -> M B) :
  keeps_world m -> (forall a, keeps_world (k a)) -> keeps_world (m ≫= k).
Proof.
  intros Hm Hk s. rewrite run_bind. specialize (Hm s).
  destruct (m s) as [[a|e] s1]; cbn [snd] in *; [|done].
  by rewrite Hk.
Qed.

Lemma keeps_world_try {A} (m : M A) (handler : Exn -> M A) :
  keeps_world m -> (forall e, keeps_world (handler e)) ->
  keeps_world (try_catch m handler).
Proof.
  intros Hm Hh s. rewrite run_try. specialize (Hm s).
  destruct (m s) as [[a|e] s1]; cbn [snd] in *; [done|].
  by rewrite Hh.
Qed.

Lemma never_raises_ret {A} (a : A) : never_raises (mret a : M A).
Proof. intros s. by exists a. Qed.

Lemma never_raises_try {A} (m : M A) (handler : Exn -> M A) :
  (forall e, never_raises (handler e)) -> never_raises (try_catch m handler).
Proof.
  intros Hh s. rewrite run_try. destruct (m s) as [[a|e] s1]; [by exists a|].
  apply Hh.
Qed.

End MonadFacts.

Create HintDb handlers.

#[local] Hint Resolve logs_only_ret logs_only_raise logs_only_lift
  logs_only_catalog keeps_world_ret keeps_world_raise keeps_world_lift
  keeps_world_await never_raises_ret : handlers.

(** Splits a computation along its binds, its [try] blocks and its case
    distinctions. *)
Ltac step_handlers :=
  repeat first
    [ progress intros
    | apply logs_only_bind | apply logs_only_try
    | apply keeps_world_bind | apply keeps_world_try
    | apply logs_only_await; cbn; first [tauto | reflexivity | done]
    | solve [eauto with handlers]
    | match goal with
      | |- context [match ?x with _ => _ end] => destruct x
      | |- context [if ?b then _ else _] => destruct b
      end ].

Section HelperFacts.
Context `{JSONParser} `{DateFormat} `{Builtins}.

Lemma createOrRetrieveCustomer_logs env email userId :
  logs_only (fun c => match c with
                      | CustomersList _ | CustomersCreate _ _ => True
                      | _ => False
                      end)
    (createOrRetrieveCustomer env email userId).
Proof. unfold createOrRetrieveCustomer. step_handlers. Qed.

Lemma createOrRetrieveCustomer_world env email userId :
  keeps_world (createOrRetrieveCustomer env email userId).
Proof. unfold createOrRetrieveCustomer. step_handlers. Qed.

Lemma updateSupabaseProfile_logs config env userId updates :
  logs_only is_profile_upsert (updateSupabaseProfile config env userId updates).
Proof. unfold updateSupabaseProfile. step_handlers. Qed.

Lemma updateSupabaseProfile_world config env userId updates :
  keeps_world (updateSupabaseProfile config env userId updates).
Proof. unfold updateSupabaseProfile. step_handlers. Qed.

Lemma createOrUpdateBusinessSubscription_logs config env userId data :
  logs_only is_subscription_call
    (createOrUpdateBusinessSubscription config env userId data).
Proof. unfold createOrUpdateBusinessSubscription. step_handlers. Qed.

Lemma createOrUpdateBusinessSubscription_world config env userId data :
  keeps_world (createOrUpdateBusinessSubscription config env userId data).
Proof. unfold createOrUpdateBusinessSubscription. step_handlers. Qed.

Lemma activateBusinessProfile_logs config env userId customerId :
  logs_only is_profile_update (activateBusinessProfile config env userId customerId).
Proof. unfold activateBusinessProfile. step_handlers. Qed.

Lemma activateBusinessProfile_world config env userId customerId :
  keeps_world (activateBusinessProfile config env userId customerId).
Proof. unfold activateBusinessProfile. step_handlers. Qed.

Lemma period_dates_logs P subscription : logs_only P (period_dates subscription).
Proof. unfold period_dates. step_handlers. Qed.

Lemma period_dates_world subscription : keeps_world (period_dates subscription).
Proof. unfold period_dates. step_handlers. Qed.

End HelperFacts.

(** ** The webhook: properties *)
Section WebhookProperties.
Context `{JSONParser} `{DateFormat} `{Builtins}.

Lemma try_unit_returns (m : M unit) s :
  (try_catch m (fun _ => mret tt) s).1 = Return tt.
Proof. rewrite run_try. by destruct (m s) as [[[]|?] ?]. Qed.

Lemma handleWebhookEvent_returns config env event s :
  (handleWebhookEvent config env event s).1 = Return tt.
Proof.
  destruct event as [sub|sub|sub|inv|inv|type]; cbn [handleWebhookEvent].
  - unfold handleSubscriptionCreated. destruct (configured_and _ _); [|done].
    apply try_unit_returns.
  - unfold handleSubscriptionUpdated. destruct (configured_and _ _); [|done].
    apply try_unit_returns.
  - unfold handleSubscriptionDeleted. destruct (configured_and _ _); [|done].
    apply try_unit_returns.
  - unfold handlePaymentSucceeded. destruct (configured_and _ _); [|done].
    apply try_unit_returns.
  - unfold handlePaymentFailed. destruct (configured_and _ _); [|done].
    apply try_unit_returns.
  - destruct (catalog_event type); [|done]. apply try_unit_returns.
Qed.

(** X14: when the webhook secret is configured and the signature of the
    request is verified, the webhook answers [{ received: true }] whatever
    the event is and whatever Stripe, the database and the gateway answer
    while it is handled: the 500 answer is never given.  Without a secret,
    or with a signature that is not verified, it answers 400, calls nothing
    and leaves the state as it was. *)
Theorem webhook_always_acknowledges config env constructed s :
  (forall secret event,
     JS.truthy_string (endpointSecret config) = Some secret ->
     constructed = Return event ->
     (webhook config env constructed s).1 = Return WebhookReceivedJson)
  /\ (JS.truthy_string (endpointSecret config) = None ->
      webhook config env constructed s
      = (Return (WebhookText 400 "Webhook endpoint secret not configured"), s))
  /\ (forall secret err,
     JS.truthy_string (endpointSecret config) = Some secret ->
     constructed = Raise err ->
     webhook config env constructed s
     = (Return (WebhookText 400 ("Webhook Error: " +:+ exn_message err)), s))
  /\ (forall status error,
     (webhook config env constructed s).1 <> Return (WebhookFailedJson status error)).
Proof.
  unfold webhook. split; [|split; [|split]].
  - intros secret event -> ->. rewrite run_try, run_bind.
    pose proof (handleWebhookEvent_returns config env event s) as Hret.
    destruct (handleWebhookEvent config env event s) as [[[]|e] s1]; [done|].
    discriminate Hret.
  - by intros ->.
  - by intros secret err -> ->.
  - intros status error. destruct (JS.truthy_string _); [|done].
    destruct constructed as [event|err]; [|done].
    rewrite run_try, run_bind.
    pose proof (handleWebhookEvent_returns config env event s) as Hret.
    destruct (handleWebhookEvent config env event s) as [[[]|e] s1]; [done|].
    discriminate Hret.
Qed.

Lemma subscription_handlers_world config env :
  (forall sub, keeps_world (handleSubscriptionCreated config env sub))
  /\ (forall sub, keeps_world (handleSubscriptionUpdated config env sub))
  /\ (forall sub, keeps_world (handleSubscriptionDeleted config env sub))
  /\ (forall inv, keeps_world (handlePaymentSucceeded config env inv))
  /\ (forall inv, keeps_world (handlePaymentFailed config env inv)).
Proof.
  pose proof createOrUpdateBusinessSubscription_world.
  pose proof updateSupabaseProfile_world.
  pose proof activateBusinessProfile_world.
  pose proof period_dates_world.
  repeat split; intros x;
    [unfold handleSubscriptionCreated | unfold handleSubscriptionUpdated
    | unfold handleSubscriptionDeleted | unfold handlePaymentSucceeded
    | unfold handlePaymentFailed];
    step_handlers.
Qed.

(** X16: an event of one of the six product and price types makes exactly
    one forced refresh of the catalog and no other call, and when that
    refresh fails the stored snapshot is as it was; an event of any other
    type leaves the catalog and the log of the gateway untouched. *)
Theorem webhook_catalog_events config env event s :
  (catalog_event (event_type event) = true ->
   fetches (sys_world (handleWebhookEvent config env event s).2)
   = S (fetches (sys_world s))
   /\ sys_calls (handleWebhookEvent config env event s).2 = sys_calls s
   /\ (forall e w',
         getProductCatalog true (catalog_env (wh_catalog env)) (sys_world s)
         = (Throw e, w') ->
         productCatalogCache (sys_world (handleWebhookEvent config env event s).2)
         = productCatalogCache (sys_world s)))
  /\ (catalog_event (event_type event) = false ->
      sys_world (handleWebhookEvent config env event s).2 = sys_world s).
Proof.
  destruct (subscription_handlers_world config env) as (Hc & Hu & Hd & Hs & Hf).
  destruct event as [sub|sub|sub|inv|inv|type]; cbn [handleWebhookEvent event_type];
    try (split; [by intros [=]|intros _]).
  - apply Hc. - apply Hu. - apply Hd. - apply Hs. - apply Hf.
  - destruct (catalog_event type); split; try done. intros _.
    rewrite run_try, run_bind. unfold catalog.
    pose proof (getProductCatalog_fetches true (catalog_env (wh_catalog env))
                  (sys_world s)) as Hn.
    unfold must_refresh in Hn. cbn [orb] in Hn.
    destruct (getProductCatalog true _ _) as [[snapshot|e] w1] eqn:Hget;
      unfold mret, M_ret; cbn [fst snd sys_world sys_calls] in *.
    + split; [lia|]. split; [done|]. by intros e' w' [=].
    + split; [lia|]. split; [done|].
      intros e' w' [= <- <-]. by apply getProductCatalog_Throw in Hget.
Qed.

(** X17: when the Supabase client is not configured, an event of a type
    that is not a product or price type is handled without any call and
    without any change of state; so is a subscription event whose
    subscription has no [userId] metadata, and an invoice event whose
    invoice names no subscription. *)
Theorem webhook_without_target config env s :
  (forall event,
     supabase config = false -> catalog_event (event_type event) = false ->
     handleWebhookEvent config env event s = (Return tt, s))
  /\ (forall sub,
     JS.truthy_string (subscription_metadata sub !! "userId") = None ->
     handleWebhookEvent config env (CustomerSubscriptionCreated sub) s = (Return tt, s)
     /\ handleWebhookEvent config env (CustomerSubscriptionUpdated sub) s = (Return tt, s)
     /\ handleWebhookEvent config env (CustomerSubscriptionDeleted sub) s = (Return tt, s))
  /\ (forall inv,
     JS.truthy_string (invoice_subscription inv) = None ->
     handleWebhookEvent config env (InvoicePaymentSucceeded inv) s = (Return tt, s)
     /\ handleWebhookEvent config env (InvoicePaymentFailed inv) s = (Return tt, s)).
Proof.
  split; [|split].
  - intros event Hoff Hcat.
    destruct event as [sub|sub|sub|inv|inv|type]; cbn [handleWebhookEvent event_type] in *;
      [unfold handleSubscriptionCreated | unfold handleSubscriptionUpdated
      | unfold handleSubscriptionDeleted | unfold handlePaymentSucceeded
      | unfold handlePaymentFailed | by rewrite Hcat ];
      unfold configured_and; by rewrite Hoff.
  - intros sub Hnone. cbn [handleWebhookEvent].
    unfold handleSubscriptionCreated, handleSubscriptionUpdated,
      handleSubscriptionDeleted, configured_and.
    rewrite Hnone. by destruct (supabase config).
  - intros inv Hnone. cbn [handleWebhookEvent].
    unfold handlePaymentSucceeded, handlePaymentFailed, configured_and.
    rewrite Hnone. by destruct (supabase config).
Qed.

End WebhookProperties.

(** Unfolds the operations of the computations and distinguishes the cases
    of the answers met in the hypotheses. *)
Ltac unfold_m :=
  unfold mbind, M_bind, mret, M_ret, try_catch, await, raise, lift in *;
  cbn [fst snd sys_world sys_calls] in *.

Ltac case_m :=
  repeat (unfold_m;
          match goal with
          | H : context [match ?x with _ => _ end] |- _ => destruct x eqn:?
          | H : context [if ?b then _ else _] |- _ => destruct b eqn:?
          | H : (_, _) = (_, _) |- _ => injection H as ? ?; subst
          | H : Return _ = Raise _ |- _ => discriminate H
          | H : Raise _ = Return _ |- _ => discriminate H
          end).

(** Distinguishes the cases of the innermost answers met in the goal. *)
Ltac case_goal :=
  repeat match goal with
         | |- context [match ?x with _ => _ end] =>
             lazymatch x with
             | context [match _ with _ => _ end] => fail
             | _ => destruct x; cbn
             end
         end.

(** ** The database handlers: properties *)
Section DatabaseProperties.
Context `{JSONParser} `{DateFormat} `{Builtins}.

Lemma createOrUpdate_Return config env userId data s row s' :
  supabase config = true ->
  createOrUpdateBusinessSubscription config env userId data s = (Return row, s') ->
  exists before write,
    sys_calls s' = sys_calls s ++ before ++ [write]
    /\ is_subscription_write write
    /\ exists result, write_reply env = Return result /\ rows_error result = None.
Proof.
  intros Hon Hrun. unfold createOrUpdateBusinessSubscription in Hrun.
  rewrite Hon in Hrun. cbn [negb] in Hrun. case_m.
  all: eexists [_; _; _], _; rewrite <- !app_assoc; cbn;
    (split; [reflexivity|]); (split; [exact I|]); eauto.
Qed.

Lemma period_dates_state subscription s : (period_dates subscription s).2 = s.
Proof.
  unfold period_dates. unfold_m.
  by destruct (iso_of_seconds (current_period_start subscription)),
    (iso_of_seconds (current_period_end subscription)).
Qed.

Lemma not_update_subscription_call c : is_subscription_call c -> ~ is_profile_update c.
Proof. destruct c; cbn; tauto. Qed.

Lemma not_update_upsert c : is_profile_upsert c -> ~ is_profile_update c.
Proof. destruct c; cbn; tauto. Qed.

Lemma handlers_never_activate config env :
  (forall sub, logs_only (fun c => ~ is_profile_update c)
                 (handleSubscriptionCreated config env sub))
  /\ (forall sub, logs_only (fun c => ~ is_profile_update c)
                    (handleSubscriptionUpdated config env sub))
  /\ (forall sub, logs_only (fun c => ~ is_profile_update c)
                    (handleSubscriptionDeleted config env sub))
  /\ (forall inv, logs_only (fun c => ~ is_profile_update c)
                    (handlePaymentFailed config env inv)).
Proof.
  assert (forall env userId data,
            logs_only (fun c => ~ is_profile_update c)
              (createOrUpdateBusinessSubscription config env userId data)) as Hw.
  { intros. eapply logs_only_weaken; [apply not_update_subscription_call|].
    apply createOrUpdateBusinessSubscription_logs. }
  assert (forall env userId updates,
            logs_only (fun c => ~ is_profile_update c)
              (updateSupabaseProfile config env userId updates)) as Hu.
  { intros. eapply logs_only_weaken; [apply not_update_upsert|].
    apply updateSupabaseProfile_logs. }
  pose proof (period_dates_logs (fun c => ~ is_profile_update c)) as Hd.
  repeat split; intros x;
    [unfold handleSubscriptionCreated | unfold handleSubscriptionUpdated
    | unfold handleSubscriptionDeleted | unfold handlePaymentFailed];
    step_handlers.
Qed.


End DatabaseProperties.

(** ** Customers and subscriptions: properties *)
Section SubscriptionProperties.
Context `{JSONParser} `{DateFormat} `{Builtins}.

Lemma try_bind_return {A B} (m : M A) (k : A -> M B) handler s a s1 :
  m s = (Return a, s1) ->
  try_catch (m ≫= k) handler s = try_catch (k a) handler s1.
Proof. intros Hm. by rewrite !run_try, run_bind, Hm. Qed.

Lemma try_bind_raise {A B} (m : M A) (k : A -> M B) handler s e s1 :
  m s = (Raise e, s1) ->
  try_catch (m ≫= k) handler s = handler e s1.
Proof. intros Hm. by rewrite !run_try, run_bind, Hm. Qed.

Lemma catalog_run {A} input (method : Env -> World -> Result A * World) s o s1 :
  catalog input method s = (o, s1) ->
  sys_calls s1 = sys_calls s
  /\ ((exists a, o = Return a
         /\ method (catalog_env input) (sys_world s) = (Ok a, sys_world s1))
      \/ (exists e, o = Raise (exn_of_error (rejected_type input) e)
         /\ method (catalog_env input) (sys_world s) = (Throw e, sys_world s1))).
Proof.
  unfold catalog. destruct (method _ _) as [[a|e] w1]; intros [= <- <-];
    (split; [done|]); [left|right]; eauto.
Qed.

Lemma get_priceId_string price id :
  get_priceId price = Ok (VString id) ->
  exists variant, price = Entry variant /\ id = priceId variant.
Proof.
  destruct price as [variant|[]|]; cbn; try done. intros [= <-]. eauto.
Qed.

Lemma planPrices_get_Entry planPrices billingCycle variant :
  planPrices_get planPrices billingCycle = Ok (Entry variant) ->
  exists m, planPrices = Variations m /\ m !! billingCycle = Some variant.
Proof.
  destruct planPrices as [m|v| |name|]; cbn [planPrices_get].
  - destruct (m !! billingCycle) as [v|] eqn:Hm; [intros [= <-]; by eauto|].
    unfold inherited_get. destruct (JSObject.inherited billingCycle); by intros [=].
  - unfold variant_get, inherited_get.
    repeat case_bool_decide;
      repeat match goal with
             | |- context [match ?x with _ => _ end] => destruct x
             end; by intros [=].
  - destruct (JSObject.inherited billingCycle); by intros [=].
  - destruct (function_get name billingCycle) as [?|[?|]]; by intros [=].
  - by intros [=].
Qed.

(** [validatePriceId] returns a string only for a pair that the snapshot
    holds, and the string is the identifier of the price stored for it. *)
Lemma validatePriceId_price_at plan billingCycle env w id w' :
  validatePriceId plan billingCycle env w = (Ok (VString id), w') ->
  priceId <$> price_at (productCatalogCache w') plan billingCycle = Some id.
Proof.
  unfold validatePriceId, price_at.
  destruct (getProductCatalog false env w) as [[snapshot|e] w1] eqn:Hget; [|done].
  apply getProductCatalog_Ok in Hget as Hcache.
  assert (forall planPrices,
            match planPrices_get planPrices billingCycle with
            | Throw error => (Throw error, w1)
            | Ok price =>
                if falsy price then (Ok VNull, w1) else (get_priceId price, w1)
            end = (Ok (VString id), w') ->
            w' = w1
            /\ exists m variant, planPrices = Variations m
                 /\ m !! billingCycle = Some variant /\ id = priceId variant)
    as Hread.
  { intros planPrices.
    destruct (planPrices_get planPrices billingCycle) as [price|] eqn:Hprice;
      [|done].
    destruct (falsy price); [done|]. intros [= Hid <-]. split; [done|].
    apply get_priceId_string in Hid as (variant & -> & ->).
    apply planPrices_get_Entry in Hprice as (m & -> & Hm). eauto. }
  destruct (prices_get (prices snapshot) plan) as [m|v| |name|] eqn:Hplan;
    try done; intros Hrun;
    match type of Hplan with
    | _ = ?planPrices =>
        destruct (Hread planPrices Hrun) as (-> & m' & variant & [= <-] & Hm & ->)
    end.
  rewrite Hcache, Hplan. by rewrite Hm.
Qed.

Lemma includes_customer m :
  JSValue.includes ("Failed to create or retrieve customer: " +:+ m) "customer"
  = true.
Proof. reflexivity. Qed.

(** X11: [createOrRetrieveCustomer] asks Stripe for the customers of the
    email first and creates a customer only when that list is empty; a
    customer that is found is returned as it is.  Every failure is thrown
    as a new error without [type] whose message starts with "Failed to
    create or retrieve customer: ", so the subscription endpoint reports
    it as "Failed to process customer information". *)
Theorem customer_reused_or_created env email userId s :
  exists new,
    sys_calls (createOrRetrieveCustomer env email userId s).2 = sys_calls s ++ new
    /\ sys_world (createOrRetrieveCustomer env email userId s).2 = sys_world s
    /\ (Exists is_customer_create new <-> customers_list env = Return [])
    /\ (forall customer rest,
          customers_list env = Return (customer :: rest) ->
          (createOrRetrieveCustomer env email userId s).1 = Return customer
          /\ new = [CustomersList email])
    /\ (forall e,
          (createOrRetrieveCustomer env email userId s).1 = Raise e ->
          exn_type e = None
          /\ (exists m, exn_message e
                        = "Failed to create or retrieve customer: " +:+ m)
          /\ subscription_error_message e = "Failed to process customer information").
Proof.
  assert (forall m,
    subscription_error_message
      (new_Error ("Failed to create or retrieve customer: " +:+ m))
    = "Failed to process customer information") as Hmessage.
  { intros m. unfold subscription_error_message, new_Error.
    cbn [exn_type exn_message]. rewrite !bool_decide_eq_false_2 by done.
    by rewrite includes_customer. }
  unfold createOrRetrieveCustomer. unfold_m.
  destruct (customers_list env) as [[|customer rest]|e0]; cbn.
  - destruct (customers_create env) as [customer|e0]; cbn;
      (eexists [_; _]; rewrite <- app_assoc; split; [reflexivity|]; split; [done|];
       split; [split; [done|intros _; right; left; exact I]|]; split; [done|]).
    + done.
    + intros e [= <-]. split; [done|]. split; [eauto|apply Hmessage].
  - exists [CustomersList email]. split; [done|]. split; [done|].
    split; [|split].
    + split; [|done]. intros Hex.
      apply Exists_cons in Hex as [[]|Hex]. by apply Exists_nil in Hex.
    + by intros customer0 rest0 [= -> ->].
    + by intros e [=].
  - exists [CustomersList email]. split; [done|]. split; [done|].
    split; [|split].
    + split; [|done]. intros Hex.
      apply Exists_cons in Hex as [[]|Hex]. by apply Exists_nil in Hex.
    + by intros customer0 rest0 [=].
    + intros e [= <-]. split; [done|]. split; [eauto|apply Hmessage].
Qed.

(** What the accepted branch of [create_subscription] does after the
    price was accepted. *)
Lemma accepted_branch_logs config env request (m : M SubscriptionResponse) :
  m = (customer ← createOrRetrieveCustomer (cs_customer env)
         (req_email request) (req_userId request);
       _ ← await (PaymentMethodsAttach (req_paymentMethodId request)
                    (customer_id customer)) (cs_attach env);
       _ ← await (CustomersUpdate (customer_id customer)
                    (req_paymentMethodId request)) (cs_update env);
       subscription ← await
         (SubscriptionsCreate (customer_id customer) (req_priceId request)
            (subscription_metadata_of request "mobile_app"))
         (cs_subscription env);
       _ ← match JS.truthy_string (req_userId request) with
           | Some userId =>
               if supabase config
               then try_catch
                      (updateSupabaseProfile config (cs_profile env) userId
                         [("stripe_customer_id", VString (customer_id customer));
                          ("subscription_id", VString (subscription_id subscription));
                          ("subscription_status",
                           VString (subscription_status subscription));
                          ("plan_id", VString (req_planId request));
                          ("plan_name", VString (req_planName request));
                          ("billing_cycle", VString (req_billingCycle request))])
                      (fun _ => mret tt)
               else mret tt
           | None => mret tt
           end;
       mret (SubscriptionJson (subscription_id subscription)
               (customer_id customer) (subscription_status subscription)
               (client_secret subscription) (req_planId request)
               (req_planName request) (req_billingCycle request)
               (bool_decide (subscription_status subscription = "incomplete")))) ->
  logs_only (fun c => match c with
                      | SubscriptionsCreate _ price _ => price = req_priceId request
                      | _ => True
                      end) m
  /\ keeps_world m.
Proof.
  intros ->.
  pose proof (createOrRetrieveCustomer_world (cs_customer env)).
  pose proof (updateSupabaseProfile_world config (cs_profile env)).
  split.
  - assert (forall email userId,
      logs_only (fun c => match c with
                          | SubscriptionsCreate _ price _ => price = req_priceId request
                          | _ => True
                          end)
        (createOrRetrieveCustomer (cs_customer env) email userId)) as Hcustomer.
    { intros. eapply logs_only_weaken; [|apply createOrRetrieveCustomer_logs].
      by intros []. }
    assert (forall userId updates,
      logs_only (fun c => match c with
                          | SubscriptionsCreate _ price _ => price = req_priceId request
                          | _ => True
                          end)
        (updateSupabaseProfile config (cs_profile env) userId updates)) as Hprofile.
    { intros. eapply logs_only_weaken; [|apply updateSupabaseProfile_logs].
      by intros []. }
    step_handlers.
  - step_handlers.
Qed.


(** X13: what the database answers to the profile write at the end of
    [POST /create-subscription] and of [POST /cancel-subscription] has no
    influence on the answer of the endpoint, nor on the catalog: a failed
    write does not fail the request. *)
Theorem profile_write_cannot_fail_request config profile s :
  (forall env request,
     (create_subscription config (with_cs_profile env profile) request s).1
     = (create_subscription config env request s).1
     /\ sys_world (create_subscription config (with_cs_profile env profile) request s).2
        = sys_world (create_subscription config env request s).2)
  /\ (forall env subscriptionId userId,
     (cancel_subscription config (with_cancel_profile env profile)
        subscriptionId userId s).1
     = (cancel_subscription config env subscriptionId userId s).1).
Proof.
  split.
  - intros env request.
    unfold create_subscription, with_cs_profile, createOrRetrieveCustomer,
      updateSupabaseProfile, catalog.
    cbn [cs_validation cs_catalog cs_catalog_again cs_customer cs_attach cs_update
         cs_subscription cs_profile].
    unfold_m.
    case_goal; done.
  - intros env subscriptionId userId.
    unfold cancel_subscription, with_cancel_profile, updateSupabaseProfile.
    cbn [cancel_validation cancel_update cancel_profile]. unfold_m.
    case_goal; done.
Qed.

End SubscriptionProperties.

(** Decides the membership of a call or of a field in an explicit list. *)
Ltac in_list H :=
  repeat (apply elem_of_cons in H as [H|H]; [try discriminate H|]);
  try (by apply elem_of_nil in H).

(** ** The database handlers: further properties *)
Section DatabaseWrites.
Context `{JSONParser} `{DateFormat} `{Builtins}.

Lemma createOrUpdate_calls config env userId data s profile plan existing :
  supabase config = true ->
  profile_reply env = Return profile ->
  is_failure (reply_error profile) = None ->
  plan_reply env = Return plan ->
  existing_reply env = Return existing ->
  is_failure (reply_error existing) = None ->
  sys_calls (createOrUpdateBusinessSubscription config env userId data s).2
  = sys_calls s
    ++ [SelectBusinessId userId;
        SelectPlanId (data_planName data);
        SelectSubscriptionId (data_subscriptionId data);
        match reply_data existing with
        | Some _ =>
            UpdateSubscription (data_subscriptionId data)
              (subscriptionRecord env userId data (reply_data profile)
                 (reply_data plan))
        | None =>
            InsertSubscription
              (subscriptionRecord env userId data (reply_data profile)
                 (reply_data plan))
        end].
Proof.
  intros Hon Hprofile Hfound Hplan Hexisting Hfree.
  unfold createOrUpdateBusinessSubscription. rewrite Hon. cbn [negb].
  unfold_m. rewrite Hprofile. cbn. rewrite Hfound, Hplan. cbn.
  rewrite Hexisting. cbn. rewrite Hfree.
  destruct (write_reply env) as [[rows [e|]]|e]; cbn;
    try destruct rows; cbn; by rewrite <- !app_assoc.
Qed.

(** X20: [createOrUpdateBusinessSubscription] leaves the catalog alone and
    writes at most one subscription row, as its last call: it updates the
    row of the Stripe subscription when the database holds one and inserts
    a row otherwise, in both cases the record built from the arguments and
    from the answers on the business profile and on the plan.  The row is
    written exactly when Supabase is configured, the three queries are
    answered, and neither the query of the profile nor that of the
    existing row reports a failure: whatever the query of the plan
    reports, a plan that is not found included, does not prevent the
    write.  Without Supabase nothing is called. *)
Theorem subscription_row_written_once config env userId data s :
  exists new,
    sys_calls (createOrUpdateBusinessSubscription config env userId data s).2
    = sys_calls s ++ new
    /\ sys_world (createOrUpdateBusinessSubscription config env userId data s).2
       = sys_world s
    /\ (supabase config = false -> new = [])
    /\ (forall write, write ∈ new -> is_subscription_write write ->
          exists profile plan existing,
            profile_reply env = Return profile
            /\ is_failure (reply_error profile) = None
            /\ plan_reply env = Return plan
            /\ existing_reply env = Return existing
            /\ is_failure (reply_error existing) = None
            /\ write
               = match reply_data existing with
                 | Some _ =>
                     UpdateSubscription (data_subscriptionId data)
                       (subscriptionRecord env userId data (reply_data profile)
                          (reply_data plan))
                 | None =>
                     InsertSubscription
                       (subscriptionRecord env userId data (reply_data profile)
                          (reply_data plan))
                 end
            /\ exists before, new = before ++ [write]
                 /\ Forall (fun c => ~ is_subscription_write c) before)
    /\ (forall profile plan existing,
          supabase config = true ->
          profile_reply env = Return profile ->
          is_failure (reply_error profile) = None ->
          plan_reply env = Return plan ->
          existing_reply env = Return existing ->
          is_failure (reply_error existing) = None ->
          new = [SelectBusinessId userId;
                 SelectPlanId (data_planName data);
                 SelectSubscriptionId (data_subscriptionId data);
                 match reply_data existing with
                 | Some _ =>
                     UpdateSubscription (data_subscriptionId data)
                       (subscriptionRecord env userId data (reply_data profile)
                          (reply_data plan))
                 | None =>
                     InsertSubscription
                       (subscriptionRecord env userId data (reply_data profile)
                          (reply_data plan))
                 end]).
Proof.
  assert (exists new,
    sys_calls (createOrUpdateBusinessSubscription config env userId data s).2
    = sys_calls s ++ new
    /\ sys_world (createOrUpdateBusinessSubscription config env userId data s).2
       = sys_world s
    /\ (supabase config = false -> new = [])
    /\ (forall write, write ∈ new -> is_subscription_write write ->
          exists profile plan existing,
            profile_reply env = Return profile
            /\ is_failure (reply_error profile) = None
            /\ plan_reply env = Return plan
            /\ existing_reply env = Return existing
            /\ is_failure (reply_error existing) = None
            /\ write
               = match reply_data existing with
                 | Some _ =>
                     UpdateSubscription (data_subscriptionId data)
                       (subscriptionRecord env userId data (reply_data profile)
                          (reply_data plan))
                 | None =>
                     InsertSubscription
                       (subscriptionRecord env userId data (reply_data profile)
                          (reply_data plan))
                 end
            /\ exists before, new = before ++ [write]
                 /\ Forall (fun c => ~ is_subscription_write c) before))
    as (new & Hcalls & Hworld & Hoff & Hwrite);
    [|exists new; repeat (split; [done|]);
      intros profile plan existing Hon Hprofile Hfound Hplan Hexisting Hfree;
      apply (app_inv_head (sys_calls s)); rewrite <- Hcalls;
      by apply createOrUpdate_calls].
  destruct (createOrUpdateBusinessSubscription config env userId data s)
    as [o s'] eqn:Hrun.
  unfold createOrUpdateBusinessSubscription in Hrun. cbn [fst snd].
  destruct (supabase config) eqn:Hon; cbn [negb] in Hrun.
  2: { unfold_m. injection Hrun as <- <-. exists []. rewrite app_nil_r.
       repeat split; try done. intros ? Hin. by apply elem_of_nil in Hin. }
  case_m.
  all: repeat rewrite <- app_assoc; cbn [app].
  all: eexists; split; [reflexivity|]; split; [done|]; split; [done|].
  all: intros write Hin Hwrite; in_list Hin; subst write;
    try (cbn in Hwrite; contradiction).
  all: do 3 eexists; repeat (split; [eassumption || reflexivity | ]).
  all: split; [match goal with Hd : reply_data _ = _ |- _ => by rewrite Hd end|].
  all: eexists [_; _; _]; split; [reflexivity|]; repeat constructor; cbn; tauto.
Qed.

End DatabaseWrites.

Section ProfileWrites.
Context `{JSONParser} `{DateFormat} `{Builtins}.

Lemma updateSupabaseProfile_record config env userId updates :
  logs_only
    (fun c => c = UpsertProfile (("user_id", VString userId) :: updates
                                 ++ [("updated_at", VString (upsert_stamp env))]))
    (updateSupabaseProfile config env userId updates).
Proof. unfold updateSupabaseProfile. step_handlers. Qed.

Lemma keeps_active_subscription_call c : is_subscription_call c -> keeps_active c.
Proof. destruct c; cbn; tauto. Qed.

Lemma keeps_active_profile_update c : is_profile_update c -> keeps_active c.
Proof. destruct c; cbn; tauto. Qed.


End ProfileWrites.

(** ** [GET /payment-status/:userId]: properties *)
Section StatusProperties.
Context `{JSONParser} `{DateFormat} `{Builtins}.

Lemma field_is row key v :
  v <> VUndefined -> JSValue.field (Some row) key = v <-> row !! key = Some v.
Proof.
  intros Hv. unfold JSValue.field. destruct (row !! key) as [u|]; cbn.
  - split; congruence.
  - split; [congruence|done].
Qed.

(** X18: the status reported is "success" exactly when a subscription row
    and a profile row are found, the status of the subscription is
    "active", [is_active] of the profile is truthy and its
    [business_status] is "Active"; [isActive] is then [true].  Without a
    profile row the status is "no_profile", also when a subscription row
    exists; with an active subscription and a profile that is not active
    the status is "error". *)
Theorem overall_status_success subscription businessProfile :
  ((overall_status subscription businessProfile).1.1 = "success" <->
   exists sub profile,
     subscription = Some sub /\ businessProfile = Some profile
     /\ sub !! "status" = Some (VString "active")
     /\ JSValue.truthy (JSValue.field (Some profile) "is_active") = true
     /\ profile !! "business_status" = Some (VString "Active"))
  /\ ((overall_status subscription businessProfile).1.1 = "success" ->
      (overall_status subscription businessProfile).2 = VBool true)
  /\ (businessProfile = None ->
      (overall_status subscription businessProfile).1.1 = "no_profile"
      /\ (overall_status subscription businessProfile).2 = VBool false)
  /\ (forall sub profile,
        subscription = Some sub -> businessProfile = Some profile ->
        sub !! "status" = Some (VString "active") ->
        (JSValue.truthy (JSValue.field (Some profile) "is_active") = false
         \/ profile !! "business_status" <> Some (VString "Active")) ->
        (overall_status subscription businessProfile).1.1 = "error").
Proof.
  assert (forall profile,
    JSValue.truthy
      (JSValue.and (JSValue.field (Some profile) "is_active")
         (VBool (bool_decide
                   (JSValue.field (Some profile) "business_status" = VString "Active"))))
    = true <->
    JSValue.truthy (JSValue.field (Some profile) "is_active") = true
    /\ profile !! "business_status" = Some (VString "Active")) as Hactive.
  { intros profile. unfold JSValue.and.
    destruct (JSValue.truthy (JSValue.field (Some profile) "is_active")) eqn:Ht.
    - split.
      + intros Hb. split; [done|]. apply bool_decide_eq_true in Hb.
        by apply field_is in Hb.
      + intros [_ Hq]. apply bool_decide_eq_true. by apply field_is.
    - rewrite Ht. split; [done|]. by intros [? _]. }
  unfold overall_status.
  destruct subscription as [sub|], businessProfile as [profile|];
    cbn [fst snd].
  2-4: (split; [split; [done|by intros (? & ? & ? & ? & _)]|];
        split; [done|]; split; [done|]; by intros).
  destruct (bool_decide (JSValue.field (Some sub) "status" = VString "active"))
    eqn:Hstatus.
  - apply bool_decide_eq_true in Hstatus. apply field_is in Hstatus; [|done].
    destruct (JSValue.truthy (JSValue.and _ _)) eqn:Htruthy; cbn [andb fst snd].
    + apply Hactive in Htruthy as [Hrow Hbusiness].
      split; [|split; [|split; [done|]]].
      * split; [intros _; by exists sub, profile|done].
      * intros _. unfold JSValue.and. rewrite Hrow.
        apply field_is in Hbusiness; [|done]. by rewrite Hbusiness.
      * intros ? ? [= <-] [= <-] _ [Hoff|Hoff]; congruence.
    + assert (VString "active" <> VString "incomplete"
              /\ VString "active" <> VString "past_due"
              /\ VString "active" <> VString "canceled") as (? & ? & ?) by done.
      apply field_is in Hstatus; [|done]. rewrite Hstatus.
      rewrite !bool_decide_eq_false_2 by done. cbn [fst snd].
      split; [|split; [done|split; [done|done]]].
      split; [done|].
      intros (sub' & profile' & [= <-] & [= <-] & _ & Hrow & Hbusiness).
      assert (JSValue.truthy
                (JSValue.and (JSValue.field (Some profile) "is_active")
                   (VBool (bool_decide
                             (JSValue.field (Some profile) "business_status"
                              = VString "Active")))) = true) as Hyes
        by (by apply Hactive).
      congruence.
  - apply bool_decide_eq_false in Hstatus. cbn [andb].
    assert (sub !! "status" <> Some (VString "active")) as Hnot.
    { intros Hrow. apply Hstatus. by apply field_is. }
    repeat case_bool_decide; cbn [fst snd];
      (split; [split; [done|by intros (? & ? & [= <-] & _ & ? & _)]|];
       split; [done|]; split; [done|]; by intros ? ? [= <-]).
Qed.


End StatusProperties.

(** ** [POST /create-payment-intent]: properties *)
Section PaymentIntentProperties.
Context `{JSONParser} `{DateFormat} `{Builtins}.


End PaymentIntentProperties.

(** ** The further properties at sample inputs *)
Section MoreScenarios.
#[local] Existing Instance Sample.parser.
#[local] Existing Instance Sample.engine.
#[local] Existing Instance HandlerSample.dates.
Import Sample HandlerSample.

(** Two products with the plan identifier "essential": the lookup holds the
    prices of the second, which has none. *)
Lemma lookup_last_product_wins_witness :
  exists catalog,
    organizeProductCatalog [essential; twin] [string_price] = Ok catalog
    /\ prices_get (catalog_prices catalog) "essential" = Variations ∅
    /\ JSObject.own (catalog_prices catalog) !! "essential" = Some ∅.
Proof.
  destruct (organizeProductCatalog [essential; twin] [string_price])
    as [catalog|e] eqn:Horg; [|vm_compute in Horg; discriminate Horg].
  exists catalog. split; [reflexivity|].
  pose proof (lookup_last_product_wins _ _ _ "essential" Horg) as Hlast.
  change (last (filter (fun product => planId_of product = "essential")
                  [essential; twin])) with (Some twin) in Hlast.
  destruct Hlast as (Hget & Hown & _). rewrite Hget, Hown.
  split; [f_equal|]; vm_compute; reflexivity.
Defined.

(** A product with the plan identifier "__proto__" next to "essential":
    two plans, one key, and each plan is read with its own prices. *)
Lemma lookup_agrees_with_plans_witness :
  exists catalog,
    organizeProductCatalog [essential; hidden] [string_price] = Ok catalog
    /\ NoDup (planId_of <$> [essential; hidden])
    /\ (size (JSObject.own (catalog_prices catalog)) + 1
        = length (catalog_products catalog))%nat
    /\ forall plan, plan ∈ catalog_products catalog ->
         prices_get (catalog_prices catalog) (planId plan)
         = Variations (plan_prices plan).
Proof.
  destruct (organizeProductCatalog [essential; hidden] [string_price])
    as [catalog|e] eqn:Horg; [|vm_compute in Horg; discriminate Horg].
  assert (NoDup (planId_of <$> [essential; hidden])) as Hdistinct.
  { apply (bool_decide_unpack _). vm_compute. exact I. }
  destruct (lookup_agrees_with_plans _ _ _ Horg) as (_ & _ & _ & _ & Hagree).
  exists catalog. split; [reflexivity|]. split; [exact Hdistinct|].
  exact (Hagree Hdistinct).
Defined.

(** The lookup of that catalog: the prices of "__proto__" are its
    prototype, and [Object.keys] has the one key "essential". *)
Lemma hidden_plan_has_no_key :
  organizeProductCatalog [essential; hidden] [string_price]
  = Ok {| catalog_products :=
            [essential_plan {[ "monthly" := monthly_4900 ]};
             {| plan_product := "prod_666";
                plan_name := "Hidden Plan";
                plan_description := None;
                planId := "__proto__";
                planType := "subscription";
                displayOrder := 999;
                features := [];
                plan_metadata := product_metadata hidden;
                plan_prices := ∅;
                plan_active := true |}];
          catalog_prices :=
            {| JSObject.own := {[ "essential" := {[ "monthly" := monthly_4900 ]} ]};
               JSObject.prototype := Some ∅ |} |}.
Proof. vm_compute. reflexivity. Qed.

(** A refresh that lists this product alone counts one product and no
    price entry. *)
Lemma hidden_plan_is_not_counted :
  (refresh_catalog
     (first_call {| products_list := Ok [hidden]; prices_list := Ok [] |})
     initial_world).1
  = RefreshedJson "Product catalog refreshed successfully" 1 0
      (Some 1700000000250).
Proof. vm_compute. reflexivity. Qed.

Lemma planId_slug_witness :
  product_metadata plain !! "plan_id" = None
  /\ planId_of plain = "pro-enterprise-plan"
  /\ planId_of essential = "essential".
Proof.
  destruct (planId_slug plain) as [Hslug _].
  destruct (planId_slug essential) as [_ Hgiven].
  assert (product_metadata plain !! "plan_id" = None) as Hnone
    by (vm_compute; reflexivity).
  destruct (Hslug (or_introl Hnone)) as [Hid _].
  split; [exact Hnone|]. split.
  - rewrite Hid. vm_compute. reflexivity.
  - apply Hgiven; [vm_compute; reflexivity | discriminate].
Defined.

Lemma displayOrder_never_zero_witness :
  exists catalog,
    organizeProductCatalog [plain; growth] [] = Ok catalog
    /\ (forall plan, plan ∈ catalog_products catalog -> displayOrder plan <> 0)
    /\ exists plan, plan ∈ catalog_products catalog
         /\ plan_product plan = "prod_321" /\ displayOrder plan = 999.
Proof.
  destruct (organizeProductCatalog [plain; growth] [])
    as [catalog|e] eqn:Horg; [|vm_compute in Horg; discriminate Horg].
  destruct (displayOrder_never_zero _ _ _ Horg) as [Hnonzero Hdefault].
  exists catalog. split; [reflexivity|]. split; [exact Hnonzero|].
  apply (Hdefault plain); [left | vm_compute; reflexivity].
Defined.

Lemma read_is_fresh_witness :
  getProductCatalog false (next_call gateway_down) essential_world
  = (Ok essential_cache, essential_world)
  /\ ((lastUpdated essential_cache = Some (refreshed_at (next_call gateway_down))
       /\ fetches essential_world = S (fetches essential_world))
      \/ (false = false /\ essential_world = essential_world
          /\ products essential_cache <> []
          /\ exists t, lastUpdated essential_cache = Some t /\ t <> 0
               /\ now (next_call gateway_down) - t <= cacheExpiry essential_cache)).
Proof.
  assert (getProductCatalog false (next_call gateway_down) essential_world
          = (Ok essential_cache, essential_world)) as Hread
    by (vm_compute; reflexivity).
  split; [exact Hread|]. exact (read_is_fresh _ _ _ _ _ Hread).
Defined.

Lemma get_product_answers_witness :
  get_product "essential" (next_call gateway_down) essential_world
  = (PlanJson (essential_plan {[ "monthly" := monthly_4900 ]}), essential_world)
  /\ planId (essential_plan {[ "monthly" := monthly_4900 ]}) = "essential"
  /\ get_product "premium" (next_call gateway_down) essential_world
     = (PlanNotFoundJson 404 "Product not found" "premium", essential_world).
Proof.
  assert (get_product "essential" (next_call gateway_down) essential_world
          = (PlanJson (essential_plan {[ "monthly" := monthly_4900 ]}),
             essential_world)) as Hfound by (vm_compute; reflexivity).
  destruct (get_product_answers "essential" (next_call gateway_down) essential_world)
    as (Hplan & _ & _).
  destruct (get_product_answers "premium" (next_call gateway_down) essential_world)
    as (_ & Hmissing & _).
  split; [exact Hfound|]. split; [exact (proj1 (Hplan _ _ Hfound))|].
  apply Hmissing. split; [reflexivity|]. split; [reflexivity|].
  split; [reflexivity|]. exists essential_cache.
  split; [vm_compute; reflexivity|]. repeat constructor. discriminate.
Defined.

Lemma refresh_catalog_reports_witness :
  refresh_catalog (late_call gateway_essential) essential_world
  = (RefreshedJson "Product catalog refreshed successfully" 1 1
       (Some 1700000400250),
     (refresh_catalog (late_call gateway_essential) essential_world).2)
  /\ (1 <= 1)%nat
  /\ fetches (refresh_catalog (late_call gateway_essential) essential_world).2
     = 2%nat.
Proof.
  destruct (refresh_catalog_reports (late_call gateway_essential) essential_world)
    as (Hfetch & Hreport & _).
  assert (refresh_catalog (late_call gateway_essential) essential_world
          = (RefreshedJson "Product catalog refreshed successfully" 1 1
               (Some 1700000400250),
             (refresh_catalog (late_call gateway_essential) essential_world).2))
    as Hrun by (vm_compute; reflexivity).
  split; [exact Hrun|]. split; [exact (proj1 (proj2 (proj2 (Hreport _ _ _ _ _ Hrun))))|].
  exact Hfetch.
Defined.

Lemma debug_prices_are_recurring_prices_witness :
  organizeProductCatalog [essential] [string_price; setup_fee]
  = Ok (catalog_of_essential
          {[ "monthly" := monthly_4900; "one_time" := price_variant setup_fee ]})
  /\ debug_organizedPrices [essential] [string_price; setup_fee]
     = {| JSObject.own := {[ "essential" := {[ "monthly" := monthly_4900 ]} ]};
          JSObject.prototype := None |}.
Proof.
  assert (organizeProductCatalog [essential] [string_price; setup_fee]
          = Ok (catalog_of_essential
                  {[ "monthly" := monthly_4900;
                     "one_time" := price_variant setup_fee ]})) as Horg
    by (vm_compute; reflexivity).
  split; [exact Horg|].
  rewrite (proj1 (proj2 (debug_prices_are_recurring_prices _ _)) _ Horg).
  vm_compute. reflexivity.
Defined.

Lemma customer_reused_or_created_witness :
  (createOrRetrieveCustomer customer_found "owner@example.com" (Some "user_1")
     essential_sys).1 = Return {| customer_id := "cus_1" |}
  /\ (forall e,
        (createOrRetrieveCustomer customer_failing "owner@example.com"
           (Some "user_1") essential_sys).1 = Raise e ->
        exn_type e = None
        /\ subscription_error_message e = "Failed to process customer information").
Proof.
  destruct (customer_reused_or_created customer_found "owner@example.com"
              (Some "user_1") essential_sys) as (new & _ & _ & _ & Hfound & _).
  destruct (customer_reused_or_created customer_failing "owner@example.com"
              (Some "user_1") essential_sys) as (new' & _ & _ & _ & _ & Hfail).
  split.
  - exact (proj1 (Hfound _ _ eq_refl)).
  - intros e He. destruct (Hfail e He) as (Htype & _ & Hmessage). by split.
Defined.


Lemma webhook_always_acknowledges_witness :
  (webhook config_on webhook_env (Return (InvoicePaymentSucceeded invoice_1))
     essential_sys).1 = Return WebhookReceivedJson
  /\ webhook config_off webhook_env (Return (InvoicePaymentSucceeded invoice_1))
       essential_sys
     = (Return (WebhookText 400 "Webhook endpoint secret not configured"),
        essential_sys).
Proof.
  destruct (webhook_always_acknowledges config_on webhook_env
              (Return (InvoicePaymentSucceeded invoice_1)) essential_sys)
    as (Hack & _).
  destruct (webhook_always_acknowledges config_off webhook_env
              (Return (InvoicePaymentSucceeded invoice_1)) essential_sys)
    as (_ & Hnone & _).
  split.
  - exact (Hack "whsec_test" _ eq_refl eq_refl).
  - exact (Hnone eq_refl).
Defined.


Lemma webhook_catalog_events_witness :
  catalog_event (event_type (OtherEvent "price.updated")) = true
  /\ fetches (sys_world (handleWebhookEvent config_on webhook_env
                           (OtherEvent "price.updated") essential_sys).2) = 2%nat
  /\ catalog_event (event_type (CustomerSubscriptionUpdated subscription_1)) = false
  /\ sys_world (handleWebhookEvent config_on webhook_env
                  (CustomerSubscriptionUpdated subscription_1) essential_sys).2
     = essential_world.
Proof.
  destruct (webhook_catalog_events config_on webhook_env (OtherEvent "price.updated")
              essential_sys) as [Hrefresh _].
  destruct (webhook_catalog_events config_on webhook_env
              (CustomerSubscriptionUpdated subscription_1) essential_sys)
    as [_ Hkeep].
  assert (catalog_event (event_type (OtherEvent "price.updated")) = true) as Hyes
    by (vm_compute; reflexivity).
  assert (catalog_event (event_type (CustomerSubscriptionUpdated subscription_1))
          = false) as Hno by (vm_compute; reflexivity).
  split; [exact Hyes|]. split; [exact (proj1 (Hrefresh Hyes))|].
  split; [exact Hno|exact (Hkeep Hno)].
Defined.

Lemma webhook_without_target_witness :
  supabase config_off = false
  /\ handleWebhookEvent config_off webhook_env
       (CustomerSubscriptionDeleted subscription_1) essential_sys
     = (Return tt, essential_sys).
Proof.
  destruct (webhook_without_target config_off webhook_env essential_sys)
    as (Hoff & _).
  split; [reflexivity|].
  apply (Hoff (CustomerSubscriptionDeleted subscription_1)); vm_compute; reflexivity.
Defined.

Lemma overall_status_success_witness :
  (overall_status (Some active_subscription_row) (Some active_profile_row)).1.1
  = "success"
  /\ (overall_status (Some active_subscription_row) (Some active_profile_row)).2
     = VBool true
  /\ (overall_status (Some active_subscription_row) (Some inactive_profile_row)).1.1
     = "error"
  /\ (overall_status (Some active_subscription_row) None).1.1 = "no_profile".
Proof.
  destruct (overall_status_success (Some active_subscription_row)
              (Some active_profile_row)) as (Hiff & Htrue & _).
  destruct (overall_status_success (Some active_subscription_row)
              (Some inactive_profile_row)) as (_ & _ & _ & Herror).
  destruct (overall_status_success (Some active_subscription_row) None)
    as (_ & _ & Hnone & _).
  assert ((overall_status (Some active_subscription_row)
             (Some active_profile_row)).1.1 = "success") as Hsuccess.
  { apply Hiff. exists active_subscription_row, active_profile_row.
    repeat split; vm_compute; reflexivity. }
  split; [exact Hsuccess|]. split; [exact (Htrue Hsuccess)|]. split.
  - apply (Herror active_subscription_row inactive_profile_row);
      [reflexivity | reflexivity | vm_compute; reflexivity
      | left; vm_compute; reflexivity].
  - exact (proj1 (Hnone eq_refl)).
Defined.


Lemma subscription_row_written_once_witness :
  exists new,
    sys_calls (createOrUpdateBusinessSubscription config_on write_new "user_1"
                 (subscription_data subscription_1 "active" None) essential_sys).2
    = sys_calls essential_sys ++ new
    /\ InsertSubscription
         (subscriptionRecord write_new "user_1"
            (subscription_data subscription_1 "active" None)
            (Some {[ "business_id" := VString "biz_1" ]}) None) ∈ new
    /\ length new = 4%nat.
Proof.
  destruct (subscription_row_written_once config_on write_new "user_1"
              (subscription_data subscription_1 "active" None) essential_sys)
    as (new & Hcalls & _).
  exists new. split; [exact Hcalls|].
  assert (new = [SelectBusinessId "user_1"; SelectPlanId "Essential Plan";
                 SelectSubscriptionId "sub_1";
                 InsertSubscription
                   (subscriptionRecord write_new "user_1"
                      (subscription_data subscription_1 "active" None)
                      (Some {[ "business_id" := VString "biz_1" ]}) None)]) as ->.
  { apply (app_inv_head (sys_calls essential_sys)). rewrite <- Hcalls.
    vm_compute. reflexivity. }
  split; [|reflexivity]. do 3 right. left.
Defined.


End MoreScenarios.
